(** * AIVoiceAssistant: a shallow embedding of the browser-side controller

    The controller is one JavaScript class.  Its pure helpers (string
    cleaning, keyword classification, result extraction) become Rocq
    functions; its methods, which mutate [this], the page and talk to the
    network, become computations of a small state-and-exception monad over
    an explicit [World].

    Strings are sequences of code units.  The embedding covers the code
    units 0..255 (Latin-1), one [ascii] each, on which [toLowerCase] is a
    per-unit map and [length] counts units as JavaScript does. *)

From Stdlib Require Import Bool Arith List Lia.
From Stdlib Require Import Ascii String.
From Stdlib Require Import PrimFloat.
Import ListNotations.

Set Warnings "-register-all,-inexact-float".

Open Scope string_scope.
Open Scope bool_scope.
Open Scope nat_scope.

(** ** JavaScript string primitives *)

Module JSString.

Definition code (c : ascii) : nat := nat_of_ascii c.

(** [String.prototype.toLowerCase] on one Latin-1 code unit: A-Z and the
    accented capitals U+00C0..U+00DE (but not the sign U+00D7) move up by
    32; every other unit is its own lower case. *)
Definition lowerChar (c : ascii) : ascii :=
  let n := code c in
  if ((65 <=? n) && (n <=? 90))
     || ((192 <=? n) && (n <=? 222) && negb (n =? 215))
  then ascii_of_nat (n + 32)
  else c.

Fixpoint toLowerCase (s : string) : string :=
  match s with
  | EmptyString => EmptyString
  | String c r => String (lowerChar c) (toLowerCase r)
  end.

(** [s.startsWith(p)] *)
Fixpoint startsWith (p s : string) : bool :=
  match p, s with
  | EmptyString, _ => true
  | String _ _, EmptyString => false
  | String a p', String b s' => Ascii.eqb a b && startsWith p' s'
  end.

(** [s.includes(p)]: [p] occurs at some position of [s]. *)
Fixpoint includes (p s : string) : bool :=
  startsWith p s ||
  match s with
  | EmptyString => false
  | String _ r => includes p r
  end.

(** [s.endsWith(p)]: the last [length p] units of [s] are [p]. *)
Definition endsWith (p s : string) : bool :=
  (length p <=? length s)
  && String.eqb (substring (length s - length p) (length p) s) p.

(** White space and line terminators of ECMAScript that fit in one
    Latin-1 unit: TAB, LF, VT, FF, CR, SPACE, NBSP. *)
Definition isWhiteSpace (c : ascii) : bool :=
  let n := code c in
  ((9 <=? n) && (n <=? 13)) || (n =? 32) || (n =? 160).

(** Line terminators (the units [.] does not match and after which [^]
    matches under the [m] flag): LF and CR. *)
Definition isLineTerminator (c : ascii) : bool :=
  let n := code c in (n =? 10) || (n =? 13).

Fixpoint trimStart (s : string) : string :=
  match s with
  | EmptyString => EmptyString
  | String c r => if isWhiteSpace c then trimStart r else s
  end.

Fixpoint trimEnd (s : string) : string :=
  match s with
  | EmptyString => EmptyString
  | String c r =>
      match trimEnd r with
      | EmptyString => if isWhiteSpace c then EmptyString
                       else String c EmptyString
      | r' => String c r'
      end
  end.

Definition trim (s : string) : string := trimEnd (trimStart s).

Definition isEmpty (s : string) : bool :=
  match s with EmptyString => true | _ => false end.

Fixpoint allWhiteSpace (s : string) : bool :=
  match s with
  | EmptyString => true
  | String c r => isWhiteSpace c && allWhiteSpace r
  end.

End JSString.
Import JSString.

(** ** JavaScript values *)

Inductive JSValue : Type :=
| VUndefined
| VNull
| VBool (b : bool)
| VNum (d : float)
| VStr (s : string)
| VArr (items : list JSValue)
| VObj (fields : list (string * JSValue)).

(** ToBoolean. *)
Definition truthy (v : JSValue) : bool :=
  match v with
  | VUndefined | VNull => false
  | VBool b => b
  | VNum d => if PrimFloat.eqb d 0%float then false else PrimFloat.eqb d d
  | VStr s => negb (isEmpty s)
  | VArr _ | VObj _ => true
  end.

(** Property read [v.name] for the names the controller reads.  Reading a
    property of [undefined] or [null] throws; this is [None] here.  A
    string, number, boolean or array has none of these names; an object
    has it when the parsed JSON carried the key ([JSON.parse] leaves one
    entry per key). *)
Fixpoint lookupField (name : string) (fields : list (string * JSValue))
  : JSValue :=
  match fields with
  | [] => VUndefined
  | (k, v) :: rest => if String.eqb k name then v else lookupField name rest
  end.

Definition getProp (v : JSValue) (name : string) : option JSValue :=
  match v with
  | VUndefined | VNull => None
  | VObj fields => Some (lookupField name fields)
  | _ => Some VUndefined
  end.

(** Indexed read [v[0]]: the first element of an array, the first code
    unit of a string, the key "0" of an object. *)
Definition getIndex0 (v : JSValue) : option JSValue :=
  match v with
  | VUndefined | VNull => None
  | VArr items => Some (hd VUndefined items)
  | VStr (String c _) => Some (VStr (String c EmptyString))
  | VObj fields => Some (lookupField "0" fields)
  | _ => Some VUndefined
  end.

Definition isArray (v : JSValue) : bool :=
  match v with VArr _ => true | _ => false end.

(** ToString, as a template literal and a DOM string attribute apply it,
    ends in a string or throws a TypeError.  On a parsed JSON value it
    throws exactly on an object that carries its own "toString" key (no
    JSON value is callable, and the inherited [valueOf] returns the object
    itself), and on a list that holds such an object, lists inside lists
    included: [Array.prototype.toString] joins the conversions of the
    elements. *)
Definition hasOwn (name : string) (fields : list (string * JSValue)) : bool :=
  existsb (fun field => String.eqb (fst field) name) fields.

Fixpoint convertible (v : JSValue) : bool :=
  match v with
  | VArr items => forallb convertible items
  | VObj fields => negb (hasOwn "toString" fields)
  | _ => true
  end.

(** ** The world the controller runs in *)

Definition Blob := list nat.

Inductive JSError : Type :=
| NetworkError
| HttpError (status : nat)
| TypeError
| SyntaxError
| RecognitionError (code : string)
| DOMException (name : string)
| HostError.

(** How an awaited browser operation ends: the promise is fulfilled,
    rejected, or never settles. *)
Inductive Async (A : Type) : Type :=
| Resolved (a : A)
| Rejected (e : JSError)
| NeverSettles.
Arguments Resolved {A} a.
Arguments Rejected {A} e.
Arguments NeverSettles {A}.

(** An answer of the network.  Reading its body ends, with the value or
    by failing. *)
Record Response : Type := mkResponse {
  status : nat;
  jsonBody : option JSValue;   (* the body parsed as JSON, if it is JSON *)
  rawBody : option Blob        (* the body as bytes, if it can be read *)
}.

Definition ok (r : Response) : bool :=
  (200 <=? status r) && (status r <=? 299).

(** A real number of [0, 1), as [Math.random()] returns. *)
Record UnitInterval : Type := mkUnit {
  numer : nat;
  denom : nat;
  below_one : (numer <? denom) = true
}.

Inductive ElementId : Type :=
| voiceBtn | stopVoiceBtn | voiceIndicator | playbackIndicator
| processingIndicator | voiceError | chatMessages | chatInput.

Definition ElementId_eqb (a b : ElementId) : bool :=
  match a, b with
  | voiceBtn, voiceBtn | stopVoiceBtn, stopVoiceBtn
  | voiceIndicator, voiceIndicator | playbackIndicator, playbackIndicator
  | processingIndicator, processingIndicator | voiceError, voiceError
  | chatMessages, chatMessages | chatInput, chatInput => true
  | _, _ => false
  end.

(** A message [div] of the transcript: its class and the text given to
    its content [div]. *)
Record ChatNode : Type := mkChatNode {
  className : string;
  content : JSValue
}.

Record Element : Type := mkElement {
  textContent : string;
  display : string;              (* style.display *)
  disabled : bool;
  listeningClass : bool;         (* classList has 'listening' *)
  value : JSValue;               (* as assigned; it stands for its string *)
  focused : bool;
  children : list ChatNode
}.

Definition DOM := ElementId -> option Element.

(** The template literal of [createMentalHealthPrompt]: fixed text around
    the interpolated user message. *)
Record Prompt : Type := mkPrompt {
  before : string;
  interpolated : JSValue;
  after : string
}.

(** The [parameters] object of the generation request. *)
Record Decoding : Type := mkDecoding {
  max_length : nat;
  temperature : float;
  do_sample : bool;
  top_p : float;
  return_full_text : bool
}.

Inductive RequestBody : Type :=
| FormFile (field : string) (data : Blob) (filename : string)
| GenerationBody (inputs : Prompt) (parameters : Decoding)
| InputsBody (inputs : JSValue).

Record Request : Type := mkRequest {
  url : string;
  authorization : option string;   (* the bearer token, when a key is set *)
  jsonContent : bool;              (* 'Content-Type': 'application/json' *)
  payload : RequestBody
}.

(** What the controller does to its surroundings, in order. *)
Inductive Event : Type :=
| EConsole (label : string)
| EFetch (req : Request)
| EHostAddMessage (text : JSValue) (sender : string)
| ERecognitionStart (lang : string)
| ESpeak (text : JSValue) (lang : string)
| EPlay (audio : Blob)
| ETimeout (ms : nat)
| ERandom
| EGetUserMedia
| ERecorderStart (id : nat)
| ERecorderStop (id : nat).

(** The fields of [this]. *)
Record Controller : Type := mkController {
  isListening : bool;
  isPlaying : bool;
  mediaRecorder : option nat;
  audioChunks : list Blob;
  currentLanguage : string;
  hfApiKey : option string;
  stream : option nat;
  audioContext : bool;
  overrides : nat   (* how many times [processVoiceInput] is overridden *)
}.

(** What the page and the browser provide.  The features the controller
    tests for before it uses them are flags here; [fetch] and
    [MediaRecorder], which it uses without a test, are there. *)
Record Page : Type := mkPage {
  hasAudioContext : bool;          (* window.AudioContext *)
  hasSpeechRecognition : bool;     (* 'webkitSpeechRecognition' in window *)
  hasSpeechSynthesis : bool;       (* 'speechSynthesis' in window *)
  hasAddMessage : bool;            (* typeof addMessage === 'function' *)
  fetchResult : nat -> Async Response;      (* by number of earlier fetches *)
  randomDraw : nat -> UnitInterval;         (* by number of earlier draws *)
  recognitionResult : nat -> Async string;  (* by number of earlier starts *)
  userMediaResult : nat -> Async nat;       (* the stream, or denied *)
  decodable : Blob -> bool;                 (* decodeAudioData succeeds *)
  addMessageThrows : nat -> bool;           (* the page's addMessage fails *)
  startThrows : nat -> bool        (* by recorder: its start() is refused *)
}.

Record World : Type := mkWorld {
  this : Controller;
  dom : DOM;
  recorders : list bool;           (* per MediaRecorder: recording? *)
  trace : list Event;              (* oldest first *)
  page : Page
}.

(** *** Field updates *)

Definition setThis (c : Controller) (w : World) : World :=
  mkWorld c (dom w) (recorders w) (trace w) (page w).

Definition setDom (d : DOM) (w : World) : World :=
  mkWorld (this w) d (recorders w) (trace w) (page w).

Definition setRecorders (r : list bool) (w : World) : World :=
  mkWorld (this w) (dom w) r (trace w) (page w).

Definition setTrace (t : list Event) (w : World) : World :=
  mkWorld (this w) (dom w) (recorders w) t (page w).

Definition set_isListening (b : bool) (c : Controller) : Controller :=
  mkController b (isPlaying c) (mediaRecorder c) (audioChunks c)
    (currentLanguage c) (hfApiKey c) (stream c) (audioContext c)
    (overrides c).

Definition set_isPlaying (b : bool) (c : Controller) : Controller :=
  mkController (isListening c) b (mediaRecorder c) (audioChunks c)
    (currentLanguage c) (hfApiKey c) (stream c) (audioContext c)
    (overrides c).

Definition set_mediaRecorder (r : option nat) (c : Controller) : Controller :=
  mkController (isListening c) (isPlaying c) r (audioChunks c)
    (currentLanguage c) (hfApiKey c) (stream c) (audioContext c)
    (overrides c).

Definition set_audioChunks (l : list Blob) (c : Controller) : Controller :=
  mkController (isListening c) (isPlaying c) (mediaRecorder c) l
    (currentLanguage c) (hfApiKey c) (stream c) (audioContext c)
    (overrides c).

Definition set_currentLanguage (l : string) (c : Controller) : Controller :=
  mkController (isListening c) (isPlaying c) (mediaRecorder c) (audioChunks c)
    l (hfApiKey c) (stream c) (audioContext c)
    (overrides c).

Definition set_stream (s : option nat) (c : Controller) : Controller :=
  mkController (isListening c) (isPlaying c) (mediaRecorder c) (audioChunks c)
    (currentLanguage c) (hfApiKey c) s (audioContext c) (overrides c).

Definition set_audioContext (b : bool) (c : Controller) : Controller :=
  mkController (isListening c) (isPlaying c) (mediaRecorder c) (audioChunks c)
    (currentLanguage c) (hfApiKey c) (stream c) b (overrides c).

Definition set_overrides (n : nat) (c : Controller) : Controller :=
  mkController (isListening c) (isPlaying c) (mediaRecorder c) (audioChunks c)
    (currentLanguage c) (hfApiKey c) (stream c) (audioContext c) n.

Definition set_textContent (t : string) (e : Element) : Element :=
  mkElement t (display e) (disabled e) (listeningClass e) (value e)
    (focused e) (children e).

Definition set_display (d : string) (e : Element) : Element :=
  mkElement (textContent e) d (disabled e) (listeningClass e) (value e)
    (focused e) (children e).

Definition set_disabled (b : bool) (e : Element) : Element :=
  mkElement (textContent e) (display e) b (listeningClass e) (value e)
    (focused e) (children e).

Definition set_listeningClass (b : bool) (e : Element) : Element :=
  mkElement (textContent e) (display e) (disabled e) b (value e)
    (focused e) (children e).

Definition set_value (v : JSValue) (e : Element) : Element :=
  mkElement (textContent e) (display e) (disabled e) (listeningClass e) v
    (focused e) (children e).

Definition set_focused (b : bool) (e : Element) : Element :=
  mkElement (textContent e) (display e) (disabled e) (listeningClass e)
    (value e) b (children e).

Definition set_children (l : list ChatNode) (e : Element) : Element :=
  mkElement (textContent e) (display e) (disabled e) (listeningClass e)
    (value e) (focused e) l.

(** What [getElementById] answers once the element [id], if the page has
    it, went through [f]. *)
Definition updateElement (id : ElementId) (f : Element -> Element) (d : DOM)
  : DOM :=
  fun k => if ElementId_eqb k id then option_map f (d k) else d k.

(** ** The monad of controller methods

    A method takes the world and ends normally with a value, by throwing,
    or stays suspended on a promise that never settles. *)

Inductive Completion (A : Type) : Type :=
| Normal (a : A)
| Throw (e : JSError)
| Suspended.
Arguments Normal {A} a.
Arguments Throw {A} e.
Arguments Suspended {A}.

Definition M (A : Type) : Type := World -> Completion A * World.

Definition ret {A} (a : A) : M A := fun w => (Normal a, w).

Definition throw {A} (e : JSError) : M A := fun w => (Throw e, w).

Definition bind {A B} (m : M A) (k : A -> M B) : M B :=
  fun w =>
    match m w with
    | (Normal a, w') => k a w'
    | (Throw e, w') => (Throw e, w')
    | (Suspended, w') => (Suspended, w')
    end.

(** [try { m } catch (error) { h error }] *)
Definition tryCatch {A} (m : M A) (h : JSError -> M A) : M A :=
  fun w =>
    match m w with
    | (Throw e, w') => h e w'
    | r => r
    end.

Definition await {A} (a : Async A) : M A :=
  fun w =>
    match a with
    | Resolved x => (Normal x, w)
    | Rejected e => (Throw e, w)
    | NeverSettles => (Suspended, w)
    end.

Definition gets {A} (f : World -> A) : M A := fun w => (Normal (f w), w).

Definition modify (f : World -> World) : M unit := fun w => (Normal tt, f w).

Declare Scope js_scope.
Delimit Scope js_scope with js.
Notation "x <- m ;; k" := (bind m (fun x => k))
  (at level 61, m at next level, right associativity) : js_scope.
Notation "m ;; k" := (bind m (fun _ => k))
  (at level 61, right associativity) : js_scope.
Open Scope js_scope.

Definition when (b : bool) (m : M unit) : M unit :=
  if b then m else ret tt.

Definition emit (e : Event) : M unit :=
  modify (fun w => setTrace (trace w ++ [e]) w).

Definition modifyThis (f : Controller -> Controller) : M unit :=
  modify (fun w => setThis (f (this w)) w).

Definition console (label : string) : M unit := emit (EConsole label).

(** The conversion to a string that a template literal and the setter of
    a DOM string attribute make.  The value stands for its string. *)
Definition toStringOf (v : JSValue) : M JSValue :=
  if convertible v then ret v else throw TypeError.

(** [el = document.getElementById(id); if (el) { ... }] *)
Definition withElement (id : ElementId) (f : Element -> Element) : M unit :=
  modify (fun w => setDom (updateElement id f (dom w)) w).

(** ** UI helper methods *)

Definition updateVoiceUI (listening : bool) : M unit :=
  withElement voiceBtn
    (fun e => set_listeningClass listening (set_disabled listening e)) ;;
  withElement stopVoiceBtn
    (set_display (if listening then "inline-block" else "none")) ;;
  withElement voiceIndicator
    (set_display (if listening then "inline-block" else "none")).

Definition updatePlaybackUI (playing : bool) : M unit :=
  withElement playbackIndicator
    (set_display (if playing then "inline-block" else "none")).

Definition showProcessingIndicator (message : string) : M unit :=
  withElement processingIndicator
    (fun e => set_display "block" (set_textContent message e)).

Definition hideProcessingIndicator : M unit :=
  withElement processingIndicator (set_display "none").

Definition showError (message : string) : M unit :=
  errorDiv <- gets (fun w => dom w voiceError) ;;
  match errorDiv with
  | Some _ =>
      withElement voiceError
        (fun e => set_display "block" (set_textContent message e)) ;;
      emit (ETimeout 5000)
  | None => console "Voice Assistant Error:"
  end.

(** The callback [showError] hands to [setTimeout]. *)
Definition errorTimeout : M unit :=
  withElement voiceError (set_display "none").

Definition isHostAddMessage (e : Event) : bool :=
  match e with EHostAddMessage _ _ => true | _ => false end.

Definition isFetch (e : Event) : bool :=
  match e with EFetch _ => true | _ => false end.

Definition isRandom (e : Event) : bool :=
  match e with ERandom => true | _ => false end.

Definition isRecognitionStart (e : Event) : bool :=
  match e with ERecognitionStart _ => true | _ => false end.

Definition isGetUserMedia (e : Event) : bool :=
  match e with EGetUserMedia => true | _ => false end.

Definition count (p : Event -> bool) (t : list Event) : nat :=
  List.length (filter p t).

(** The text goes into the new node through [textContent], a DOM string
    attribute; nothing is made when the page has no container. *)
Definition fallbackAddMessage (text : JSValue) (sender : string) : M unit :=
  messagesContainer <- gets (fun w => dom w chatMessages) ;;
  match messagesContainer with
  | None => ret tt
  | Some _ =>
      content <- toStringOf text ;;
      withElement chatMessages
        (fun e => set_children
                    (children e
                       ++ [mkChatNode ("message " ++ sender) content]) e)
  end.

(** Uses the page's own [addMessage] when it has one. *)
Definition addMessageToChat (text : JSValue) (sender : string) : M unit :=
  hostFn <- gets (fun w => hasAddMessage (page w)) ;;
  if hostFn then
    n <- gets (fun w => count isHostAddMessage (trace w)) ;;
    emit (EHostAddMessage text sender) ;;
    fails <- gets (fun w => addMessageThrows (page w) n) ;;
    if fails then throw HostError else ret tt
  else fallbackAddMessage text sender.

Definition setLanguage (language : string) : M unit :=
  modifyThis (set_currentLanguage language).

(** ** Response generation *)

Definition promptBefore : string :=
"You are an empathetic AI mental health support assistant specifically designed for students. 
        You provide compassionate, understanding responses while encouraging professional help when needed.
        
        User: ".

Definition promptAfter : string :=
"
        Assistant: ".

Definition createMentalHealthPrompt (userMessage : JSValue) : M Prompt :=
  interpolated <- toStringOf userMessage ;;
  ret (mkPrompt promptBefore interpolated promptAfter).

Definition hfBaseUrl : string := "https://api-inference.huggingface.co/models".

Definition model_speechToText : string := "openai/whisper-large-v3".
Definition model_textGeneration : string := "microsoft/DialoGPT-medium".
Definition model_textToSpeech : string := "microsoft/speecht5_tts".

(** [this.hfApiKey ? { 'Authorization': ... } : {}] *)
Definition bearer (key : option string) : option string :=
  match key with
  | Some k => if isEmpty k then None else Some k
  | None => None
  end.

Definition fetch (req : Request) : M Response :=
  n <- gets (fun w => count isFetch (trace w)) ;;
  emit (EFetch req) ;;
  r <- gets (fun w => fetchResult (page w) n) ;;
  await r.

(** [response.json()] *)
Definition json (r : Response) : M JSValue :=
  match jsonBody r with
  | Some v => ret v
  | None => throw SyntaxError
  end.

(** [Math.random()] *)
Definition mathRandom : M UnitInterval :=
  n <- gets (fun w => count isRandom (trace w)) ;;
  emit ERandom ;;
  gets (fun w => randomDraw (page w) n).

(** [Math.floor(r * n)] *)
Definition floorTimes (r : UnitInterval) (n : nat) : nat :=
  (numer r * n) / denom r.

(** [v.toLowerCase()] and [v.trim()] exist on strings only. *)
Definition callToLowerCase (v : JSValue) : M string :=
  match v with
  | VStr s => ret (toLowerCase s)
  | _ => throw TypeError
  end.

Definition callTrim (v : JSValue) : M string :=
  match v with
  | VStr s => ret (trim s)
  | _ => throw TypeError
  end.

(** [a || b] *)
Definition orElse (a b : JSValue) : JSValue := if truthy a then a else b.

Inductive Category : Type := anxiety | stress | depression | default.

Definition responses (c : Category) : list string :=
  match c with
  | anxiety =>
      [ "I understand that anxiety can feel overwhelming, especially as a student. Would you like to try a quick breathing exercise together?";
        "Anxiety is very common among students. What specific situation is making you feel anxious right now?";
        "I hear that you're feeling anxious. Remember, these feelings are temporary. Let's talk about some coping strategies." ]
  | stress =>
      [ "Student life can be incredibly stressful. What's the biggest source of stress for you right now?";
        "I can sense you're feeling stressed. Sometimes breaking things down into smaller, manageable steps helps. What's on your mind?";
        "Stress is a normal part of student life, but it doesn't have to overwhelm you. Let's work through this together." ]
  | depression =>
      [ "I'm sorry you're going through a difficult time. These feelings are valid, and you don't have to face them alone.";
        "Depression can make everything feel harder, especially balancing studies and personal life. Have you been able to talk to anyone about how you're feeling?";
        "Thank you for sharing something so personal with me. Remember that seeking help is a sign of strength, not weakness." ]
  | default =>
      [ "I'm here to listen and support you. Can you tell me more about what's on your mind?";
        "It sounds like you're going through something challenging. I'm here to help however I can.";
        "Thank you for reaching out. Sometimes just talking about what we're feeling can be really helpful. What would you like to share?" ]
  end.

(** The [if / else if] chain that picks the category. *)
Definition categoryOf (lowerMessage : string) : Category :=
  if includes "anxious" lowerMessage || includes "anxiety" lowerMessage
     || includes "worried" lowerMessage
  then anxiety
  else if includes "stress" lowerMessage
          || includes "overwhelmed" lowerMessage
          || includes "pressure" lowerMessage
  then stress
  else if includes "sad" lowerMessage || includes "depressed" lowerMessage
          || includes "hopeless" lowerMessage
  then depression
  else default.

(** [arr[i]] on an array of strings. *)
Definition index (arr : list string) (i : nat) : JSValue :=
  match nth_error arr i with
  | Some s => VStr s
  | None => VUndefined
  end.

Definition getFallbackResponse (message : JSValue) : M JSValue :=
  lowerMessage <- callToLowerCase message ;;
  let category := categoryOf lowerMessage in
  let categoryResponses := responses category in
  r <- mathRandom ;;
  ret (index categoryResponses
         (floorTimes r (List.length categoryResponses))).

(** [aiResponse.replace(/^(You are an empathetic|Assistant:|User:).*$/gm, '')]

    Under the [m] flag [^] matches at the start of the text and after a
    line terminator, [.*] runs to the next line terminator, so each line
    that begins with one of the three markers loses all its units, and its
    terminator stays. *)
Inductive LineMode : Type := LineStart | InLine | Dropping.

Definition promptMarker (s : string) : bool :=
  startsWith "You are an empathetic" s || startsWith "Assistant:" s
  || startsWith "User:" s.

Fixpoint removeFrom (mode : LineMode) (s : string) : string :=
  match s with
  | EmptyString => EmptyString
  | String c r =>
      let next := if isLineTerminator c then LineStart else InLine in
      match mode with
      | Dropping =>
          if isLineTerminator c then String c (removeFrom LineStart r)
          else removeFrom Dropping r
      | LineStart =>
          if promptMarker s then removeFrom Dropping r
          else String c (removeFrom next r)
      | InLine => String c (removeFrom next r)
      end
  end.

Definition removePromptRepetition (s : string) : string :=
  removeFrom LineStart s.

Definition seriousTopics : list string :=
  ["suicide"; "self-harm"; "hopeless"; "crisis"; "emergency"].

Definition crisisSentence : string :=
  " Remember, if you're having thoughts of self-harm, please reach out immediately to a crisis helpline or emergency services.".

(** [list.some(callback)] with a callback that may throw. *)
Fixpoint some {A} (f : A -> M bool) (l : list A) : M bool :=
  match l with
  | [] => ret false
  | x :: rest => b <- f x ;; if b then ret true else some f rest
  end.

Definition enhanceResponse (aiResponse : string) (userMessage : JSValue)
  : M JSValue :=
  let cleanResponse := trim (removePromptRepetition aiResponse) in
  if String.length cleanResponse <? 20 then getFallbackResponse userMessage
  else
    let enhanced :=
      if negb (endsWith "." cleanResponse)
         && negb (endsWith "!" cleanResponse)
         && negb (endsWith "?" cleanResponse)
      then (cleanResponse ++ ".")%string
      else cleanResponse in
    serious <- some (fun topic =>
                       lower <- callToLowerCase userMessage ;;
                       ret (includes topic lower))
                    seriousTopics ;;
    ret (VStr (if serious then (enhanced ++ crisisSentence)%string
               else enhanced)).

Definition fixedDecoding : Decoding :=
  mkDecoding 150 0.7%float true 0.9%float false.

(** Reading a property throws on [undefined] and [null]. *)
Definition prop (v : JSValue) (name : string) : M JSValue :=
  match getProp v name with
  | Some x => ret x
  | None => throw TypeError
  end.

Definition index0 (v : JSValue) : M JSValue :=
  match getIndex0 v with
  | Some x => ret x
  | None => throw TypeError
  end.

(** The part of [generateAIResponse] that reads the generated text out of
    the JSON result. *)
Definition extractGenerated (result : JSValue) : M JSValue :=
  first <- (if isArray result then index0 result else ret VUndefined) ;;
  if isArray result && truthy first then
    g <- prop first "generated_text" ;;
    if truthy g then ret g
    else
      t <- prop first "text" ;;
      ret (orElse t (VStr ""))
  else
    g <- prop result "generated_text" ;;
    if truthy g then ret g else ret (VStr "").

Definition generateAIResponse (message : JSValue) : M JSValue :=
  tryCatch
    (mentalHealthPrompt <- createMentalHealthPrompt message ;;
     key <- gets (fun w => hfApiKey (this w)) ;;
     response <- fetch (mkRequest
                          (hfBaseUrl ++ "/" ++ model_textGeneration)%string
                          (bearer key) true
                          (GenerationBody mentalHealthPrompt
                                          fixedDecoding)) ;;
     (if negb (ok response) then throw (HttpError (status response))
      else ret tt) ;;
     result <- json response ;;
     aiResponse <- extractGenerated result ;;
     trimmed <- callTrim aiResponse ;;
     enhanced <- enhanceResponse trimmed message ;;
     if truthy enhanced then ret enhanced else getFallbackResponse message)
    (fun error =>
       console "AI response generation error:" ;;
       getFallbackResponse message).

(** ** Speech to text *)

Definition locale (language : string) : string :=
  if String.eqb language "en" then "en-US" else "mr-IN".

(** The promise around the page's recognizer: fulfilled by [onresult],
    rejected by [onerror], left pending when neither fires. *)
Definition fallbackSpeechToText : M JSValue :=
  n <- gets (fun w => count isRecognitionStart (trace w)) ;;
  language <- gets (fun w => currentLanguage (this w)) ;;
  emit (ERecognitionStart (locale language)) ;;
  r <- gets (fun w => recognitionResult (page w) n) ;;
  transcript <- await r ;;
  ret (VStr transcript).

(** [result.text || (result[0] && result[0].text) || ''] *)
Definition extractTranscript (result : JSValue) : M JSValue :=
  t <- prop result "text" ;;
  if truthy t then ret t
  else
    first <- index0 result ;;
    x <- (if truthy first then prop first "text" else ret first) ;;
    ret (orElse x (VStr "")).

Definition speechToText (audioBlob : Blob) : M JSValue :=
  tryCatch
    (key <- gets (fun w => hfApiKey (this w)) ;;
     response <- fetch (mkRequest
                          (hfBaseUrl ++ "/" ++ model_speechToText)%string
                          (bearer key) false
                          (FormFile "file" audioBlob "audio.wav")) ;;
     (if negb (ok response) then throw (HttpError (status response))
      else ret tt) ;;
     result <- json response ;;
     extractTranscript result)
    (fun error =>
       console "Speech to text error:" ;;
       recognizer <- gets (fun w => hasSpeechRecognition (page w)) ;;
       if recognizer then fallbackSpeechToText else throw error).

(** ** Text to speech *)

Definition playAudioBuffer (audioBuffer : Blob) : M unit :=
  tryCatch
    (own <- gets (fun w => audioContext (this w)) ;;
     available <- gets (fun w => hasAudioContext (page w)) ;;
     (if own || available then ret tt else throw TypeError) ;;
     decodes <- gets (fun w => decodable (page w) audioBuffer) ;;
     (if decodes then ret tt else throw (DOMException "EncodingError")) ;;
     modifyThis (set_isPlaying true) ;;
     updatePlaybackUI true ;;
     emit (EPlay audioBuffer))
    (fun error =>
       console "Audio playback error:" ;;
       modifyThis (set_isPlaying false) ;;
       updatePlaybackUI false).

(** [source.onended] and [utterance.onend] *)
Definition playbackEnded : M unit :=
  modifyThis (set_isPlaying false) ;;
  updatePlaybackUI false.

(** [utterance.onstart] *)
Definition utteranceStarted : M unit :=
  modifyThis (set_isPlaying true) ;;
  updatePlaybackUI true.

(** [text] is the reply [generateAIResponse] returned, a string, in every
    call the controller makes. *)
Definition fallbackTextToSpeech (text : JSValue) : M unit :=
  synthesis <- gets (fun w => hasSpeechSynthesis (page w)) ;;
  when synthesis
    (language <- gets (fun w => currentLanguage (this w)) ;;
     emit (ESpeak text (locale language))).

(** [response.arrayBuffer()] *)
Definition arrayBuffer (r : Response) : M Blob :=
  match rawBody r with
  | Some bytes => ret bytes
  | None => throw TypeError
  end.

Definition textToSpeech (text : JSValue) : M unit :=
  tryCatch
    (key <- gets (fun w => hfApiKey (this w)) ;;
     response <- fetch (mkRequest
                          (hfBaseUrl ++ "/" ++ model_textToSpeech)%string
                          (bearer key) true (InputsBody text)) ;;
     (if negb (ok response) then throw (HttpError (status response))
      else ret tt) ;;
     audioBuffer <- arrayBuffer response ;;
     playAudioBuffer audioBuffer)
    (fun error =>
       console "Text to speech error:" ;;
       synthesis <- gets (fun w => hasSpeechSynthesis (page w)) ;;
       when synthesis (fallbackTextToSpeech text)).

(** ** The voice pipeline and the text entry point *)

Definition processVoiceInput (audioBlob : Blob) : M unit :=
  tryCatch
    (showProcessingIndicator "Converting speech to text..." ;;
     transcription <- speechToText audioBlob ;;
     when (truthy transcription)
       (addMessageToChat transcription "user" ;;
        showProcessingIndicator "Generating response..." ;;
        aiResponse <- generateAIResponse transcription ;;
        addMessageToChat aiResponse "bot" ;;
        showProcessingIndicator "Converting to speech..." ;;
        textToSpeech aiResponse) ;;
     hideProcessingIndicator)
    (fun error =>
       console "Error processing voice input:" ;;
       showError "Failed to process voice input" ;;
       hideProcessingIndicator).

Definition sendTextMessage (message : JSValue) : M unit :=
  trimmed <- callTrim message ;;
  if isEmpty trimmed then ret tt
  else
    tryCatch
      (addMessageToChat message "user" ;;
       showProcessingIndicator "Generating response..." ;;
       aiResponse <- generateAIResponse message ;;
       addMessageToChat aiResponse "bot" ;;
       hideProcessingIndicator)
      (fun error =>
         console "Error sending text message:" ;;
         showError "Failed to generate response" ;;
         hideProcessingIndicator).

(** ** Recording *)

Definition initializeAudio : M unit :=
  tryCatch
    (available <- gets (fun w => hasAudioContext (page w)) ;;
     (if available then modifyThis (set_audioContext true)
      else throw TypeError) ;;
     n <- gets (fun w => count isGetUserMedia (trace w)) ;;
     emit EGetUserMedia ;;
     r <- gets (fun w => userMediaResult (page w) n) ;;
     granted <- await r ;;
     modifyThis (set_stream (Some granted)) ;;
     console "Audio initialized successfully")
    (fun error =>
       console "Error initializing audio:" ;;
       showError "Microphone access denied. Voice features will be limited.").

Fixpoint setNth (i : nat) (b : bool) (l : list bool) : list bool :=
  match l, i with
  | [], _ => []
  | _ :: rest, 0 => b :: rest
  | x :: rest, S j => x :: setNth j b rest
  end.

(** [recorder.start()] throws on a recorder that is recording, and when
    the browser refuses to record the stream (the stream has ended, say);
    nothing has changed then. *)
Definition recorderStart (id : nat) : M unit :=
  active <- gets (fun w => nth id (recorders w) false) ;;
  if active then throw (DOMException "InvalidStateError")
  else
    refused <- gets (fun w => startThrows (page w) id) ;;
    if refused then throw (DOMException "NotSupportedError")
    else
      modify (fun w => setRecorders (setNth id true (recorders w)) w) ;;
      emit (ERecorderStart id).

(** [recorder.stop()] on a recorder that is not recording does nothing
    (MediaStream Recording: "if state is inactive, abort these steps"). *)
Definition recorderStop (id : nat) : M unit :=
  active <- gets (fun w => nth id (recorders w) false) ;;
  when active
    (modify (fun w => setRecorders (setNth id false (recorders w)) w) ;;
     emit (ERecorderStop id)).

(** [new MediaRecorder(this.stream)]: needs a stream, and makes a recorder
    that is not recording.  Whether the stream can still be recorded
    shows at [start()]. *)
Definition newMediaRecorder (s : option nat) : M nat :=
  match s with
  | None => throw TypeError
  | Some _ =>
      id <- gets (fun w => List.length (recorders w)) ;;
      modify (fun w => setRecorders (recorders w ++ [false]) w) ;;
      ret id
  end.

Definition startVoiceRecording : M unit :=
  s <- gets (fun w => stream (this w)) ;;
  match s with
  | None => initializeAudio
  | Some _ => ret tt
  end ;;
  tryCatch
    (modifyThis (set_audioChunks []) ;;
     s <- gets (fun w => stream (this w)) ;;
     recorder <- newMediaRecorder s ;;
     modifyThis (set_mediaRecorder (Some recorder)) ;;
     recorderStart recorder ;;
     modifyThis (set_isListening true) ;;
     updateVoiceUI true ;;
     console "Voice recording started")
    (fun error =>
       console "Error starting voice recording:" ;;
       showError "Failed to start voice recording").

Definition stopVoiceRecording : M unit :=
  recorder <- gets (fun w => mediaRecorder (this w)) ;;
  listening <- gets (fun w => isListening (this w)) ;;
  match recorder with
  | Some id =>
      if listening then
        recorderStop id ;;
        modifyThis (set_isListening false) ;;
        updateVoiceUI false ;;
        console "Voice recording stopped"
      else ret tt
  | None => ret tt
  end.

Definition toggleVoiceRecording : M unit :=
  listening <- gets (fun w => isListening (this w)) ;;
  if listening then stopVoiceRecording else startVoiceRecording.

(** [mediaRecorder.ondataavailable]: every recorder the controller made
    carries this handler, and it pushes onto the buffer [this] holds when
    the event arrives. *)
Definition ondataavailable (data : Blob) : M unit :=
  when (0 <? List.length data)
    (modifyThis (fun c => set_audioChunks (audioChunks c ++ [data]) c)).

(** The override [voiceToTextOnly] installs over [processVoiceInput]: it
    transcribes into the text input and then puts back the function it
    replaced. *)
Definition transcribeOnly (audioBlob : Blob) : M unit :=
  tryCatch
    (showProcessingIndicator "Converting speech to text..." ;;
     transcription <- speechToText audioBlob ;;
     when (truthy transcription)
       (input <- gets (fun w => dom w chatInput) ;;
        match input with
        | Some _ =>
            text <- toStringOf transcription ;;
            withElement chatInput
              (fun e => set_focused true (set_value text e))
        | None => ret tt
        end) ;;
     hideProcessingIndicator)
    (fun error =>
       console "Voice to text error:" ;;
       showError "Failed to convert speech to text" ;;
       hideProcessingIndicator) ;;
  modifyThis (fun c => set_overrides (pred (overrides c)) c).

(** [mediaRecorder.onstop]: builds the blob from the buffer and calls
    whatever [this.processVoiceInput] is at that moment. *)
Definition onstop : M unit :=
  audioBlob <- gets (fun w => List.concat (audioChunks (this w))) ;;
  depth <- gets (fun w => overrides (this w)) ;;
  match depth with
  | 0 => processVoiceInput audioBlob
  | S _ => transcribeOnly audioBlob
  end.

Definition voiceToTextOnly : M unit :=
  tryCatch
    (startVoiceRecording ;;
     modifyThis (fun c => set_overrides (S (overrides c)) c))
    (fun error =>
       console "Voice to text only error:" ;;
       showError "Failed to start voice to text").

(** The state the constructor leaves before its two calls. *)
Definition constructed : Controller :=
  mkController false false None [] "en" None None false 0.


(** * What the claims are stated with *)

(** ** The claims' own words *)

(** [kw] occurs in [message] in some letter case. *)
Definition containsIgnoringCase (kw message : string) : Prop :=
  exists pre mid post,
    message = (pre ++ mid ++ post)%string /\ toLowerCase mid = kw.

Definition keywords (c : Category) : list string :=
  match c with
  | anxiety => ["anxious"; "anxiety"; "worried"]
  | stress => ["stress"; "overwhelmed"; "pressure"]
  | depression => ["sad"; "depressed"; "hopeless"]
  | default => []
  end.

Definition mentions (c : Category) (message : string) : Prop :=
  exists kw, In kw (keywords c) /\ containsIgnoringCase kw message.

(** First match in the order anxiety, stress, depression; default when
    nothing matches. *)
Definition classified (message : string) (c : Category) : Prop :=
  match c with
  | anxiety => mentions anxiety message
  | stress => ~ mentions anxiety message /\ mentions stress message
  | depression =>
      ~ mentions anxiety message /\ ~ mentions stress message
      /\ mentions depression message
  | default =>
      ~ mentions anxiety message /\ ~ mentions stress message
      /\ ~ mentions depression message
  end.

(** Every string of the fallback table. *)
Definition fallbackTable : list string :=
  responses anxiety ++ responses stress ++ responses depression
  ++ responses default.

(** The same test as a boolean, on the lowered message. *)
Definition mentionsb (c : Category) (lowerMessage : string) : bool :=
  existsb (fun kw => includes kw lowerMessage) (keywords c).

(** The remote call failed: the promise was rejected, or the response
    is not a 2xx one. *)
Definition remoteFails (a : Async Response) : Prop :=
  match a with
  | Rejected _ => True
  | Resolved r => ok r = false
  | NeverSettles => False
  end.

(** The outcome of the next [fetch] in world [w]. *)
Definition nextFetch (w : World) : Async Response :=
  fetchResult (page w) (count isFetch (trace w)).

Definition generationRequest (message : JSValue) (w : World) : Request :=
  mkRequest (hfBaseUrl ++ "/" ++ model_textGeneration)%string
    (bearer (hfApiKey (this w))) true
    (GenerationBody (mkPrompt promptBefore message promptAfter)
       fixedDecoding).

(** The world once the request went out and the catch block logged. *)
Definition afterFailedGeneration (message : JSValue) (w : World) : World :=
  setTrace ((trace w ++ [EFetch (generationRequest message w)])
              ++ [EConsole "AI response generation error:"]) w.

(** The text [enhanceResponse] builds before the crisis sentence. *)
Definition punctuated (clean : string) : string :=
  if negb (endsWith "." clean) && negb (endsWith "!" clean)
     && negb (endsWith "?" clean)
  then (clean ++ ".")%string else clean.

(** The request [speechToText] sends. *)
Definition sttRequest (audioBlob : Blob) (w : World) : Request :=
  mkRequest (hfBaseUrl ++ "/" ++ model_speechToText)%string
    (bearer (hfApiKey (this w))) false
    (FormFile "file" audioBlob "audio.wav").

(** A text with no line terminator in it: one line. *)
Fixpoint oneLine (s : string) : bool :=
  match s with
  | EmptyString => true
  | String c r => negb (isLineTerminator c) && oneLine r
  end.

(** ** Sample pages and worlds *)

Definition blankElement : Element :=
  mkElement "" "" false false (VStr "") false [].

Definition fullDom : DOM := fun _ => Some blankElement.

Definition half : UnitInterval := mkUnit 1 2 eq_refl.

(** A page with no network, no on-device speech facility and no
    [addMessage] of its own. *)
Definition offlinePage : Page :=
  mkPage true false false false
    (fun _ => Rejected NetworkError)
    (fun _ => half)
    (fun _ => Rejected (RecognitionError "no-speech"))
    (fun _ => Rejected (DOMException "NotAllowedError"))
    (fun _ => false)
    (fun _ => false)
    (fun _ => false).

Definition offlineWorld : World :=
  mkWorld constructed fullDom [] [] offlinePage.

(** A page whose every request is answered 200 with the given JSON. *)
Definition answeringPage (body : JSValue) : Page :=
  mkPage true false false false
    (fun _ => Resolved (mkResponse 200 (Some body) (Some [])))
    (fun _ => half)
    (fun _ => Rejected (RecognitionError "no-speech"))
    (fun _ => Rejected (DOMException "NotAllowedError"))
    (fun _ => false)
    (fun _ => false)
    (fun _ => false).

Definition answeringWorld (body : JSValue) : World :=
  mkWorld constructed fullDom [] [] (answeringPage body).

(** The text [generateAIResponse] hands on after both trims and the
    removal of prompt lines. *)
Definition cleaned (raw : string) : string :=
  trim (removePromptRepetition (trim raw)).

(** A generation answer that only echoes a prompt line and adds six
    units of text. *)
Definition shortRaw : string :=
  "Assistant: hello there
I see.".

Definition shortBody : JSValue :=
  VArr [VObj [("generated_text", VStr shortRaw)]].

Definition longBody : JSValue :=
  VArr [VObj [("generated_text",
               VStr "That sounds really hard, thank you for telling me")]].

(** What the claim on the speech-to-text result says: the top-level
    text field when the body has one; else the text field of the first
    element when the body is a list whose first element has one; else the
    empty string. *)
Fixpoint findField (name : string) (fields : list (string * JSValue))
  : option JSValue :=
  match fields with
  | [] => None
  | (k, v) :: rest => if String.eqb k name then Some v else findField name rest
  end.

Definition textField (v : JSValue) : option JSValue :=
  match v with
  | VObj fields => findField "text" fields
  | _ => None
  end.

Definition transcriptAsClaimed (body : JSValue) : JSValue :=
  match textField body with
  | Some t => t
  | None =>
      match body with
      | VArr (first :: _) =>
          match textField first with
          | Some t => t
          | None => VStr ""
          end
      | _ => VStr ""
      end
  end.

(** [v.name] and [v[0]] where they cannot throw. *)
Definition fieldOf (name : string) (v : JSValue) : JSValue :=
  match getProp v name with
  | Some x => x
  | None => VUndefined
  end.

Definition elem0 (v : JSValue) : JSValue :=
  match getIndex0 v with
  | Some x => x
  | None => VUndefined
  end.

(** An object that is not a list and has an empty text next to a key "0". *)
Definition keyedBody : JSValue :=
  VObj [("text", VStr ""); ("0", VObj [("text", VStr "hello")])].

(** The transcript as it shows: what the page's [addMessage] was given
    and the message nodes under the transcript container. *)
Definition transcriptEntries (w : World)
  : list Event * option (list ChatNode) :=
  (filter isHostAddMessage (trace w),
   option_map children (dom w chatMessages)).

Definition indicatorHidden (w : World) : Prop :=
  match dom w processingIndicator with
  | Some e => display e = "none"
  | None => True
  end.

Definition bannerShown (message : string) (w : World) : Prop :=
  exists e, dom w voiceError = Some e
            /\ display e = "block" /\ textContent e = message.

(** The browser hands the recorded chunks to the handler one by one. *)
Fixpoint deliverAll (chunks : list Blob) : M unit :=
  match chunks with
  | [] => ret tt
  | data :: rest => ondataavailable data ;; deliverAll rest
  end.

(** A world in the middle of a recording: recorder 0 runs and two chunks
    are buffered. *)
Definition recordingWorld : World :=
  mkWorld
    (mkController true false (Some 0) [[1; 2]; [3]] "en" None (Some 7) true 0)
    fullDom [true] [ERecorderStart 0] offlinePage.

(** How [speechToText] ends when it falls back on the page's recognizer. *)
Definition recognitionOutcome (a : Async string) : Completion JSValue :=
  match a with
  | Resolved transcript => Normal (VStr transcript)
  | Rejected e => Throw e
  | NeverSettles => Suspended
  end.

(** The error a failed call raises inside the [try] block. *)
Definition failure (a : Async Response) : JSError :=
  match a with
  | Rejected e => e
  | Resolved r => HttpError (status r)
  | NeverSettles => NetworkError
  end.

(** A page with no network whose recognizer hears "hello". *)
Definition recognizerPage : Page :=
  mkPage true true false false
    (fun _ => Rejected NetworkError)
    (fun _ => half)
    (fun _ => Resolved "hello")
    (fun _ => Rejected (DOMException "NotAllowedError"))
    (fun _ => false)
    (fun _ => false)
    (fun _ => false).

Definition recognizerWorld : World :=
  mkWorld constructed fullDom [] [] recognizerPage.

(** A run that ended has the processing indicator hidden; the two entry
    points never end by throwing. *)
Definition endsHidden (r : Completion unit * World) : Prop :=
  match fst r with
  | Normal _ => indicatorHidden (snd r)
  | Throw _ => False
  | Suspended => True
  end.

(** A computation that, when it returns, has just hidden the indicator. *)
Definition hidesOnReturn (m : M unit) : Prop :=
  forall w,
    match fst (m w) with
    | Normal _ => indicatorHidden (snd (m w))
    | _ => True
    end.

(** Every promise the page hands out settles. *)
Definition settling (p : Page) : Prop :=
  (forall n, fetchResult p n <> NeverSettles)
  /\ (forall n, recognitionResult p n <> NeverSettles).

(** On such a page the computation ends (and leaves the page's answers
    alone). *)
Definition live {A} (m : M A) : Prop :=
  forall w, settling (page w) ->
            fst (m w) <> Suspended /\ page (snd (m w)) = page w.

(** A page where all three services answer: the transcript, a generated
    text that is kept, and audio that decodes. *)
Definition servedPage (transcript : JSValue) : Page :=
  mkPage true false false false
    (fun n =>
       match n with
       | 0 => Resolved (mkResponse 200
                          (Some (VObj [("text", transcript)])) (Some []))
       | 1 => Resolved (mkResponse 200 (Some longBody) (Some []))
       | _ => Resolved (mkResponse 200 None (Some [82; 73; 70; 70]))
       end)
    (fun _ => half)
    (fun _ => Rejected (RecognitionError "no-speech"))
    (fun _ => Rejected (DOMException "NotAllowedError"))
    (fun _ => true)
    (fun _ => false)
    (fun _ => false).

Definition servedWorld (transcript : JSValue) : World :=
  mkWorld constructed fullDom [] [] (servedPage transcript).

(** ** Replies *)

Definition isString (v : JSValue) : bool :=
  match v with VStr _ => true | _ => false end.

(** Some serious topic occurs in the message, in some letter case. *)
Definition serious (message : string) : Prop :=
  exists topic, In topic seriousTopics /\ containsIgnoringCase topic message.

(** The same test as [enhanceResponse] runs it. *)
Definition seriousb (lowerMessage : string) : bool :=
  existsb (fun topic => includes topic lowerMessage) seriousTopics.

(** The text ends in a full stop, an exclamation mark or a question mark. *)
Definition terminal (s : string) : bool :=
  endsWith "." s || endsWith "!" s || endsWith "?" s.

(** The world right after [generateAIResponse] sent its request. *)
Definition afterGenerationRequest (message : JSValue) (w : World) : World :=
  setTrace (trace w ++ [EFetch (generationRequest message w)]) w.

(** ** Speech output *)

Definition ttsRequest (text : JSValue) (w : World) : Request :=
  mkRequest (hfBaseUrl ++ "/" ++ model_textToSpeech)%string
    (bearer (hfApiKey (this w))) true (InputsBody text).

Definition isSpeak (e : Event) : bool :=
  match e with ESpeak _ _ => true | _ => false end.

Definition isPlay (e : Event) : bool :=
  match e with EPlay _ => true | _ => false end.

(** [playAudioBuffer] can play: there is an audio context to use and the
    bytes decode. *)
Definition playable (audio : Blob) (w : World) : bool :=
  (audioContext (this w) || hasAudioContext (page w))
  && decodable (page w) audio.

(** The playback indicator, if the page has one, shows the playing flag. *)
Definition playbackInSync (w : World) : Prop :=
  match dom w playbackIndicator with
  | Some e =>
      display e = if isPlaying (this w) then "inline-block" else "none"
  | None => True
  end.

(** A page with no network that can synthesize speech. *)
Definition speakingPage : Page :=
  mkPage true false true false
    (fun _ => Rejected NetworkError)
    (fun _ => half)
    (fun _ => Rejected (RecognitionError "no-speech"))
    (fun _ => Rejected (DOMException "NotAllowedError"))
    (fun _ => false)
    (fun _ => false)
    (fun _ => false).

Definition speakingWorld : World :=
  mkWorld constructed fullDom [] [] speakingPage.

(** A page that answers every request 200 with bytes that do not decode,
    and that could synthesize speech. *)
Definition garbledPage : Page :=
  mkPage true false true false
    (fun _ => Resolved (mkResponse 200 None (Some [0; 0])))
    (fun _ => half)
    (fun _ => Rejected (RecognitionError "no-speech"))
    (fun _ => Rejected (DOMException "NotAllowedError"))
    (fun _ => false)
    (fun _ => false)
    (fun _ => false).

Definition garbledWorld : World :=
  mkWorld constructed fullDom [] [] garbledPage.

(** A page that answers every request 200 with a body that breaks off
    while it is read, and that could synthesize speech. *)
Definition truncatedPage : Page :=
  mkPage true false true false
    (fun _ => Resolved (mkResponse 200 None None))
    (fun _ => half)
    (fun _ => Rejected (RecognitionError "no-speech"))
    (fun _ => Rejected (DOMException "NotAllowedError"))
    (fun _ => true)
    (fun _ => false)
    (fun _ => false).

Definition truncatedWorld : World :=
  mkWorld constructed fullDom [] [] truncatedPage.

(** ** What a method leaves alone *)

(** The method takes every world to one related to it by [R], however it
    ends. *)
Definition keeps (R : World -> World -> Prop) {A} (m : M A) : Prop :=
  forall w, R w (snd (m w)).

(** What the text entry point may do to its surroundings: log, call the
    page's [addMessage], schedule the banner's timeout, draw a random
    number, and send a request to the text-generation model. *)
Definition textEvent (e : Event) : bool :=
  match e with
  | EFetch r => String.eqb (url r) (hfBaseUrl ++ "/" ++ model_textGeneration)
  | EConsole _ | EHostAddMessage _ _ | ETimeout _ | ERandom => true
  | _ => false
  end.

(** [w'] comes from [w] by events of the kind [allowed] only. *)
Definition extendsBy (allowed : Event -> bool) (w w' : World) : Prop :=
  exists added,
    trace w' = (trace w ++ added)%list /\ forallb allowed added = true.

Definition textOnly (w w' : World) : Prop :=
  this w' = this w /\ recorders w' = recorders w
  /\ extendsBy textEvent w w'.

(** What the voice pipeline may do outside: anything but start or stop a
    recorder or ask for the microphone, and requests only to the three
    models. *)
Definition pipelineEvent (e : Event) : bool :=
  match e with
  | EFetch r =>
      existsb (String.eqb (url r))
        [ (hfBaseUrl ++ "/" ++ model_speechToText)%string;
          (hfBaseUrl ++ "/" ++ model_textGeneration)%string;
          (hfBaseUrl ++ "/" ++ model_textToSpeech)%string ]
  | ERecorderStart _ | ERecorderStop _ | EGetUserMedia => false
  | _ => true
  end.

Definition recordingUntouched (w w' : World) : Prop :=
  set_isPlaying false (this w') = set_isPlaying false (this w)
  /\ recorders w' = recorders w
  /\ extendsBy pipelineEvent w w'.

(** The transcript container stays (or stays absent) and its messages
    are still there, in order, before whatever was added. *)
Definition transcriptGrows (w w' : World) : Prop :=
  match dom w chatMessages with
  | Some e =>
      exists e' added,
        dom w' chatMessages = Some e'
        /\ children e' = (children e ++ added)%list
  | None => dom w' chatMessages = None
  end.

Definition staysInSync (w w' : World) : Prop :=
  playbackInSync w -> playbackInSync w'.

(** A page whose elements all start hidden, served as [servedPage]. *)
Definition hiddenDom : DOM := fun _ => Some (set_display "none" blankElement).

Definition quietWorld : World :=
  mkWorld constructed hiddenDom [] [] (servedPage (VStr "I feel anxious")).

(** ** Recording *)

(** The three recording controls, where the page has them, show the
    listening flag. *)
Definition voiceUIInSync (w : World) : Prop :=
  let listening := isListening (this w) in
  let shown := if listening then "inline-block" else "none" in
  match dom w voiceBtn with
  | Some e => disabled e = listening /\ listeningClass e = listening
  | None => True
  end
  /\ match dom w stopVoiceBtn with
     | Some e => display e = shown
     | None => True
     end
  /\ match dom w voiceIndicator with
     | Some e => display e = shown
     | None => True
     end.

(** The page after [updateVoiceUI listening]. *)
Definition voiceUI (listening : bool) (d : DOM) : DOM :=
  updateElement voiceIndicator
    (set_display (if listening then "inline-block" else "none"))
    (updateElement stopVoiceBtn
       (set_display (if listening then "inline-block" else "none"))
       (updateElement voiceBtn
          (fun e => set_listeningClass listening (set_disabled listening e))
          d)).

(** The recorders once recorder [id] was told to stop. *)
Definition stopped (id : nat) (rs : list bool) : list bool :=
  if nth id rs false then setNth id false rs else rs.

Definition isRecorderStop (e : Event) : bool :=
  match e with ERecorderStop _ => true | _ => false end.

(** A world with a granted stream and nothing recording. *)
Definition readyWorld : World :=
  mkWorld
    (mkController false false None [] "en" None (Some 7) true 0)
    hiddenDom [] [] offlinePage.

Definition keepsVoiceUI (w w' : World) : Prop :=
  voiceUIInSync w -> voiceUIInSync w'.

(** The banner element once [showError message] ran, if the page has it. *)
Definition bannerWith (message : string) (w : World) : option Element :=
  option_map (fun e => set_display "block" (set_textContent message e))
    (dom w voiceError).

Definition sameOverrides (w w' : World) : Prop :=
  overrides (this w') = overrides (this w).

(** A page that grants the microphone. *)
Definition grantingPage : Page :=
  mkPage true false false false
    (fun _ => Rejected NetworkError)
    (fun _ => half)
    (fun _ => Rejected (RecognitionError "no-speech"))
    (fun _ => Resolved 7)
    (fun _ => false)
    (fun _ => false)
    (fun _ => false).

Definition grantingWorld : World :=
  mkWorld constructed fullDom [] [] grantingPage.

(** A world that holds a stream which has ended since: recorders can be
    made on it, but none of them starts.  One old chunk is buffered. *)
Definition endedPage : Page :=
  mkPage true false false false
    (fun _ => Rejected NetworkError)
    (fun _ => half)
    (fun _ => Rejected (RecognitionError "no-speech"))
    (fun _ => Rejected (DOMException "NotAllowedError"))
    (fun _ => false)
    (fun _ => false)
    (fun _ => true).

Definition endedWorld : World :=
  mkWorld
    (mkController false false None [[9]] "en" None (Some 7) true 0)
    hiddenDom [] [] endedPage.

(** A world whose flag says listening while its recorder has stopped. *)
Definition staleWorld : World :=
  mkWorld
    (mkController true false (Some 0) [[1; 2]] "en" None (Some 7) true 0)
    (voiceUI true hiddenDom) [false] [] offlinePage.

(** ** Voice to text only *)

(** What the transcription-only override may do outside. *)
Definition transcribeEvent (e : Event) : bool :=
  match e with
  | EFetch r => String.eqb (url r) (hfBaseUrl ++ "/" ++ model_speechToText)
  | EConsole _ | ERecognitionStart _ | ETimeout _ => true
  | _ => false
  end.

Definition transcribing (w w' : World) : Prop :=
  transcriptEntries w' = transcriptEntries w
  /\ extendsBy transcribeEvent w w'.

(** The buffer and the API key are as they were. *)
Definition sameAudio (a b : World) : Prop :=
  audioChunks (this b) = audioChunks (this a)
  /\ hfApiKey (this b) = hfApiKey (this a).

(** The trace only grows. *)
Definition grows (w w' : World) : Prop := extendsBy (fun _ => true) w w'.

(** A page whose own [addMessage] always throws. *)
Definition hostilePage : Page :=
  mkPage true false false true
    (fun _ => Rejected NetworkError)
    (fun _ => half)
    (fun _ => Rejected (RecognitionError "no-speech"))
    (fun _ => Rejected (DOMException "NotAllowedError"))
    (fun _ => false)
    (fun _ => true)
    (fun _ => false).

Definition hostileWorld : World :=
  mkWorld constructed fullDom [] [] hostilePage.

(** ** Rejections and requests *)

(** The method never ends by throwing. *)
Definition neverThrows {A} (m : M A) : Prop :=
  forall w e, fst (m w) <> Throw e.

(** No request is sent. *)
Definition noFetch (w w' : World) : Prop :=
  count isFetch (trace w') = count isFetch (trace w).

(** At most [n] requests are sent. *)
Definition spends (n : nat) {A} (m : M A) : Prop :=
  forall w, count isFetch (trace w) <= count isFetch (trace (snd (m w)))
            /\ count isFetch (trace (snd (m w)))
               <= count isFetch (trace w) + n.

(** ** The prompt, echoed *)

(** The prompt template up to the user message, without its first line. *)
Definition promptAfterFirstLine : string :=
"
        You provide compassionate, understanding responses while encouraging professional help when needed.
        
        User: ".

(** * Properties *)

(** Runs the monad's plumbing, leaving the tests on what the page and the
    network answer. *)
Ltac run :=
  cbv beta iota zeta delta
    [bind ret throw tryCatch await gets modify when emit console modifyThis
     withElement fetch json mathRandom prop index0 callTrim callToLowerCase
     toStringOf createMentalHealthPrompt arrayBuffer
     setTrace setThis setDom setRecorders updateElement];
  cbn [trace this dom page recorders convertible].

(** ** Strings *)

Section StringFacts.

Lemma startsWith_app (p s : string) :
  startsWith p (p ++ s) = true.
Proof.
  induction p as [|c p IH]; simpl; [reflexivity|].
  now rewrite Ascii.eqb_refl, IH.
Qed.

Lemma startsWith_inv (p s : string) :
  startsWith p s = true -> exists post, s = (p ++ post)%string.
Proof.
  revert s; induction p as [|c p IH]; intros s H.
  - now exists s.
  - destruct s as [|d s]; simpl in H; [discriminate|].
    apply andb_prop in H as [Hc Hp].
    apply Ascii.eqb_eq in Hc; subst d.
    destruct (IH _ Hp) as [post ->].
    now exists post.
Qed.

Lemma includes_here (p s : string) :
  startsWith p s = true -> includes p s = true.
Proof. intros H. destruct s; simpl; now rewrite H. Qed.

Lemma includes_iff (p s : string) :
  includes p s = true <-> exists pre post, s = (pre ++ p ++ post)%string.
Proof.
  split.
  - induction s as [|c s IH]; simpl; intros H.
    + rewrite orb_false_r in H.
      destruct (startsWith_inv _ _ H) as [post E].
      now exists "", post.
    + apply orb_prop in H as [H|H].
      * destruct (startsWith_inv _ _ H) as [post E].
        now exists "", post.
      * destruct (IH H) as (pre & post & ->).
        now exists (String c pre), post.
  - intros (pre & post & ->).
    induction pre as [|c pre IH]; simpl.
    + apply includes_here, startsWith_app.
    + simpl in IH. rewrite IH. apply orb_true_r.
Qed.

Lemma toLowerCase_app (a b : string) :
  toLowerCase (a ++ b) = (toLowerCase a ++ toLowerCase b)%string.
Proof. induction a as [|c a IH]; simpl; [reflexivity|now rewrite IH]. Qed.

Lemma toLowerCase_split (s a b : string) :
  toLowerCase s = (a ++ b)%string ->
  exists a' b', s = (a' ++ b')%string
                /\ toLowerCase a' = a /\ toLowerCase b' = b.
Proof.
  revert s; induction a as [|c a IH]; intros s H.
  - now exists "", s.
  - destruct s as [|d s]; simpl in H; [discriminate|].
    injection H as Hc Hs.
    destruct (IH _ Hs) as (a' & b' & -> & Ha & Hb).
    exists (String d a'), b'. simpl. now rewrite Hc, Ha.
Qed.

(** The test the code runs, [lower.includes(kw)] on the lowered message,
    is the case-insensitive substring test. *)
Lemma includes_lower_iff (kw message : string) :
  includes kw (toLowerCase message) = true
  <-> containsIgnoringCase kw message.
Proof.
  rewrite includes_iff. split.
  - intros (pre & post & H).
    apply toLowerCase_split in H as (pre' & rest & -> & _ & H).
    apply toLowerCase_split in H as (mid & post' & -> & H & _).
    now exists pre', mid, post'.
  - intros (pre & mid & post & -> & <-).
    exists (toLowerCase pre), (toLowerCase post).
    now rewrite !toLowerCase_app.
Qed.

Lemma substring_all (p : string) : substring 0 (String.length p) p = p.
Proof. induction p as [|c p IH]; simpl; [reflexivity|now rewrite IH]. Qed.

Lemma substring_skip (a p : string) :
  substring (String.length a) (String.length p) (a ++ p) = p.
Proof. induction a as [|c a IH]; simpl; [apply substring_all|exact IH]. Qed.

Lemma string_length_app (a b : string) :
  String.length (a ++ b) = String.length a + String.length b.
Proof. induction a as [|c a IH]; simpl; [reflexivity|now rewrite IH]. Qed.

Lemma endsWith_app (a p : string) : endsWith p (a ++ p) = true.
Proof.
  unfold endsWith. rewrite string_length_app.
  replace (String.length a + String.length p - String.length p)
    with (String.length a) by lia.
  rewrite substring_skip, String.eqb_refl, andb_true_r.
  apply Nat.leb_le. lia.
Qed.

Lemma trimStart_allWhiteSpace (s : string) :
  allWhiteSpace s = true -> trimStart s = "".
Proof.
  induction s as [|c s IH]; simpl; [reflexivity|].
  intros H. apply andb_prop in H as [Hc Hs]. now rewrite Hc, IH.
Qed.

Lemma trim_allWhiteSpace (s : string) :
  allWhiteSpace s = true -> trim s = "".
Proof. intros H. unfold trim. now rewrite trimStart_allWhiteSpace. Qed.

Example trim_both_ends : trim "  hi there  " = "hi there".
Proof. reflexivity. Qed.

Example toLowerCase_mixed : toLowerCase "SuiCide-42" = "suicide-42".
Proof. reflexivity. Qed.

End StringFacts.

(** ** The fallback table *)

Section Fallback.

Lemma mentions_iff (c : Category) (message : string) :
  mentions c message <-> mentionsb c (toLowerCase message) = true.
Proof.
  unfold mentions, mentionsb. rewrite existsb_exists.
  split; intros (kw & Hin & H); exists kw; split; trivial;
    now apply includes_lower_iff.
Qed.

Lemma categoryOf_chain (l : string) :
  categoryOf l =
    if mentionsb anxiety l then anxiety
    else if mentionsb stress l then stress
    else if mentionsb depression l then depression
    else default.
Proof.
  unfold categoryOf, mentionsb; simpl. now rewrite !orb_false_r, !orb_assoc.
Qed.

Lemma categoryOf_classified (message : string) :
  classified message (categoryOf (toLowerCase message)).
Proof.
  rewrite categoryOf_chain.
  destruct (mentionsb anxiety _) eqn:Ha;
    [now apply mentions_iff|].
  destruct (mentionsb stress _) eqn:Hs.
  { split; [rewrite mentions_iff; congruence | now apply mentions_iff]. }
  destruct (mentionsb depression _) eqn:Hd; simpl;
    rewrite !mentions_iff; repeat split; congruence.
Qed.

Lemma classified_unique (message : string) (c d : Category) :
  classified message c -> classified message d -> c = d.
Proof. destruct c, d; simpl; tauto. Qed.

Lemma responses_length (c : Category) : List.length (responses c) = 3.
Proof. now destruct c. Qed.

Lemma floorTimes_lt (r : UnitInterval) (n : nat) :
  0 < n -> floorTimes r n < n.
Proof.
  intros Hn. unfold floorTimes.
  pose proof (below_one r) as H. apply Nat.ltb_lt in H.
  apply Nat.Div0.div_lt_upper_bound. nia.
Qed.

Lemma index_in (l : list string) (i : nat) :
  i < List.length l -> exists s, index l i = VStr s /\ In s l.
Proof.
  intros H. unfold index.
  destruct (nth_error l i) as [s|] eqn:E.
  - exists s. split; [reflexivity|]. eapply nth_error_In; eauto.
  - apply nth_error_None in E. lia.
Qed.

(** One call on a string message: one draw, one string of the category's
    list, nothing thrown. *)
Lemma getFallbackResponse_string (message : string) (w : World) :
  exists s,
    In s (responses (categoryOf (toLowerCase message)))
    /\ getFallbackResponse (VStr message) w
       = (Normal (VStr s), setTrace (trace w ++ [ERandom]) w).
Proof.
  set (c := categoryOf (toLowerCase message)).
  destruct (index_in (responses c)
              (floorTimes (randomDraw (page w) (count isRandom (trace w)))
                          (List.length (responses c)))) as (s & E & Hin).
  { apply floorTimes_lt. rewrite responses_length. lia. }
  exists s. split; [exact Hin|].
  unfold getFallbackResponse, bind, callToLowerCase, mathRandom, bind, gets,
    emit, modify, ret; simpl.
  fold c. now rewrite E.
Qed.

Lemma responses_in_table (c : Category) (s : string) :
  In s (responses c) -> In s fallbackTable.
Proof.
  unfold fallbackTable. rewrite !in_app_iff. destruct c; tauto.
Qed.

Lemma fallbackTable_long (s : string) :
  In s fallbackTable -> 20 <= String.length s.
Proof.
  unfold fallbackTable; simpl.
  intros H;
    repeat (destruct H as [<-|H]; [vm_compute; lia|]); contradiction.
Qed.

End Fallback.

(** C4: the category [getFallbackResponse] picks is the first match in the
    order anxiety, stress, depression, default, by case-insensitive
    substring tests; every message has exactly one; the category's list has
    three strings and the answer is one of them. *)
Theorem getFallbackResponse_first_match (message : string) (w : World) :
  let category := categoryOf (toLowerCase message) in
  classified message category
  /\ (forall c, classified message c -> c = category)
  /\ List.length (responses category) = 3
  /\ exists s, In s (responses category)
               /\ fst (getFallbackResponse (VStr message) w)
                  = Normal (VStr s).
Proof.
  intros category. repeat split.
  - apply categoryOf_classified.
  - intros c Hc.
    exact (classified_unique message _ _ Hc (categoryOf_classified message)).
  - apply responses_length.
  - destruct (getFallbackResponse_string message w) as (s & Hin & E).
    exists s. split; [exact Hin|]. now rewrite E.
Qed.

(** ** Response generation *)

Section Generation.

(** *** The prompt-line pattern, line by line *)

Lemma startsWith_line (m l rest : string) (c : ascii) :
  oneLine m = true -> isLineTerminator c = true ->
  startsWith m (l ++ String c rest) = startsWith m l.
Proof.
  intros Hm Hc. revert l; induction m as [|a m IH]; intros l.
  - now destruct l.
  - simpl in Hm. apply andb_prop in Hm as [Ha Hm].
    destruct l as [|b l]; simpl.
    + destruct (Ascii.eqb a c) eqn:E; [|reflexivity].
      apply Ascii.eqb_eq in E. subst a. now rewrite Hc in Ha.
    + now rewrite IH.
Qed.

Lemma promptMarker_line (l rest : string) (c : ascii) :
  isLineTerminator c = true ->
  promptMarker (l ++ String c rest) = promptMarker l.
Proof.
  intros Hc. unfold promptMarker.
  now rewrite !startsWith_line by (trivial; reflexivity).
Qed.

Lemma removeFrom_InLine (l rest : string) (c : ascii) :
  oneLine l = true -> isLineTerminator c = true ->
  removeFrom InLine (l ++ String c rest)
  = (l ++ String c (removeFrom LineStart rest))%string.
Proof.
  intros Hl Hc. induction l as [|b l IH]; simpl.
  - now rewrite Hc.
  - simpl in Hl. apply andb_prop in Hl as [Hb Hl].
    apply negb_true_iff in Hb. now rewrite Hb, IH.
Qed.

Lemma removeFrom_Dropping (l rest : string) (c : ascii) :
  oneLine l = true -> isLineTerminator c = true ->
  removeFrom Dropping (l ++ String c rest)
  = String c (removeFrom LineStart rest).
Proof.
  intros Hl Hc. induction l as [|b l IH]; simpl.
  - now rewrite Hc.
  - simpl in Hl. apply andb_prop in Hl as [Hb Hl].
    apply negb_true_iff in Hb. now rewrite Hb, IH.
Qed.

(** A line that begins with a marker goes, its terminator stays, and the
    next line is looked at afresh. *)
Lemma removePromptRepetition_line (l rest : string) (c : ascii) :
  oneLine l = true -> isLineTerminator c = true ->
  removePromptRepetition (l ++ String c rest)
  = ((if promptMarker l then "" else l)
       ++ String c (removePromptRepetition rest))%string.
Proof.
  intros Hl Hc. unfold removePromptRepetition.
  destruct l as [|b l].
  - pose proof (promptMarker_line "" rest c Hc) as E.
    cbn [append] in E. cbn [append removeFrom].
    rewrite E, Hc. reflexivity.
  - pose proof (promptMarker_line (String b l) rest c Hc) as E.
    cbn [append] in E. cbn [append removeFrom]. rewrite E.
    simpl in Hl. apply andb_prop in Hl as [Hb Hl].
    apply negb_true_iff in Hb.
    destruct (promptMarker (String b l)).
    + now rewrite removeFrom_Dropping.
    + now rewrite Hb, removeFrom_InLine.
Qed.

Lemma removeFrom_last (l : string) :
  oneLine l = true ->
  removeFrom InLine l = l /\ removeFrom Dropping l = "".
Proof.
  induction l as [|b l IH]; simpl; [now split|].
  intros Hl. apply andb_prop in Hl as [Hb Hl].
  apply negb_true_iff in Hb. rewrite Hb.
  destruct (IH Hl) as [-> ->]. now split.
Qed.

Lemma removePromptRepetition_last (l : string) :
  oneLine l = true ->
  removePromptRepetition l = if promptMarker l then "" else l.
Proof.
  intros Hl. unfold removePromptRepetition.
  destruct l as [|b l]; [reflexivity|].
  cbn [removeFrom]. simpl in Hl. apply andb_prop in Hl as [Hb Hl].
  apply negb_true_iff in Hb. rewrite Hb.
  destruct (removeFrom_last l Hl) as [-> ->].
  now destruct (promptMarker (String b l)).
Qed.

Example removePromptRepetition_lines :
  removePromptRepetition
    (String "U" (String "s" (String "e" (String "r" (String ":"
      (String " " (String "x" (String (ascii_of_nat 10)
      (String "o" (String "k" EmptyString))))))))))
  = String (ascii_of_nat 10) (String "o" (String "k" EmptyString)).
Proof. reflexivity. Qed.

Example removePromptRepetition_inner :
  removePromptRepetition "I said User: hello" = "I said User: hello".
Proof. reflexivity. Qed.

Lemma generateAIResponse_failed (message : string) (w : World) :
  remoteFails (nextFetch w) ->
  generateAIResponse (VStr message) w
  = getFallbackResponse (VStr message)
      (afterFailedGeneration (VStr message) w).
Proof.
  unfold remoteFails, nextFetch. intros H.
  unfold generateAIResponse, afterFailedGeneration, generationRequest. run.
  destruct (fetchResult _ _) as [r|e|]; [|reflexivity|contradiction].
  rewrite H. reflexivity.
Qed.

(** C3: when the remote generation call fails, [generateAIResponse]
    returns normally, with a string of the fallback table. *)
Theorem generateAIResponse_absorbs_failure (message : string) (w : World) :
  remoteFails (nextFetch w) ->
  exists s w',
    generateAIResponse (VStr message) w = (Normal (VStr s), w')
    /\ In s fallbackTable.
Proof.
  intros H. rewrite (generateAIResponse_failed _ _ H).
  destruct (getFallbackResponse_string message
              (afterFailedGeneration (VStr message) w)) as (s & Hin & E).
  exists s. eexists. split; [exact E|].
  eapply responses_in_table; eauto.
Qed.

Lemma generateAIResponse_absorbs_failure_witness :
  remoteFails (nextFetch offlineWorld)
  /\ exists s w',
       generateAIResponse (VStr "I feel anxious") offlineWorld
       = (Normal (VStr s), w')
       /\ In s fallbackTable.
Proof.
  split; [exact I|].
  apply (generateAIResponse_absorbs_failure "I feel anxious" offlineWorld).
  exact I.
Defined.

Lemma enhanceResponse_short (aiResponse : string) (userMessage : JSValue) :
  String.length (trim (removePromptRepetition aiResponse)) < 20 ->
  enhanceResponse aiResponse userMessage = getFallbackResponse userMessage.
Proof.
  intros H. unfold enhanceResponse.
  apply Nat.ltb_lt in H. now rewrite H.
Qed.

(** C2: a 2xx answer whose generated text, once cleaned, has fewer than 20
    units makes [generateAIResponse] return a string of the fallback
    table, which is never that cleaned text. *)
Theorem generateAIResponse_short_output
    (message raw : string) (result : JSValue) (r : Response) (w : World) :
  nextFetch w = Resolved r ->
  ok r = true ->
  jsonBody r = Some result ->
  (forall w0, extractGenerated result w0 = (Normal (VStr raw), w0)) ->
  String.length (cleaned raw) < 20 ->
  exists s w',
    generateAIResponse (VStr message) w = (Normal (VStr s), w')
    /\ In s fallbackTable
    /\ s <> cleaned raw.
Proof.
  unfold nextFetch, cleaned. intros Hf Hok Hj Hx Hlen.
  destruct (getFallbackResponse_string message
              (setTrace (trace w ++ [EFetch (generationRequest (VStr message) w)]) w))
    as (s & Hin & E).
  exists s. eexists. repeat split.
  - unfold generateAIResponse. run. rewrite Hf, Hok. cbn [negb]. rewrite Hj.
    rewrite Hx, (enhanceResponse_short _ _ Hlen).
    unfold generationRequest, setTrace in E.
    cbn [trace this dom page recorders] in E. rewrite E.
    apply responses_in_table, fallbackTable_long in Hin.
    destruct s; [simpl in Hin; lia|]. reflexivity.
  - eapply responses_in_table; eauto.
  - intros ->. apply responses_in_table, fallbackTable_long in Hin. lia.
Qed.

Lemma generateAIResponse_short_output_witness :
  let w := answeringWorld shortBody in
  let r := mkResponse 200 (Some shortBody) (Some []) in
  nextFetch w = Resolved r
  /\ ok r = true
  /\ jsonBody r = Some shortBody
  /\ (forall w0, extractGenerated shortBody w0 = (Normal (VStr shortRaw), w0))
  /\ String.length (cleaned shortRaw) < 20
  /\ exists s w',
       generateAIResponse (VStr "hello") w = (Normal (VStr s), w')
       /\ In s fallbackTable
       /\ s <> cleaned shortRaw.
Proof.
  cbv zeta.
  assert (Hx : forall w0,
             extractGenerated shortBody w0 = (Normal (VStr shortRaw), w0))
    by (intros w0; reflexivity).
  assert (Hlen : String.length (cleaned shortRaw) < 20)
    by (vm_compute; lia).
  repeat split; trivial.
  exact (generateAIResponse_short_output "hello" shortRaw shortBody
           (mkResponse 200 (Some shortBody) (Some [])) (answeringWorld shortBody)
           eq_refl eq_refl eq_refl Hx Hlen).
Defined.

Example cleaned_shortRaw : cleaned shortRaw = "I see.".
Proof. reflexivity. Qed.

(** The serious-topic test on a string message. *)
Lemma serious_suicide (message : string) (w : World) :
  containsIgnoringCase "suicide" message ->
  some (fun topic =>
          lower <- callToLowerCase (VStr message) ;;
          ret (includes topic lower)) seriousTopics w
  = (Normal true, w).
Proof.
  intros H. apply includes_lower_iff in H.
  unfold seriousTopics. cbn [some]. run. now rewrite H.
Qed.

(** On the path where the remote text is kept, a message that mentions
    suicide gets the crisis sentence, once, at the end. *)
Lemma enhanceResponse_crisis (aiResponse message : string) (w : World) :
  20 <= String.length (trim (removePromptRepetition aiResponse)) ->
  containsIgnoringCase "suicide" message ->
  enhanceResponse aiResponse (VStr message) w
  = (Normal (VStr (punctuated (trim (removePromptRepetition aiResponse))
                     ++ crisisSentence)), w).
Proof.
  intros Hlen Hs. unfold enhanceResponse.
  destruct (_ <? 20) eqn:E; [apply Nat.ltb_lt in E; lia|].
  unfold bind. rewrite (serious_suicide _ _ Hs). reflexivity.
Qed.

Lemma generateAIResponse_crisis_when_kept
    (message raw : string) (result : JSValue) (r : Response) (w : World) :
  nextFetch w = Resolved r ->
  ok r = true ->
  jsonBody r = Some result ->
  (forall w0, extractGenerated result w0 = (Normal (VStr raw), w0)) ->
  20 <= String.length (cleaned raw) ->
  containsIgnoringCase "suicide" message ->
  exists s w',
    generateAIResponse (VStr message) w = (Normal (VStr s), w')
    /\ s = (punctuated (cleaned raw) ++ crisisSentence)%string
    /\ endsWith crisisSentence s = true.
Proof.
  unfold nextFetch, cleaned. intros Hf Hok Hj Hx Hlen Hs.
  eexists. eexists. split; [|split; [reflexivity|apply endsWith_app]].
  unfold generateAIResponse. run. rewrite Hf, Hok. cbn [negb]. rewrite Hj.
  rewrite Hx, (enhanceResponse_crisis _ _ _ Hlen Hs).
  cbn [truthy].
  destruct (punctuated _ ++ crisisSentence)%string eqn:E; [|reflexivity].
  exfalso. unfold crisisSentence in E.
  destruct (punctuated _); discriminate E.
Qed.

Lemma fallbackTable_no_crisis (s : string) :
  In s fallbackTable -> endsWith crisisSentence s = false.
Proof.
  unfold fallbackTable; simpl.
  intros H;
    repeat (destruct H as [<-|H]; [vm_compute; reflexivity|]); contradiction.
Qed.

(** When the remote call fails, the answer never carries the crisis
    sentence, whatever the message says. *)
Lemma generateAIResponse_failed_no_crisis (message : string) (w : World) :
  remoteFails (nextFetch w) ->
  exists s w',
    generateAIResponse (VStr message) w = (Normal (VStr s), w')
    /\ endsWith crisisSentence s = false.
Proof.
  intros H. rewrite (generateAIResponse_failed _ _ H).
  destruct (getFallbackResponse_string message
              (afterFailedGeneration (VStr message) w)) as (s & Hin & E).
  exists s. eexists. split; [exact E|].
  eapply fallbackTable_no_crisis, responses_in_table; eauto.
Qed.

(** C1, at a failing input: the message mentions suicide and the network
    is down; the answer is a default fallback string and does not end with
    the crisis sentence. *)
Theorem generateAIResponse_suicide_offline :
  containsIgnoringCase "suicide" "I keep thinking about Suicide"
  /\ remoteFails (nextFetch offlineWorld)
  /\ fst (generateAIResponse (VStr "I keep thinking about Suicide")
            offlineWorld)
     = Normal (VStr "It sounds like you're going through something challenging. I'm here to help however I can.")
  /\ endsWith crisisSentence
       "It sounds like you're going through something challenging. I'm here to help however I can."
     = false.
Proof.
  split; [|split; [exact I|split; reflexivity]].
  now exists "I keep thinking about ", "Suicide", "".
Qed.

(** The same message with a remote answer too short to keep. *)
Example generateAIResponse_suicide_short :
  fst (generateAIResponse (VStr "I keep thinking about Suicide")
         (answeringWorld shortBody))
  = Normal (VStr "It sounds like you're going through something challenging. I'm here to help however I can.").
Proof. reflexivity. Qed.

(** And with a remote answer that is kept. *)
Example generateAIResponse_suicide_kept :
  fst (generateAIResponse (VStr "I keep thinking about Suicide")
         (answeringWorld longBody))
  = Normal (VStr ("That sounds really hard, thank you for telling me."
                  ++ crisisSentence)).
Proof. reflexivity. Qed.

End Generation.

(** ** Speech to text *)

Section Transcription.

Lemma extractTranscript_run (body : JSValue) (w : World) :
  body <> VNull -> body <> VUndefined ->
  extractTranscript body w
  = (Normal
       (if truthy (fieldOf "text" body) then fieldOf "text" body
        else if truthy (elem0 body) && truthy (fieldOf "text" (elem0 body))
             then fieldOf "text" (elem0 body)
             else VStr ""), w).
Proof.
  intros Hn Hu. unfold extractTranscript, fieldOf, elem0. run.
  destruct (getProp body "text") as [t|] eqn:Et;
    [|destruct body; try discriminate Et; congruence].
  destruct (truthy t) eqn:Tt; [reflexivity|].
  destruct (getIndex0 body) as [f|] eqn:Ef;
    [|destruct body as [| | | |[|]| |]; try discriminate Ef; congruence].
  destruct (truthy f) eqn:Tf; cbn [andb].
  - destruct (getProp f "text") as [x|] eqn:Ex;
      [|destruct f; discriminate].
    unfold orElse. now destruct (truthy x).
  - unfold orElse. now rewrite Tf.
Qed.

Lemma speechToText_answered
    (audioBlob : Blob) (body : JSValue) (r : Response) (w : World) :
  nextFetch w = Resolved r ->
  ok r = true ->
  jsonBody r = Some body ->
  speechToText audioBlob w
  = tryCatch (extractTranscript body)
      (fun error =>
         console "Speech to text error:" ;;
         recognizer <- gets (fun w => hasSpeechRecognition (page w)) ;;
         if recognizer then fallbackSpeechToText else throw error)
      (setTrace (trace w ++ [EFetch (sttRequest audioBlob w)]) w).
Proof.
  unfold nextFetch. intros Hf Hok Hj.
  unfold speechToText, sttRequest. run. rewrite Hf, Hok. cbn [negb].
  now rewrite Hj.
Qed.

(** C8, as the code has it: for a JSON body other than [null],
    [speechToText] returns the top-level text field when that is truthy;
    else the text field of what sits at index 0 (of a list or string, or
    under the key "0" of an object) when both are truthy; else the empty
    string.  None of these is handled as an error: the method returns
    normally, having done nothing but the request. *)
Theorem speechToText_extraction
    (audioBlob : Blob) (body : JSValue) (r : Response) (w : World) :
  nextFetch w = Resolved r ->
  ok r = true ->
  jsonBody r = Some body ->
  body <> VNull -> body <> VUndefined ->
  exists v,
    speechToText audioBlob w
    = (Normal v, setTrace (trace w ++ [EFetch (sttRequest audioBlob w)]) w)
    /\ (truthy (fieldOf "text" body) = true -> v = fieldOf "text" body)
    /\ (truthy (fieldOf "text" body) = false ->
        truthy (elem0 body) = true ->
        truthy (fieldOf "text" (elem0 body)) = true ->
        v = fieldOf "text" (elem0 body))
    /\ (truthy (fieldOf "text" body) = false ->
        truthy (elem0 body) = false
        \/ truthy (fieldOf "text" (elem0 body)) = false ->
        v = VStr "").
Proof.
  intros Hf Hok Hj Hn Hu.
  rewrite (speechToText_answered _ _ _ _ Hf Hok Hj).
  unfold tryCatch. rewrite (extractTranscript_run _ _ Hn Hu).
  eexists. split; [reflexivity|].
  destruct (truthy (fieldOf "text" body)); repeat split;
    try discriminate; intros _.
  - intros -> ->. reflexivity.
  - intros [->| ->]; [reflexivity|]. now rewrite andb_false_r.
Qed.

Lemma speechToText_extraction_witness :
  let body := VArr [VObj [("text", VStr "I feel anxious")]] in
  let w := answeringWorld body in
  let r := mkResponse 200 (Some body) (Some []) in
  nextFetch w = Resolved r
  /\ ok r = true
  /\ jsonBody r = Some body
  /\ body <> VNull /\ body <> VUndefined
  /\ exists v,
       speechToText [1; 2; 3] w
       = (Normal v, setTrace (trace w ++ [EFetch (sttRequest [1; 2; 3] w)]) w)
       /\ (truthy (fieldOf "text" body) = true -> v = fieldOf "text" body)
       /\ (truthy (fieldOf "text" body) = false ->
           truthy (elem0 body) = true ->
           truthy (fieldOf "text" (elem0 body)) = true ->
           v = fieldOf "text" (elem0 body))
       /\ (truthy (fieldOf "text" body) = false ->
           truthy (elem0 body) = false
           \/ truthy (fieldOf "text" (elem0 body)) = false ->
           v = VStr "").
Proof.
  cbv zeta.
  repeat (split; [first [reflexivity | discriminate]|]).
  exact (speechToText_extraction [1; 2; 3]
           (VArr [VObj [("text", VStr "I feel anxious")]])
           (mkResponse 200
              (Some (VArr [VObj [("text", VStr "I feel anxious")]])) (Some []))
           (answeringWorld (VArr [VObj [("text", VStr "I feel anxious")]]))
           eq_refl eq_refl eq_refl
           ltac:(discriminate) ltac:(discriminate)).
Defined.

(** C8 as stated fails: the body is no list and its text field is present
    (and empty), so the claim has the empty string returned; the code
    returns the text under the key "0". *)
Lemma speechToText_keyed_body :
  fst (speechToText [1; 2; 3] (answeringWorld keyedBody))
  = Normal (VStr "hello")
  /\ transcriptAsClaimed keyedBody = VStr ""
  /\ fst (speechToText [1; 2; 3] (answeringWorld keyedBody))
     <> Normal (transcriptAsClaimed keyedBody).
Proof. repeat split; try reflexivity. discriminate. Qed.

(** A top-level text that is present but falsy is passed over. *)
Example speechToText_falsy_text :
  fst (speechToText [1; 2; 3]
         (answeringWorld (VObj [("text", VBool false)])))
  = Normal (VStr "").
Proof. reflexivity. Qed.

(** On the body [null] the property read throws, and the catch block
    takes it for a failure of the call. *)
Example speechToText_null_body :
  speechToText [1; 2; 3] (answeringWorld VNull)
  = (Throw TypeError,
     setTrace [EFetch (sttRequest [1; 2; 3] (answeringWorld VNull));
               EConsole "Speech to text error:"]
       (answeringWorld VNull)).
Proof. reflexivity. Qed.

End Transcription.

(** ** Entry points that do nothing *)

Section NoOps.

(** C7: on the empty string and on a string of white space only,
    [sendTextMessage] returns at once and the world is as it was: no
    transcript entry, no request, no change to the controller or the
    page. *)
Theorem sendTextMessage_blank (message : string) (w : World) :
  allWhiteSpace message = true ->
  sendTextMessage (VStr message) w = (Normal tt, w).
Proof.
  intros H. unfold sendTextMessage, callTrim, bind, ret.
  now rewrite (trim_allWhiteSpace _ H).
Qed.

Lemma sendTextMessage_blank_witness :
  allWhiteSpace "   " = true
  /\ sendTextMessage (VStr "   ") recordingWorld = (Normal tt, recordingWorld).
Proof.
  split; [reflexivity|].
  apply (sendTextMessage_blank "   " recordingWorld). reflexivity.
Defined.

Example sendTextMessage_empty :
  sendTextMessage (VStr "") offlineWorld = (Normal tt, offlineWorld).
Proof. reflexivity. Qed.

(** C10: with the listening flag down, or with no recorder, a call of
    [stopVoiceRecording] returns and the world is as it was; no recorder
    is stopped, so no [onstop] will run the pipeline. *)
Theorem stopVoiceRecording_idle (w : World) :
  isListening (this w) = false \/ mediaRecorder (this w) = None ->
  stopVoiceRecording w = (Normal tt, w).
Proof.
  intros H. unfold stopVoiceRecording. run.
  destruct (mediaRecorder (this w)) as [id|]; [|reflexivity].
  destruct H as [H|H]; [now rewrite H|discriminate].
Qed.

Lemma stopVoiceRecording_idle_witness :
  (isListening (this offlineWorld) = false
   \/ mediaRecorder (this offlineWorld) = None)
  /\ stopVoiceRecording offlineWorld = (Normal tt, offlineWorld).
Proof.
  split; [now left|].
  apply (stopVoiceRecording_idle offlineWorld). now left.
Defined.

End NoOps.

(** ** Recording *)

Section Recording.

Lemma deliverAll_run (chunks : list Blob) (w : World) :
  exists w',
    deliverAll chunks w = (Normal tt, w')
    /\ audioChunks (this w')
       = (audioChunks (this w)
            ++ filter (fun data => 0 <? List.length data) chunks)%list.
Proof.
  revert w; induction chunks as [|data rest IH]; intros w; cbn [deliverAll].
  - exists w. now rewrite app_nil_r.
  - unfold ondataavailable. run. cbn [filter].
    destruct (0 <? List.length data).
    + edestruct IH as (w' & -> & E). exists w'. split; [reflexivity|].
      rewrite E. cbn. now rewrite <- app_assoc.
    + edestruct IH as (w' & -> & E). exists w'. split; [reflexivity|].
      exact E.
Qed.

(** [initializeAudio] catches whatever goes wrong; it ends, or waits
    for ever on the permission prompt.  The buffer is not its business. *)
Lemma initializeAudio_run (w : World) :
  audioChunks (this (snd (initializeAudio w))) = audioChunks (this w)
  /\ (fst (initializeAudio w) = Normal tt
      \/ fst (initializeAudio w) = Suspended).
Proof.
  unfold initializeAudio, showError. run.
  destruct (hasAudioContext (page w)); cbn.
  - destruct (userMediaResult _ _); cbn; [now split; [|left]| |now split; [|right]].
    destruct (dom w voiceError); cbn; now split; [|left].
  - destruct (dom w voiceError); cbn; now split; [|left].
Qed.

(** C9: a call of [startVoiceRecording] that gets past the permission
    prompt returns with the buffer empty, whatever was buffered and
    whether or not a recording was running; what the buffer holds later
    is the non-empty chunks delivered since, in order. *)
Theorem startVoiceRecording_resets_buffer (delivered : list Blob) (w : World) :
  fst (startVoiceRecording w) <> Suspended ->
  fst (startVoiceRecording w) = Normal tt
  /\ audioChunks (this (snd (startVoiceRecording w))) = []
  /\ audioChunks
       (this (snd (deliverAll delivered (snd (startVoiceRecording w)))))
     = filter (fun data => 0 <? List.length data) delivered.
Proof.
  intros Hend.
  assert (H : fst (startVoiceRecording w) = Normal tt
              /\ audioChunks (this (snd (startVoiceRecording w))) = []).
  { revert Hend. unfold startVoiceRecording.
    match goal with
    | |- context [tryCatch ?b ?h] => set (block := tryCatch b h)
    end.
    assert (Hb : forall w1, fst (block w1) = Normal tt
                            /\ audioChunks (this (snd (block w1))) = []).
    { intros [[l p r ch lang key st ctx ov] d rs t pg].
      unfold block, newMediaRecorder, recorderStart, updateVoiceUI,
        showError. run.
      cbn [stream set_audioChunks].
      destruct st; run; cbn [recorders].
      - destruct (nth _ _ _); run;
          [|destruct (startThrows pg _); run; [|now split]];
          destruct (d voiceError); now split.
      - destruct (d voiceError); now split. }
    unfold bind, gets.
    destruct (stream (this w)).
    - intros _. unfold ret. apply Hb.
    - destruct (initializeAudio_run w) as [_ [E|E]].
      + destruct (initializeAudio w) as [c w1]. cbn in E. subst c.
        intros _. apply Hb.
      + destruct (initializeAudio w) as [c w1]. cbn in E. subst c.
        cbn. congruence. }
  destruct H as [H1 H2]. repeat split; trivial.
  destruct (deliverAll_run delivered (snd (startVoiceRecording w)))
    as (w' & -> & E).
  cbn [snd]. now rewrite E, H2.
Qed.

Lemma startVoiceRecording_resets_buffer_witness :
  fst (startVoiceRecording recordingWorld) <> Suspended
  /\ audioChunks (this recordingWorld) = [[1; 2]; [3]]
  /\ fst (startVoiceRecording recordingWorld) = Normal tt
  /\ audioChunks (this (snd (startVoiceRecording recordingWorld))) = []
  /\ audioChunks
       (this (snd (deliverAll [[4]; []; [5; 6]]
                     (snd (startVoiceRecording recordingWorld)))))
     = filter (fun data => 0 <? List.length data) [[4]; []; [5; 6]].
Proof.
  split; [discriminate|]. split; [reflexivity|].
  apply (startVoiceRecording_resets_buffer [[4]; []; [5; 6]] recordingWorld).
  discriminate.
Defined.

End Recording.

(** ** The pipeline *)

Section Pipeline.

Lemma count_app (p : Event -> bool) (a b : list Event) :
  count p (a ++ b) = count p a + count p b.
Proof. unfold count. now rewrite filter_app, List.length_app. Qed.

Lemma speechToText_failed (audioBlob : Blob) (w : World) :
  remoteFails (nextFetch w) ->
  speechToText audioBlob w
  = (if hasSpeechRecognition (page w) then fallbackSpeechToText
     else throw (failure (nextFetch w)))
      (setTrace ((trace w ++ [EFetch (sttRequest audioBlob w)])
                   ++ [EConsole "Speech to text error:"]) w).
Proof.
  unfold remoteFails, nextFetch, failure. intros H.
  unfold speechToText, sttRequest. run.
  destruct (fetchResult _ _) as [r|e|]; [|reflexivity|contradiction].
  rewrite H. reflexivity.
Qed.

Lemma fallbackSpeechToText_run (w : World) :
  fallbackSpeechToText w
  = (recognitionOutcome
       (recognitionResult (page w) (count isRecognitionStart (trace w))),
     setTrace (trace w ++ [ERecognitionStart
                             (locale (currentLanguage (this w)))]) w).
Proof.
  unfold fallbackSpeechToText. run. now destruct (recognitionResult _ _).
Qed.

(** C5: when the remote speech-to-text call fails and the page has a
    recognizer, [speechToText] starts it once and ends as it ends.  When
    the page has none, [speechToText] throws the failure on; then
    [processVoiceInput] ends with the error banner showing, the
    transcript as it was, and no request beyond the one that failed. *)
Theorem speechToText_failure_policy (audioBlob : Blob) (w : World) :
  remoteFails (nextFetch w) ->
  dom w voiceError <> None ->
  if hasSpeechRecognition (page w) then
    fst (speechToText audioBlob w)
    = recognitionOutcome
        (recognitionResult (page w) (count isRecognitionStart (trace w)))
    /\ count isRecognitionStart (trace (snd (speechToText audioBlob w)))
       = S (count isRecognitionStart (trace w))
  else
    fst (speechToText audioBlob w) = Throw (failure (nextFetch w))
    /\ count isRecognitionStart (trace (snd (speechToText audioBlob w)))
       = count isRecognitionStart (trace w)
    /\ fst (processVoiceInput audioBlob w) = Normal tt
    /\ bannerShown "Failed to process voice input"
         (snd (processVoiceInput audioBlob w))
    /\ transcriptEntries (snd (processVoiceInput audioBlob w))
       = transcriptEntries w
    /\ count isFetch (trace (snd (processVoiceInput audioBlob w)))
       = S (count isFetch (trace w)).
Proof.
  intros Hf Hb.
  destruct (hasSpeechRecognition (page w)) eqn:Hr.
  - rewrite (speechToText_failed _ _ Hf), Hr, fallbackSpeechToText_run.
    cbn [fst snd setTrace trace page].
    rewrite !count_app. cbn. rewrite !Nat.add_0_r. split; [reflexivity|lia].
  - rewrite (speechToText_failed _ _ Hf), Hr.
    cbn [fst snd throw setTrace trace].
    rewrite !count_app. cbn. split; [reflexivity|]. split; [lia|].
    unfold processVoiceInput, showProcessingIndicator, hideProcessingIndicator,
      showError. run.
    rewrite speechToText_failed by exact Hf.
    cbn [page]. rewrite Hr. run.
    cbn [ElementId_eqb].
    destruct (dom w voiceError) as [e|] eqn:He; [|congruence].
    cbn [fst snd]. split; [reflexivity|]. split; [|split].
    + exists (set_display "block"
                (set_textContent "Failed to process voice input" e)).
      cbn. rewrite He. now cbn.
    + unfold transcriptEntries. cbn [trace dom ElementId_eqb].
      rewrite !filter_app. cbn. now rewrite !app_nil_r.
    + cbn [trace]. rewrite !count_app. cbn. lia.
Qed.


Lemma speechToText_failure_policy_witness :
  (remoteFails (nextFetch offlineWorld)
   /\ dom offlineWorld voiceError <> None
   /\ fst (speechToText [1; 2; 3] offlineWorld) = Throw NetworkError
   /\ count isRecognitionStart
        (trace (snd (speechToText [1; 2; 3] offlineWorld))) = 0
   /\ fst (processVoiceInput [1; 2; 3] offlineWorld) = Normal tt
   /\ bannerShown "Failed to process voice input"
        (snd (processVoiceInput [1; 2; 3] offlineWorld))
   /\ transcriptEntries (snd (processVoiceInput [1; 2; 3] offlineWorld))
      = transcriptEntries offlineWorld
   /\ count isFetch (trace (snd (processVoiceInput [1; 2; 3] offlineWorld)))
      = 1)
  /\ (remoteFails (nextFetch recognizerWorld)
      /\ dom recognizerWorld voiceError <> None
      /\ fst (speechToText [1; 2; 3] recognizerWorld) = Normal (VStr "hello")
      /\ count isRecognitionStart
           (trace (snd (speechToText [1; 2; 3] recognizerWorld))) = 1).
Proof.
  assert (Hb : Some blankElement <> None) by discriminate.
  split.
  - split; [exact I|]. split; [exact Hb|].
    exact (speechToText_failure_policy [1; 2; 3] offlineWorld I Hb).
  - split; [exact I|]. split; [exact Hb|].
    exact (speechToText_failure_policy [1; 2; 3] recognizerWorld I Hb).
Defined.

Lemma hideProcessingIndicator_hides : hidesOnReturn hideProcessingIndicator.
Proof.
  intros w. unfold hideProcessingIndicator, indicatorHidden. run. cbn.
  now destruct (dom w processingIndicator).
Qed.

Lemma bind_hides {A} (m : M A) (k : A -> M unit) :
  (forall a, hidesOnReturn (k a)) -> hidesOnReturn (bind m k).
Proof.
  intros Hk w. unfold bind.
  destruct (m w) as [[a|e|] w1]; cbn; trivial. apply Hk.
Qed.

(** The catch blocks of the two entry points: log, show the banner, hide
    the indicator.  They always return. *)
Lemma catch_block (label message : string) (w : World) :
  exists w',
    (console label ;; showError message ;; hideProcessingIndicator) w
    = (Normal tt, w')
    /\ indicatorHidden w'.
Proof.
  unfold showError, hideProcessingIndicator, indicatorHidden. run.
  destruct (dom w voiceError); eexists; (split; [reflexivity|]); cbn;
    now destruct (dom w processingIndicator).
Qed.

Lemma guarded_endsHidden (body : M unit) (label message : string) (w : World) :
  hidesOnReturn body ->
  endsHidden
    (tryCatch body
       (fun _ => console label ;; showError message ;;
                 hideProcessingIndicator) w).
Proof.
  intros Hb. unfold endsHidden, tryCatch.
  specialize (Hb w). destruct (body w) as [[[]|e|] w1]; cbv beta iota.
  - exact Hb.
  - destruct (catch_block label message w1) as (w' & -> & H). exact H.
  - exact I.
Qed.

Lemma processVoiceInput_endsHidden (audioBlob : Blob) (w : World) :
  endsHidden (processVoiceInput audioBlob w).
Proof.
  unfold processVoiceInput. apply guarded_endsHidden.
  repeat (apply bind_hides; intros ?).
  apply hideProcessingIndicator_hides.
Qed.

Lemma sendTextMessage_endsHidden (message : string) (w : World) :
  isEmpty (trim message) = false ->
  endsHidden (sendTextMessage (VStr message) w).
Proof.
  intros Hm.
  unfold sendTextMessage, callTrim, bind at 1, ret at 1. rewrite Hm.
  apply guarded_endsHidden.
  repeat (apply bind_hides; intros ?).
  apply hideProcessingIndicator_hides.
Qed.

(** *** The runs do end *)

Lemma live_ret {A} (a : A) : live (ret a).
Proof. intros w _. cbn. split; [discriminate|reflexivity]. Qed.

Lemma live_throw {A} (e : JSError) : live (@throw A e).
Proof. intros w _. cbn. split; [discriminate|reflexivity]. Qed.

Lemma live_gets {A} (f : World -> A) : live (gets f).
Proof. intros w _. cbn. split; [discriminate|reflexivity]. Qed.

Lemma live_modify (f : World -> World) :
  (forall w, page (f w) = page w) -> live (modify f).
Proof. intros Hf w _. cbn. split; [discriminate|apply Hf]. Qed.

Lemma live_bind {A B} (m : M A) (k : A -> M B) :
  live m -> (forall a, live (k a)) -> live (bind m k).
Proof.
  intros Hm Hk w Hw. unfold bind.
  destruct (Hm w Hw) as [H1 H2].
  destruct (m w) as [[a|e|] w1]; cbn in *.
  - destruct (Hk a w1) as [H3 H4]; [now rewrite H2|].
    split; [exact H3|congruence].
  - split; [discriminate|exact H2].
  - contradiction.
Qed.

Lemma live_tryCatch {A} (m : M A) (h : JSError -> M A) :
  live m -> (forall e, live (h e)) -> live (tryCatch m h).
Proof.
  intros Hm Hh w Hw. unfold tryCatch.
  destruct (Hm w Hw) as [H1 H2].
  destruct (m w) as [[a|e|] w1]; cbn in *.
  - split; [discriminate|exact H2].
  - destruct (Hh e w1) as [H3 H4]; [now rewrite H2|].
    split; [exact H3|congruence].
  - contradiction.
Qed.

Lemma live_fetch (req : Request) : live (fetch req).
Proof.
  intros w [Hf _]. unfold fetch. run.
  specialize (Hf (count isFetch (trace w))).
  destruct (fetchResult _ _); cbn; [| |contradiction];
    (split; [discriminate|reflexivity]).
Qed.

Lemma live_fallbackSpeechToText : live fallbackSpeechToText.
Proof.
  intros w [_ Hr]. rewrite fallbackSpeechToText_run.
  specialize (Hr (count isRecognitionStart (trace w))).
  destruct (recognitionResult _ _); cbn; [| |contradiction];
    (split; [discriminate|reflexivity]).
Qed.

Lemma live_some {A} (f : A -> M bool) (l : list A) :
  (forall a, live (f a)) -> live (some f l).
Proof.
  intros Hf. induction l as [|x l IH]; cbn [some].
  - apply live_ret.
  - apply live_bind; [apply Hf|]. intros []; [apply live_ret|exact IH].
Qed.

(** Takes a method apart down to the primitives above. *)
Ltac live_step :=
  match goal with
  | |- live (bind _ _) => apply live_bind; [|intros ?]
  | |- live (tryCatch _ _) => apply live_tryCatch; [|intros ?]
  | |- live (ret _) => apply live_ret
  | |- live (throw _) => apply live_throw
  | |- live (gets _) => apply live_gets
  | |- live (modify _) => apply live_modify; intros ?; reflexivity
  | |- live (fetch _) => apply live_fetch
  | |- live fallbackSpeechToText => apply live_fallbackSpeechToText
  | |- live (some _ _) => apply live_some; intros ?
  | |- live (if ?b then _ else _) => destruct b
  | |- live (match ?x with _ => _ end) => destruct x
  end.

Ltac live_all :=
  repeat first
    [ live_step
    | progress unfold emit, console, modifyThis, withElement, when, json,
        mathRandom, prop, index0, callTrim, callToLowerCase, toStringOf,
        createMentalHealthPrompt, arrayBuffer ].

Lemma live_getFallbackResponse (message : JSValue) :
  live (getFallbackResponse message).
Proof. unfold getFallbackResponse. live_all. Qed.

Lemma live_generateAIResponse (message : JSValue) :
  live (generateAIResponse message).
Proof.
  unfold generateAIResponse, enhanceResponse, extractGenerated.
  live_all; apply live_getFallbackResponse.
Qed.

Lemma live_speechToText (audioBlob : Blob) : live (speechToText audioBlob).
Proof. unfold speechToText, extractTranscript. live_all. Qed.

Lemma live_textToSpeech (text : JSValue) : live (textToSpeech text).
Proof.
  unfold textToSpeech, playAudioBuffer, fallbackTextToSpeech,
    updatePlaybackUI.
  live_all.
Qed.

Lemma live_addMessageToChat (text : JSValue) (sender : string) :
  live (addMessageToChat text sender).
Proof. unfold addMessageToChat, fallbackAddMessage. live_all. Qed.

Lemma live_processVoiceInput (audioBlob : Blob) :
  live (processVoiceInput audioBlob).
Proof.
  unfold processVoiceInput, showProcessingIndicator, hideProcessingIndicator,
    showError.
  live_all;
    first [ apply live_speechToText | apply live_generateAIResponse
          | apply live_textToSpeech | apply live_addMessageToChat ].
Qed.

Lemma live_sendTextMessage (message : JSValue) :
  live (sendTextMessage message).
Proof.
  unfold sendTextMessage, showProcessingIndicator, hideProcessingIndicator,
    showError.
  live_all;
    first [ apply live_generateAIResponse | apply live_addMessageToChat ].
Qed.

(** On a page whose promises all settle, the pipeline returns, with the
    indicator hidden. *)
Lemma processVoiceInput_returns (audioBlob : Blob) (w : World) :
  settling (page w) ->
  fst (processVoiceInput audioBlob w) = Normal tt
  /\ indicatorHidden (snd (processVoiceInput audioBlob w)).
Proof.
  intros Hw.
  destruct (live_processVoiceInput audioBlob w Hw) as [Hl _].
  pose proof (processVoiceInput_endsHidden audioBlob w) as Hh.
  unfold endsHidden in Hh.
  destruct (fst (processVoiceInput audioBlob w)) as [[]|e|];
    [now split|contradiction|congruence].
Qed.

Lemma sendTextMessage_returns (message : string) (w : World) :
  settling (page w) ->
  isEmpty (trim message) = false ->
  fst (sendTextMessage (VStr message) w) = Normal tt
  /\ indicatorHidden (snd (sendTextMessage (VStr message) w)).
Proof.
  intros Hw Hm.
  destruct (live_sendTextMessage (VStr message) w Hw) as [Hl _].
  pose proof (sendTextMessage_endsHidden message w Hm) as Hh.
  unfold endsHidden in Hh.
  destruct (fst (sendTextMessage (VStr message) w)) as [[]|e|];
    [now split|contradiction|congruence].
Qed.

(** C6: a run of [processVoiceInput], and a run of [sendTextMessage] on
    input that is not blank, ends whenever every promise the page hands
    out settles; it never ends by throwing; and when it has ended the
    processing indicator is hidden, whether its stages succeeded or one
    of them threw. *)
Theorem processing_indicator_hidden
    (audioBlob : Blob) (message : string) (w : World) :
  isEmpty (trim message) = false ->
  let voice := processVoiceInput audioBlob w in
  let text := sendTextMessage (VStr message) w in
  (settling (page w) -> fst voice = Normal tt /\ fst text = Normal tt)
  /\ (forall e, fst voice <> Throw e /\ fst text <> Throw e)
  /\ (fst voice = Normal tt -> indicatorHidden (snd voice))
  /\ (fst text = Normal tt -> indicatorHidden (snd text)).
Proof.
  intros Hm. cbv zeta.
  pose proof (processVoiceInput_endsHidden audioBlob w) as Hv.
  pose proof (sendTextMessage_endsHidden message w Hm) as Ht.
  unfold endsHidden in Hv, Ht.
  split; [|split; [|split]].
  - intros Hw. split.
    + apply (processVoiceInput_returns audioBlob w Hw).
    + apply (sendTextMessage_returns message w Hw Hm).
  - intros e. split; intros E; [rewrite E in Hv|rewrite E in Ht];
      contradiction.
  - intros E. now rewrite E in Hv.
  - intros E. now rewrite E in Ht.
Qed.

Lemma processing_indicator_hidden_witness :
  (isEmpty (trim " I feel anxious ") = false
   /\ settling (page offlineWorld)
   /\ fst (processVoiceInput [1; 2; 3] offlineWorld) = Normal tt
   /\ indicatorHidden (snd (processVoiceInput [1; 2; 3] offlineWorld))
   /\ fst (sendTextMessage (VStr " I feel anxious ") offlineWorld)
      = Normal tt
   /\ indicatorHidden
        (snd (sendTextMessage (VStr " I feel anxious ") offlineWorld)))
  /\ (let w := servedWorld (VStr "I feel anxious") in
      settling (page w)
      /\ fst (processVoiceInput [1; 2; 3] w) = Normal tt
      /\ indicatorHidden (snd (processVoiceInput [1; 2; 3] w))
      /\ fst (sendTextMessage (VStr " I feel anxious ") w) = Normal tt
      /\ indicatorHidden (snd (sendTextMessage (VStr " I feel anxious ") w))).
Proof.
  cbv zeta. split.
  - assert (Hs : settling (page offlineWorld))
      by (split; intros n; discriminate).
    split; [reflexivity|]. split; [exact Hs|].
    destruct (processing_indicator_hidden [1; 2; 3] " I feel anxious "
                offlineWorld eq_refl) as (H1 & _ & H3 & H4).
    destruct (H1 Hs) as [Hv Ht].
    split; [exact Hv|]. split; [exact (H3 Hv)|].
    split; [exact Ht|exact (H4 Ht)].
  - assert (Hs : settling (page (servedWorld (VStr "I feel anxious"))))
      by (split; [intros [|[|n]]|intros n]; discriminate).
    split; [exact Hs|].
    destruct (processing_indicator_hidden [1; 2; 3] " I feel anxious "
                (servedWorld (VStr "I feel anxious")) eq_refl)
      as (H1 & _ & H3 & H4).
    destruct (H1 Hs) as [Hv Ht].
    split; [exact Hv|]. split; [exact (H3 Hv)|].
    split; [exact Ht|exact (H4 Ht)].
Defined.

(** *** The paths, run *)

(** All three stages succeed. *)
Example processVoiceInput_served :
  let r := processVoiceInput [1; 2; 3] (servedWorld (VStr "I feel anxious")) in
  fst r = Normal tt
  /\ option_map children (dom (snd r) chatMessages)
     = Some [mkChatNode "message user" (VStr "I feel anxious");
             mkChatNode "message bot"
               (VStr "That sounds really hard, thank you for telling me.")]
  /\ option_map display (dom (snd r) processingIndicator) = Some "none"
  /\ isPlaying (this (snd r)) = true
  /\ count isFetch (trace (snd r)) = 3.
Proof. cbv zeta. repeat split; reflexivity. Qed.

(** The second stage throws: the service sent a number for the text, and
    neither [enhanceResponse] nor the fallback can lower-case it. *)
Example processVoiceInput_generation_throws :
  let r := processVoiceInput [1; 2; 3] (servedWorld (VNum 5%float)) in
  fst (generateAIResponse (VNum 5%float) (servedWorld (VNum 5%float)))
  = Throw TypeError
  /\ fst r = Normal tt
  /\ option_map children (dom (snd r) chatMessages)
     = Some [mkChatNode "message user" (VNum 5%float)]
  /\ option_map textContent (dom (snd r) voiceError)
     = Some "Failed to process voice input"
  /\ option_map display (dom (snd r) processingIndicator) = Some "none".
Proof. cbv zeta. repeat split; reflexivity. Qed.

(** The service sent an object that cannot be converted to a string: the
    pipeline stops where the transcript node gets its text. *)
Example processVoiceInput_unconvertible :
  let v := VObj [("toString", VNum 0%float)] in
  let r := processVoiceInput [1; 2; 3] (servedWorld v) in
  fst r = Normal tt
  /\ option_map children (dom (snd r) chatMessages) = Some []
  /\ option_map textContent (dom (snd r) voiceError)
     = Some "Failed to process voice input"
  /\ option_map display (dom (snd r) processingIndicator) = Some "none"
  /\ count isFetch (trace (snd r)) = 1.
Proof. cbv zeta. repeat split; reflexivity. Qed.

(** The first stage throws and nothing absorbs it. *)
Example processVoiceInput_offline :
  let r := processVoiceInput [1; 2; 3] offlineWorld in
  fst r = Normal tt
  /\ option_map children (dom (snd r) chatMessages) = Some []
  /\ option_map display (dom (snd r) voiceError) = Some "block"
  /\ option_map display (dom (snd r) processingIndicator) = Some "none".
Proof. cbv zeta. repeat split; reflexivity. Qed.

(** The transcript "I feel anxious" with generation down: a user message,
    then a bot message from the anxiety list. *)
Example processVoiceInput_anxious_fallback :
  let page := mkPage true false false false
                (fun n =>
                   match n with
                   | 0 => Resolved (mkResponse 200
                            (Some (VObj [("text", VStr "I feel anxious")]))
                            (Some []))
                   | _ => Rejected NetworkError
                   end)
                (fun _ => half)
                (fun _ => Rejected (RecognitionError "no-speech"))
                (fun _ => Rejected (DOMException "NotAllowedError"))
                (fun _ => false) (fun _ => false) (fun _ => false) in
  let r := processVoiceInput [1; 2; 3]
             (mkWorld constructed fullDom [] [] page) in
  fst r = Normal tt
  /\ option_map children (dom (snd r) chatMessages)
     = Some [mkChatNode "message user" (VStr "I feel anxious");
             mkChatNode "message bot" (index (responses anxiety) 1)].
Proof. cbv zeta. repeat split; reflexivity. Qed.

End Pipeline.

Section Replies.

Lemma append_empty (s : string) : (s ++ "")%string = s.
Proof. induction s as [|c s IH]; simpl; [reflexivity|now rewrite IH]. Qed.

Lemma serious_iff (message : string) :
  serious message <-> seriousb (toLowerCase message) = true.
Proof.
  unfold serious, seriousb. rewrite existsb_exists.
  split; intros (t & Hin & H); exists t; split; trivial;
    now apply includes_lower_iff.
Qed.

Lemma some_topics (message : string) (topics : list string) (w : World) :
  some (fun topic =>
          lower <- callToLowerCase (VStr message) ;;
          ret (includes topic lower)) topics w
  = (Normal (existsb (fun topic => includes topic (toLowerCase message))
               topics), w).
Proof.
  induction topics as [|t topics IH]; cbn [some existsb]; [reflexivity|].
  run. destruct (includes t (toLowerCase message)); [reflexivity|].
  cbn [orb]. exact IH.
Qed.

Lemma enhanceResponse_string (aiResponse message : string) (w : World) :
  enhanceResponse aiResponse (VStr message) w
  = if String.length (trim (removePromptRepetition aiResponse)) <? 20
    then getFallbackResponse (VStr message) w
    else (Normal (VStr (punctuated (trim (removePromptRepetition aiResponse))
                          ++ (if seriousb (toLowerCase message)
                              then crisisSentence else ""))), w).
Proof.
  unfold enhanceResponse. destruct (_ <? 20); [reflexivity|].
  unfold bind at 1. rewrite some_topics. fold (seriousb (toLowerCase message)).
  unfold ret, punctuated.
  destruct (seriousb _); [reflexivity|].
  now rewrite append_empty.
Qed.

Lemma punctuated_cases (clean : string) :
  (terminal clean = true /\ punctuated clean = clean)
  \/ (terminal clean = false /\ punctuated clean = (clean ++ ".")%string).
Proof.
  unfold punctuated, terminal.
  destruct (endsWith "." clean), (endsWith "!" clean), (endsWith "?" clean);
    cbn; auto.
Qed.

Lemma terminal_punctuated (clean : string) :
  terminal (punctuated clean) = true.
Proof.
  destruct (punctuated_cases clean) as [[Ht ->]|[_ ->]]; [exact Ht|].
  unfold terminal. now rewrite endsWith_app.
Qed.

Lemma punctuated_length (clean : string) :
  String.length clean <= String.length (punctuated clean).
Proof.
  destruct (punctuated_cases clean) as [[_ ->]|[_ ->]]; [lia|].
  rewrite string_length_app. lia.
Qed.

(** Reading the generated text out of the result touches nothing and
    waits for nothing. *)
Lemma extractGenerated_pure (result : JSValue) (w : World) :
  exists c, extractGenerated result w = (c, w) /\ c <> Suspended.
Proof.
  unfold extractGenerated. run.
  destruct result as [| | | | |items|fields]; cbn;
    try (eexists; split; [reflexivity|discriminate]).
  - destruct (truthy (hd VUndefined items)) eqn:T; cbn.
    + destruct (getProp (hd VUndefined items) "generated_text") as [g|];
        [|eexists; split; [reflexivity|discriminate]].
      destruct (truthy g);
        [eexists; split; [reflexivity|discriminate]|].
      destruct (getProp (hd VUndefined items) "text");
        eexists; (split; [reflexivity|discriminate]).
    + eexists; split; [reflexivity|discriminate].
  - destruct (truthy (lookupField "generated_text" fields));
      eexists; (split; [reflexivity|discriminate]).
Qed.

End Replies.

Section Generation2.

Lemma truthy_long (s : string) : 20 <= String.length s -> truthy (VStr s) = true.
Proof. destruct s; simpl; [lia|reflexivity]. Qed.

(** Every way [generateAIResponse] goes on a string message. *)
Lemma generateAIResponse_string_run (message : string) (w : World) :
  generateAIResponse (VStr message) w
  = let w1 := afterGenerationRequest (VStr message) w in
    let failed :=
      getFallbackResponse (VStr message)
        (setTrace (trace w1 ++ [EConsole "AI response generation error:"])
           w1) in
    match nextFetch w with
    | NeverSettles => (Suspended, w1)
    | Rejected _ => failed
    | Resolved r =>
        if ok r then
          match jsonBody r with
          | None => failed
          | Some result =>
              match fst (extractGenerated result w1) with
              | Normal (VStr raw) =>
                  if String.length (cleaned raw) <? 20
                  then getFallbackResponse (VStr message) w1
                  else (Normal
                          (VStr (punctuated (cleaned raw)
                                   ++ (if seriousb (toLowerCase message)
                                       then crisisSentence else ""))), w1)
              | _ => failed
              end
          end
        else failed
    end.
Proof.
  cbv zeta. unfold nextFetch, afterGenerationRequest, generationRequest, cleaned.
  unfold generateAIResponse. run.
  destruct (fetchResult _ _) as [r|e|]; [|reflexivity|reflexivity].
  destruct (ok r); cbn [negb]; [|reflexivity].
  destruct (jsonBody r) as [result|]; [|reflexivity].
  match goal with
  | |- context [extractGenerated result ?w1] =>
      destruct (extractGenerated_pure result w1) as (c & E & Hc)
  end.
  rewrite E. cbn [fst].
  destruct c as [v|e|]; [|reflexivity|congruence].
  destruct v; try reflexivity.
  rewrite enhanceResponse_string.
  destruct (_ <? 20) eqn:Hlen.
  - match goal with
    | |- context [getFallbackResponse (VStr message) ?w1] =>
        destruct (getFallbackResponse_string message w1) as (f & Hin & Ef)
    end.
    rewrite Ef.
    apply responses_in_table, fallbackTable_long, truthy_long in Hin.
    now rewrite Hin.
  - rewrite truthy_long; [reflexivity|].
    apply Nat.ltb_ge in Hlen. rewrite string_length_app.
    pose proof (punctuated_length (trim (removePromptRepetition (trim s)))).
    lia.
Qed.

End Generation2.

Section Generation3.

(** X1: on a string message [generateAIResponse] never throws.  It stays
    suspended only while its one request never settles; otherwise it
    returns a string of at least 20 units, so never an empty reply. *)
Theorem generateAIResponse_reply_length (message : string) (w : World) :
  match nextFetch w with
  | NeverSettles => fst (generateAIResponse (VStr message) w) = Suspended
  | _ => exists s,
           fst (generateAIResponse (VStr message) w) = Normal (VStr s)
           /\ 20 <= String.length s
  end.
Proof.
  rewrite generateAIResponse_string_run. cbv zeta.
  assert (F : forall w0, exists s,
             fst (getFallbackResponse (VStr message) w0) = Normal (VStr s)
             /\ 20 <= String.length s).
  { intros w0.
    destruct (getFallbackResponse_string message w0) as (s & Hin & ->).
    exists s. split; [reflexivity|].
    eapply fallbackTable_long, responses_in_table; eauto. }
  destruct (nextFetch w) as [r|e|]; [|apply F|reflexivity].
  destruct (ok r); [|apply F].
  destruct (jsonBody r) as [result|]; [|apply F].
  destruct (fst (extractGenerated result _)) as [v|e|]; try apply F.
  destruct v; try apply F.
  destruct (_ <? 20) eqn:Hlen; [apply F|].
  eexists. split; [reflexivity|].
  apply Nat.ltb_ge in Hlen. rewrite string_length_app.
  pose proof (punctuated_length (cleaned s)). lia.
Qed.

(** X2: an answer that is 2xx but is not JSON, or is [null], or carries a
    truthy generated text that is no string, is absorbed like a failed
    call: the reply is a string of the fallback table. *)
Theorem generateAIResponse_malformed_answer
    (message : string) (r : Response) (w : World) :
  nextFetch w = Resolved r ->
  ok r = true ->
  jsonBody r = None
  \/ jsonBody r = Some VNull
  \/ (exists result v,
        jsonBody r = Some result /\ isArray result = false
        /\ getProp result "generated_text" = Some v
        /\ truthy v = true /\ isString v = false) ->
  exists s w',
    generateAIResponse (VStr message) w = (Normal (VStr s), w')
    /\ In s fallbackTable.
Proof.
  intros Hf Hok Hbody.
  rewrite generateAIResponse_string_run. cbv zeta. rewrite Hf, Hok.
  assert (F : forall w0, exists s w',
             getFallbackResponse (VStr message) w0 = (Normal (VStr s), w')
             /\ In s fallbackTable).
  { intros w0.
    destruct (getFallbackResponse_string message w0) as (s & Hin & ->).
    exists s. eexists. split; [reflexivity|].
    eapply responses_in_table; eauto. }
  destruct Hbody as [->|[->|(result & v & -> & Ha & Hg & Ht & Hs)]];
    [apply F|apply F|].
  assert (E : forall w0, extractGenerated result w0 = (Normal v, w0)).
  { intros w0. unfold extractGenerated. run. rewrite Ha, Hg.
    cbv beta iota. cbn [andb]. now rewrite Ht. }
  rewrite E. cbn [fst].
  destruct v; try discriminate Hs; apply F.
Qed.

Lemma generateAIResponse_malformed_answer_witness :
  let body := VObj [("generated_text", VNum 42%float)] in
  let r := mkResponse 200 (Some body) (Some []) in
  nextFetch (answeringWorld body) = Resolved r
  /\ ok r = true
  /\ exists s w',
       generateAIResponse (VStr "hello") (answeringWorld body)
       = (Normal (VStr s), w')
       /\ In s fallbackTable.
Proof.
  cbv zeta. split; [reflexivity|]. split; [reflexivity|].
  apply (generateAIResponse_malformed_answer "hello"
           (mkResponse 200 (Some (VObj [("generated_text", VNum 42%float)])) (Some []))
           (answeringWorld (VObj [("generated_text", VNum 42%float)]))
           eq_refl eq_refl).
  right. right.
  exists (VObj [("generated_text", VNum 42%float)]), (VNum 42%float).
  repeat split; reflexivity.
Defined.

(** X3: when the cleaned remote text is kept (20 units or more),
    [enhanceResponse] draws nothing and changes nothing; the crisis
    sentence is appended exactly when one of the five serious topics
    occurs in the message, in any letter case. *)
Theorem enhanceResponse_crisis_iff_serious
    (aiResponse message : string) (w : World) :
  20 <= String.length (trim (removePromptRepetition aiResponse)) ->
  let kept := punctuated (trim (removePromptRepetition aiResponse)) in
  exists s,
    enhanceResponse aiResponse (VStr message) w = (Normal (VStr s), w)
    /\ (serious message -> s = (kept ++ crisisSentence)%string)
    /\ (~ serious message -> s = kept).
Proof.
  intros Hlen kept. rewrite enhanceResponse_string.
  destruct (_ <? 20) eqn:E; [apply Nat.ltb_lt in E; lia|].
  eexists. split; [reflexivity|].
  rewrite !serious_iff. fold kept.
  destruct (seriousb (toLowerCase message)); split; intros H;
    try congruence; try reflexivity.
  apply append_empty.
Qed.

Lemma enhanceResponse_crisis_iff_serious_witness :
  20 <= String.length
          (trim (removePromptRepetition "You are not alone in this, truly"))
  /\ exists s,
       enhanceResponse "You are not alone in this, truly"
         (VStr "It feels HOPELESS") offlineWorld
       = (Normal (VStr s), offlineWorld)
       /\ (serious "It feels HOPELESS" ->
           s = ("You are not alone in this, truly." ++ crisisSentence)%string)
       /\ (~ serious "It feels HOPELESS" ->
           s = "You are not alone in this, truly.").
Proof.
  assert (H : 20 <= String.length
                     (trim (removePromptRepetition
                              "You are not alone in this, truly")))
    by (vm_compute; lia).
  split; [exact H|].
  exact (enhanceResponse_crisis_iff_serious
           "You are not alone in this, truly" "It feels HOPELESS"
           offlineWorld H).
Defined.

(** X4: a kept reply ends in '.', '!' or '?' before anything else is
    appended: the cleaned text is left as it is when it already ends so,
    and gets exactly one full stop otherwise. *)
Theorem enhanceResponse_terminal_punctuation
    (aiResponse message : string) (w : World) :
  20 <= String.length (trim (removePromptRepetition aiResponse)) ->
  ~ serious message ->
  let clean := trim (removePromptRepetition aiResponse) in
  exists s,
    enhanceResponse aiResponse (VStr message) w = (Normal (VStr s), w)
    /\ terminal s = true
    /\ (terminal clean = true -> s = clean)
    /\ (terminal clean = false -> s = (clean ++ ".")%string).
Proof.
  intros Hlen Hs clean. rewrite enhanceResponse_string.
  destruct (_ <? 20) eqn:E; [apply Nat.ltb_lt in E; lia|].
  fold clean. rewrite serious_iff in Hs. apply not_true_is_false in Hs. rewrite Hs.
  rewrite append_empty.
  eexists. split; [reflexivity|]. split; [apply terminal_punctuated|].
  destruct (punctuated_cases clean) as [[Ht ->]|[Ht ->]];
    split; intros H; congruence.
Qed.

Lemma enhanceResponse_terminal_punctuation_witness :
  20 <= String.length
          (trim (removePromptRepetition "You are not alone in this, truly"))
  /\ ~ serious "I failed my exam"
  /\ exists s,
       enhanceResponse "You are not alone in this, truly"
         (VStr "I failed my exam") offlineWorld
       = (Normal (VStr s), offlineWorld)
       /\ terminal s = true
       /\ (terminal "You are not alone in this, truly" = true ->
           s = "You are not alone in this, truly")
       /\ (terminal "You are not alone in this, truly" = false ->
           s = "You are not alone in this, truly.").
Proof.
  assert (H : 20 <= String.length
                     (trim (removePromptRepetition
                              "You are not alone in this, truly")))
    by (vm_compute; lia).
  assert (N : ~ serious "I failed my exam")
    by (intros S; apply serious_iff in S; discriminate S).
  split; [exact H|]. split; [exact N|].
  exact (enhanceResponse_terminal_punctuation
           "You are not alone in this, truly" "I failed my exam"
           offlineWorld H N).
Defined.

Lemma getFallbackResponse_not_string (message : JSValue) (w : World) :
  isString message = false ->
  getFallbackResponse message w = (Throw TypeError, w).
Proof. now destruct message. Qed.

Lemma enhanceResponse_not_string
    (aiResponse : string) (message : JSValue) (w : World) :
  isString message = false ->
  enhanceResponse aiResponse message w = (Throw TypeError, w).
Proof.
  intros H. unfold enhanceResponse.
  destruct (_ <? 20); [now apply getFallbackResponse_not_string|].
  now destruct message.
Qed.

(** X5: a message that is no string (the speech service can send a number
    or an object for the text) makes [generateAIResponse] throw a
    TypeError whenever its request settles, whatever the answer: neither
    the kept-reply path nor the fallback can lower-case it. *)
Theorem generateAIResponse_not_string (message : JSValue) (w : World) :
  isString message = false ->
  nextFetch w <> NeverSettles ->
  fst (generateAIResponse message w) = Throw TypeError.
Proof.
  unfold nextFetch. intros Hm Hf.
  unfold generateAIResponse. run.
  destruct (convertible message); run;
    [|now rewrite getFallbackResponse_not_string].
  destruct (fetchResult _ _) as [r|e|]; [| |congruence].
  - destruct (ok r); cbn [negb];
      [|now rewrite getFallbackResponse_not_string].
    destruct (jsonBody r) as [result|];
      [|now rewrite getFallbackResponse_not_string].
    match goal with
    | |- context [extractGenerated result ?w1] =>
        destruct (extractGenerated_pure result w1) as (c & E & Hc)
    end.
    rewrite E.
    destruct c as [v|e|];
      [|now rewrite getFallbackResponse_not_string|congruence].
    destruct v; try now rewrite getFallbackResponse_not_string.
    rewrite enhanceResponse_not_string by exact Hm.
    now rewrite getFallbackResponse_not_string.
  - now rewrite getFallbackResponse_not_string.
Qed.

Lemma generateAIResponse_not_string_witness :
  isString (VNum 5%float) = false
  /\ nextFetch (answeringWorld longBody) <> NeverSettles
  /\ fst (generateAIResponse (VNum 5%float) (answeringWorld longBody))
     = Throw TypeError.
Proof.
  assert (H : nextFetch (answeringWorld longBody) <> NeverSettles)
    by discriminate.
  split; [reflexivity|]. split; [exact H|].
  exact (generateAIResponse_not_string (VNum 5%float)
           (answeringWorld longBody) eq_refl H).
Defined.

End Generation3.

(** ** Text to speech *)

Section SpeechOutput.

(** X6: a failed synthesis call never surfaces.  [textToSpeech] returns,
    having logged; with [speechSynthesis] in the page it hands the text to
    it once, in the locale of the current language, and without it the
    reply stays silent.  Controller and page are untouched either way: the
    playing flag is left for the utterance's own events. *)
Theorem textToSpeech_failure (text : JSValue) (w : World) :
  remoteFails (nextFetch w) ->
  textToSpeech text w
  = (Normal tt,
     setTrace
       (trace w
          ++ [EFetch (ttsRequest text w); EConsole "Text to speech error:"]
          ++ (if hasSpeechSynthesis (page w)
              then [ESpeak text (locale (currentLanguage (this w)))]
              else []))%list
       w).
Proof.
  unfold remoteFails, nextFetch. intros H.
  unfold textToSpeech, fallbackTextToSpeech, ttsRequest. run.
  destruct (fetchResult _ _) as [r|e|]; [rewrite H|..|contradiction];
    cbn [negb]; cbv beta iota; cbn [page this trace];
    destruct (hasSpeechSynthesis (page w)) eqn:Hs;
    repeat (cbv beta iota; cbn [page this trace dom recorders];
            rewrite ?Hs);
    unfold setTrace; rewrite <- !app_assoc; reflexivity.
Qed.

Lemma textToSpeech_failure_witness :
  remoteFails (nextFetch speakingWorld)
  /\ textToSpeech (VStr "I hear you, and I am glad you wrote.") speakingWorld
     = (Normal tt,
        setTrace
          [EFetch (ttsRequest (VStr "I hear you, and I am glad you wrote.")
                     speakingWorld);
           EConsole "Text to speech error:";
           ESpeak (VStr "I hear you, and I am glad you wrote.") "en-US"]
          speakingWorld).
Proof.
  split; [exact I|].
  exact (textToSpeech_failure (VStr "I hear you, and I am glad you wrote.")
           speakingWorld I).
Defined.

End SpeechOutput.

(** ** Relations every step keeps *)

Section Keeps.

Variable R : World -> World -> Prop.
Hypothesis R_refl : forall w, R w w.
Hypothesis R_trans : forall a b c, R a b -> R b c -> R a c.

Lemma keeps_ret {A} (a : A) : keeps R (ret a).
Proof. intros w. apply R_refl. Qed.

Lemma keeps_throw {A} (e : JSError) : keeps R (@throw A e).
Proof. intros w. apply R_refl. Qed.

Lemma keeps_gets {A} (f : World -> A) : keeps R (gets f).
Proof. intros w. apply R_refl. Qed.

Lemma keeps_await {A} (a : Async A) : keeps R (await a).
Proof. intros w. destruct a; apply R_refl. Qed.

Lemma keeps_modify (f : World -> World) :
  (forall w, R w (f w)) -> keeps R (modify f).
Proof. intros H w. apply H. Qed.

Lemma keeps_bind {A B} (m : M A) (k : A -> M B) :
  keeps R m -> (forall a, keeps R (k a)) -> keeps R (bind m k).
Proof.
  intros Hm Hk w. unfold bind. specialize (Hm w).
  destruct (m w) as [[a|e|] w1]; cbn [snd] in *; trivial.
  eapply R_trans; [exact Hm|apply Hk].
Qed.

Lemma keeps_tryCatch {A} (m : M A) (h : JSError -> M A) :
  keeps R m -> (forall e, keeps R (h e)) -> keeps R (tryCatch m h).
Proof.
  intros Hm Hh w. unfold tryCatch. specialize (Hm w).
  destruct (m w) as [[a|e|] w1]; cbn [snd] in *; trivial.
  eapply R_trans; [exact Hm|apply Hh].
Qed.

Lemma keeps_some {A} (f : A -> M bool) (l : list A) :
  (forall a, keeps R (f a)) -> keeps R (some f l).
Proof.
  intros Hf. induction l as [|x l IH]; cbn [some].
  - apply keeps_ret.
  - apply keeps_bind; [apply Hf|]. intros []; [apply keeps_ret|exact IH].
Qed.

End Keeps.

(** Takes a method apart down to its [modify] steps, which [leaf] must
    settle. *)
Ltac keeps_step Hr Ht leaf :=
  match goal with
  | |- keeps _ (bind _ _) => apply (keeps_bind _ Ht); [|intros ?]
  | |- keeps _ (tryCatch _ _) => apply (keeps_tryCatch _ Ht); [|intros ?]
  | |- keeps _ (ret _) => apply (keeps_ret _ Hr)
  | |- keeps _ (throw _) => apply (keeps_throw _ Hr)
  | |- keeps _ (gets _) => apply (keeps_gets _ Hr)
  | |- keeps _ (await _) => apply (keeps_await _ Hr)
  | |- keeps _ (some _ _) => apply (keeps_some _ Hr Ht); intros ?
  | |- keeps _ (modify _) => apply keeps_modify; leaf
  | |- keeps _ (if ?b then _ else _) => destruct b
  | |- keeps _ (match ?x with _ => _ end) => destruct x
  end.

Ltac keeps_all Hr Ht leaf :=
  repeat first
    [ keeps_step Hr Ht leaf
    | progress unfold emit, console, modifyThis, withElement, when, json,
        mathRandom, prop, index0, callTrim, callToLowerCase, toStringOf,
        createMentalHealthPrompt, arrayBuffer, fetch,
        showProcessingIndicator, hideProcessingIndicator, showError,
        updateVoiceUI, updatePlaybackUI, addMessageToChat,
        fallbackAddMessage, getFallbackResponse, enhanceResponse,
        extractGenerated, generateAIResponse, extractTranscript,
        fallbackSpeechToText, speechToText, playAudioBuffer,
        fallbackTextToSpeech, textToSpeech ].

Section TextOnly.

Lemma extendsBy_same (allowed : Event -> bool) (w w' : World) :
  trace w' = trace w -> extendsBy allowed w w'.
Proof. intros H. exists []. now rewrite app_nil_r. Qed.

Lemma extendsBy_refl (allowed : Event -> bool) (w : World) :
  extendsBy allowed w w.
Proof. now apply extendsBy_same. Qed.

Lemma extendsBy_trans (allowed : Event -> bool) (a b c : World) :
  extendsBy allowed a b -> extendsBy allowed b c -> extendsBy allowed a c.
Proof.
  intros (x & Ex & Hx) (y & Ey & Hy). exists (x ++ y)%list.
  rewrite Ey, Ex, app_assoc, forallb_app, Hx, Hy. now split.
Qed.

Lemma extendsBy_emit (allowed : Event -> bool) (e : Event) (w : World) :
  allowed e = true ->
  extendsBy allowed w (setTrace (trace w ++ [e]) w).
Proof. intros H. exists [e]. cbn. now rewrite H. Qed.

Lemma textOnly_refl (w : World) : textOnly w w.
Proof. repeat split. apply extendsBy_refl. Qed.

Lemma textOnly_trans (a b c : World) :
  textOnly a b -> textOnly b c -> textOnly a c.
Proof.
  intros (H1 & H2 & H3) (K1 & K2 & K3). repeat split; try congruence.
  eapply extendsBy_trans; eauto.
Qed.

Ltac textOnly_leaf :=
  intros ?; unfold textOnly; cbn [this recorders setTrace setDom];
  repeat split;
  first [ apply extendsBy_emit; reflexivity
        | apply extendsBy_same; reflexivity ].

Lemma sendTextMessage_keeps_textOnly (message : JSValue) :
  keeps textOnly (sendTextMessage message).
Proof.
  unfold sendTextMessage.
  keeps_all textOnly_refl textOnly_trans textOnly_leaf.
Qed.

(** X7: the text entry point never touches the audio side.  Whatever the
    message and however the run ends, the fields of the controller and
    the recorders are as before, and all it did outside is log, call the
    page's [addMessage], schedule the banner timeout, draw a random number
    and send requests to the text-generation model: no microphone, no
    recognition, no synthesis, no playback. *)
Theorem sendTextMessage_text_only (message : JSValue) (w : World) :
  this (snd (sendTextMessage message w)) = this w
  /\ recorders (snd (sendTextMessage message w)) = recorders w
  /\ exists added,
       trace (snd (sendTextMessage message w)) = (trace w ++ added)%list
       /\ forallb textEvent added = true.
Proof. exact (sendTextMessage_keeps_textOnly message w). Qed.

End TextOnly.

Section PipelineFrame.

Lemma recordingUntouched_refl (w : World) : recordingUntouched w w.
Proof. repeat split. apply extendsBy_refl. Qed.

Lemma recordingUntouched_trans (a b c : World) :
  recordingUntouched a b -> recordingUntouched b c -> recordingUntouched a c.
Proof.
  intros (H1 & H2 & H3) (K1 & K2 & K3). repeat split; try congruence.
  eapply extendsBy_trans; eauto.
Qed.

Ltac recordingUntouched_leaf :=
  intros ?; unfold recordingUntouched;
  cbn [this recorders setTrace setDom setThis];
  repeat split;
  first [ apply extendsBy_emit; reflexivity
        | apply extendsBy_same; reflexivity ].

Lemma processVoiceInput_keeps_recording (audioBlob : Blob) :
  keeps recordingUntouched (processVoiceInput audioBlob).
Proof.
  unfold processVoiceInput.
  keeps_all recordingUntouched_refl recordingUntouched_trans
    recordingUntouched_leaf.
Qed.

(** X8: The voice pipeline leaves recording alone.  However it ends, no
    field of the controller but the playing flag has changed, no recorder
    was started or stopped, the microphone was not asked for, and every
    request went to one of the three model endpoints. *)
Theorem processVoiceInput_recording_untouched (audioBlob : Blob) (w : World) :
  set_isPlaying false (this (snd (processVoiceInput audioBlob w)))
  = set_isPlaying false (this w)
  /\ recorders (snd (processVoiceInput audioBlob w)) = recorders w
  /\ exists added,
       trace (snd (processVoiceInput audioBlob w)) = (trace w ++ added)%list
       /\ forallb pipelineEvent added = true.
Proof. exact (processVoiceInput_keeps_recording audioBlob w). Qed.

Lemma transcriptGrows_refl (w : World) : transcriptGrows w w.
Proof.
  unfold transcriptGrows. destruct (dom w chatMessages) as [e|]; trivial.
  exists e, []. now rewrite app_nil_r.
Qed.

Lemma transcriptGrows_trans (a b c : World) :
  transcriptGrows a b -> transcriptGrows b c -> transcriptGrows a c.
Proof.
  unfold transcriptGrows. intros H K.
  destruct (dom a chatMessages) as [e|].
  - destruct H as (e1 & x & E1 & C1). rewrite E1 in K.
    destruct K as (e2 & y & E2 & C2).
    exists e2, (x ++ y)%list. split; [exact E2|].
    now rewrite C2, C1, app_assoc.
  - now rewrite H in K.
Qed.

Lemma transcriptGrows_same (w w' : World) :
  dom w' chatMessages = dom w chatMessages -> transcriptGrows w w'.
Proof.
  intros H. unfold transcriptGrows. rewrite H.
  destruct (dom w chatMessages) as [e|]; trivial.
  exists e, []. now rewrite app_nil_r.
Qed.

Lemma transcriptGrows_append (node : ChatNode) (w : World) :
  transcriptGrows w
    (setDom (updateElement chatMessages
               (fun e => set_children (children e ++ [node]) e) (dom w)) w).
Proof.
  unfold transcriptGrows. cbn.
  destruct (dom w chatMessages) as [e|]; cbn; trivial.
  eexists. exists [node]. split; reflexivity.
Qed.

Ltac transcriptGrows_leaf :=
  intros ?;
  first [ apply transcriptGrows_append
        | apply transcriptGrows_same; reflexivity ].

Lemma processVoiceInput_keeps_transcript (audioBlob : Blob) :
  keeps transcriptGrows (processVoiceInput audioBlob).
Proof.
  unfold processVoiceInput.
  keeps_all transcriptGrows_refl transcriptGrows_trans transcriptGrows_leaf.
Qed.

Lemma sendTextMessage_keeps_transcript (message : JSValue) :
  keeps transcriptGrows (sendTextMessage message).
Proof.
  unfold sendTextMessage.
  keeps_all transcriptGrows_refl transcriptGrows_trans transcriptGrows_leaf.
Qed.

(** X9: The transcript is append-only.  A run of the pipeline or of the
    text entry point, however it ends, leaves every message that was in
    the transcript container in place and in order, and only adds after
    them; the container is neither created nor removed. *)
Theorem transcript_append_only
    (audioBlob : Blob) (message : JSValue) (w : World) :
  transcriptGrows w (snd (processVoiceInput audioBlob w))
  /\ transcriptGrows w (snd (sendTextMessage message w)).
Proof.
  split.
  - apply processVoiceInput_keeps_transcript.
  - apply sendTextMessage_keeps_transcript.
Qed.

End PipelineFrame.

Section SpeechOutput2.

Lemma filter_snoc (p : Event -> bool) (t : list Event) (e : Event) :
  filter p (t ++ [e]) = (filter p t ++ if p e then [e] else [])%list.
Proof. rewrite filter_app. cbn. now destruct (p e). Qed.

(** What [playAudioBuffer] does, on each of its two paths. *)
Lemma playAudioBuffer_run (audio : Blob) (w : World) :
  playAudioBuffer audio w
  = (Normal tt,
     if playable audio w
     then setTrace (trace w ++ [EPlay audio])
            (setDom (updateElement playbackIndicator
                       (set_display "inline-block") (dom w))
               (setThis (set_isPlaying true (this w)) w))
     else setTrace (trace w ++ [EConsole "Audio playback error:"])
            (setDom (updateElement playbackIndicator
                       (set_display "none") (dom w))
               (setThis (set_isPlaying false (this w)) w))).
Proof.
  unfold playAudioBuffer, updatePlaybackUI, playable. run.
  destruct (audioContext (this w) || hasAudioContext (page w));
    [|reflexivity].
  cbn [andb]. now destruct (decodable (page w) audio).
Qed.

(** X10: An answered synthesis call whose bytes can be read is played
    when they decode.  When they do not decode, [playAudioBuffer] catches
    the error itself: the playing flag goes down, the indicator is hidden,
    and the page's speech synthesis is not tried, so the reply stays
    silent.  When the bytes cannot be read at all, the catch block of
    [textToSpeech] runs instead: nothing is played, flag and page stay as
    they are, and the text goes to the page's speech synthesis, if it has
    one. *)
Theorem textToSpeech_answered (text : JSValue) (r : Response) (w : World) :
  nextFetch w = Resolved r ->
  ok r = true ->
  let w' := snd (textToSpeech text w) in
  fst (textToSpeech text w) = Normal tt
  /\ match rawBody r with
     | Some audio =>
         let plays := playable audio w in
         isPlaying (this w') = plays
         /\ option_map display (dom w' playbackIndicator)
            = option_map (fun _ => if plays then "inline-block" else "none")
                (dom w playbackIndicator)
         /\ filter isPlay (trace w')
            = (filter isPlay (trace w)
                 ++ if plays then [EPlay audio] else [])%list
         /\ filter isSpeak (trace w') = filter isSpeak (trace w)
     | None =>
         this w' = this w
         /\ dom w' = dom w
         /\ filter isPlay (trace w') = filter isPlay (trace w)
         /\ filter isSpeak (trace w')
            = (filter isSpeak (trace w)
                 ++ if hasSpeechSynthesis (page w)
                    then [ESpeak text (locale (currentLanguage (this w)))]
                    else [])%list
     end.
Proof.
  unfold nextFetch. intros Hf Hok. cbv zeta.
  unfold textToSpeech, fallbackTextToSpeech. run. rewrite Hf, Hok.
  cbn [negb]. destruct (rawBody r) as [audio|]; cbv beta iota.
  - rewrite playAudioBuffer_run.
    match goal with
    | |- context [playable audio ?w1] =>
        change (playable audio w1) with (playable audio w)
    end.
    destruct (playable audio w); cbn [fst snd this setThis setTrace
      setDom dom trace isPlaying set_isPlaying updateElement ElementId_eqb];
      rewrite !filter_snoc; cbn [isPlay isSpeak]; rewrite ?app_nil_r;
      repeat split; now destruct (dom w playbackIndicator).
  - cbn [page this trace].
    destruct (hasSpeechSynthesis (page w)) eqn:Hs;
      repeat (cbv beta iota; cbn [fst snd page this trace dom recorders];
              rewrite ?Hs);
      rewrite !filter_snoc; cbn [isPlay isSpeak]; rewrite ?app_nil_r;
      repeat split; reflexivity.
Qed.

Lemma textToSpeech_answered_witness :
  (let r := mkResponse 200 None (Some [0; 0]) in
   nextFetch garbledWorld = Resolved r
   /\ ok r = true
   /\ hasSpeechSynthesis (page garbledWorld) = true
   /\ fst (textToSpeech (VStr "hello") garbledWorld) = Normal tt
   /\ isPlaying (this (snd (textToSpeech (VStr "hello") garbledWorld)))
      = false
   /\ filter isSpeak
        (trace (snd (textToSpeech (VStr "hello") garbledWorld)))
      = [])
  /\ (let r := mkResponse 200 None None in
      nextFetch truncatedWorld = Resolved r
      /\ ok r = true
      /\ fst (textToSpeech (VStr "hello") truncatedWorld) = Normal tt
      /\ filter isPlay
           (trace (snd (textToSpeech (VStr "hello") truncatedWorld)))
         = []
      /\ filter isSpeak
           (trace (snd (textToSpeech (VStr "hello") truncatedWorld)))
         = [ESpeak (VStr "hello") "en-US"]).
Proof.
  cbv zeta. split.
  - pose proof (textToSpeech_answered (VStr "hello")
                  (mkResponse 200 None (Some [0; 0])) garbledWorld
                  eq_refl eq_refl)
      as (H1 & H2 & _ & _ & H5).
    repeat split; assumption.
  - pose proof (textToSpeech_answered (VStr "hello")
                  (mkResponse 200 None None) truncatedWorld
                  eq_refl eq_refl)
      as (H1 & _ & _ & H4 & H5).
    repeat split; assumption.
Defined.

End SpeechOutput2.

Section PlaybackSync.

Lemma staysInSync_refl (w : World) : staysInSync w w.
Proof. intros H. exact H. Qed.

Lemma staysInSync_trans (a b c : World) :
  staysInSync a b -> staysInSync b c -> staysInSync a c.
Proof. unfold staysInSync. auto. Qed.

Lemma playAudioBuffer_inSync (audio : Blob) (w : World) :
  playbackInSync (snd (playAudioBuffer audio w)).
Proof.
  rewrite playAudioBuffer_run. unfold playbackInSync.
  destruct (playable audio w); cbn;
    now destruct (dom w playbackIndicator).
Qed.

Lemma playbackEnded_inSync (w : World) :
  playbackInSync (snd (playbackEnded w)).
Proof.
  unfold playbackEnded, updatePlaybackUI, playbackInSync. run. cbn.
  now destruct (dom w playbackIndicator).
Qed.

Lemma utteranceStarted_inSync (w : World) :
  playbackInSync (snd (utteranceStarted w)).
Proof.
  unfold utteranceStarted, updatePlaybackUI, playbackInSync. run. cbn.
  now destruct (dom w playbackIndicator).
Qed.

Ltac staysInSync_leaf := intros ? H; exact H.

Lemma textToSpeech_keeps_sync (text : JSValue) :
  keeps staysInSync (textToSpeech text).
Proof.
  unfold textToSpeech.
  repeat first
    [ match goal with
      | |- keeps _ (playAudioBuffer _) =>
          intros ? _; apply playAudioBuffer_inSync
      end
    | keeps_step staysInSync_refl staysInSync_trans staysInSync_leaf
    | progress unfold emit, console, when, fetch, arrayBuffer,
        fallbackTextToSpeech ].
Qed.

Lemma processVoiceInput_keeps_sync (audioBlob : Blob) :
  keeps staysInSync (processVoiceInput audioBlob).
Proof.
  unfold processVoiceInput.
  repeat first
    [ match goal with
      | |- keeps _ (textToSpeech _) => apply textToSpeech_keeps_sync
      end
    | keeps_step staysInSync_refl staysInSync_trans staysInSync_leaf
    | progress unfold emit, console, modifyThis, withElement, when, json,
        mathRandom, prop, index0, callTrim, callToLowerCase, toStringOf,
        createMentalHealthPrompt, arrayBuffer, fetch,
        showProcessingIndicator, hideProcessingIndicator, showError,
        addMessageToChat, fallbackAddMessage, getFallbackResponse,
        enhanceResponse, extractGenerated, generateAIResponse,
        extractTranscript, fallbackSpeechToText, speechToText ].
Qed.

(** X11: The playback indicator follows the playing flag.  If the indicator
    (when the page has one) shows the flag before, it still does after
    [playAudioBuffer], after the end-of-playback and start-of-utterance
    handlers, after [textToSpeech] and after a whole run of the pipeline,
    however these end. *)
Theorem playback_indicator_in_sync
    (audio : Blob) (text : JSValue) (w : World) :
  playbackInSync w ->
  playbackInSync (snd (playAudioBuffer audio w))
  /\ playbackInSync (snd (playbackEnded w))
  /\ playbackInSync (snd (utteranceStarted w))
  /\ playbackInSync (snd (textToSpeech text w))
  /\ playbackInSync (snd (processVoiceInput audio w)).
Proof.
  intros H. repeat split.
  - apply playAudioBuffer_inSync.
  - apply playbackEnded_inSync.
  - apply utteranceStarted_inSync.
  - now apply textToSpeech_keeps_sync.
  - now apply processVoiceInput_keeps_sync.
Qed.

Lemma playback_indicator_in_sync_witness :
  playbackInSync quietWorld
  /\ playbackInSync (snd (playAudioBuffer [1; 2] quietWorld))
  /\ playbackInSync (snd (playbackEnded quietWorld))
  /\ playbackInSync (snd (utteranceStarted quietWorld))
  /\ playbackInSync (snd (textToSpeech (VStr "hello") quietWorld))
  /\ playbackInSync (snd (processVoiceInput [1; 2] quietWorld)).
Proof.
  split; [reflexivity|].
  apply (playback_indicator_in_sync [1; 2] (VStr "hello") quietWorld).
  reflexivity.
Defined.

End PlaybackSync.

(** ** Recording, start to stop *)

Section StartStop.

Lemma nth_snoc (l : list bool) (x : bool) :
  nth (List.length l) (l ++ [x]) false = x.
Proof. induction l as [|y l IH]; [reflexivity|exact IH]. Qed.

Lemma setNth_snoc (l : list bool) (x b : bool) :
  setNth (List.length l) b (l ++ [x]) = (l ++ [b])%list.
Proof. induction l as [|y l IH]; cbn; [reflexivity|now rewrite IH]. Qed.

(** With a stream at hand and a recorder that starts, the [try] block of
    [startVoiceRecording] runs through. *)
Lemma startVoiceRecording_with_stream (s : nat) (w : World) :
  stream (this w) = Some s ->
  startThrows (page w) (List.length (recorders w)) = false ->
  startVoiceRecording w
  = (Normal tt,
     mkWorld
       (set_isListening true
          (set_mediaRecorder (Some (List.length (recorders w)))
             (set_audioChunks [] (this w))))
       (voiceUI true (dom w))
       (recorders w ++ [true])
       ((trace w ++ [ERecorderStart (List.length (recorders w))])
          ++ [EConsole "Voice recording started"])
       (page w)).
Proof.
  intros Hs Hr. unfold startVoiceRecording, newMediaRecorder, recorderStart,
    updateVoiceUI, voiceUI. run.
  rewrite Hs. run. cbn [stream set_audioChunks]. rewrite Hs. run.
  cbn [recorders]. rewrite nth_snoc. run. rewrite Hr. run.
  rewrite setNth_snoc. reflexivity.
Qed.

(** With a stream at hand and a recorder that does not start, the [catch]
    block runs: the new recorder is already the controller's, the buffer
    is already empty, and nothing else has happened. *)
Lemma startVoiceRecording_refused (s : nat) (w : World) :
  stream (this w) = Some s ->
  startThrows (page w) (List.length (recorders w)) = true ->
  let w' := snd (startVoiceRecording w) in
  fst (startVoiceRecording w) = Normal tt
  /\ this w'
     = set_mediaRecorder (Some (List.length (recorders w)))
         (set_audioChunks [] (this w))
  /\ recorders w' = (recorders w ++ [false])%list
  /\ dom w' voiceError = bannerWith "Failed to start voice recording" w
  /\ (forall k, k <> voiceError -> dom w' k = dom w k).
Proof.
  intros Hs Hr. cbv zeta.
  unfold startVoiceRecording, newMediaRecorder, recorderStart, showError,
    bannerWith. run.
  rewrite Hs. run. cbn [stream set_audioChunks]. rewrite Hs. run.
  cbn [recorders]. rewrite nth_snoc. run. rewrite Hr. run.
  destruct (dom w voiceError) as [e|] eqn:He; run; cbn [fst snd];
    cbn [this dom recorders ElementId_eqb]; rewrite ?He;
    (do 4 (split; [reflexivity|])); intros k Hk;
    destruct k; try reflexivity; congruence.
Qed.

Lemma voiceUI_inSync (c : Controller) (d : DOM) (rs : list bool)
    (t : list Event) (p : Page) (listening : bool) :
  isListening c = listening ->
  voiceUIInSync (mkWorld c (voiceUI listening d) rs t p).
Proof.
  intros H. unfold voiceUIInSync, voiceUI. cbn. rewrite H.
  split; [|split].
  - destruct (d voiceBtn); cbn; auto.
  - destruct (d stopVoiceBtn); cbn; auto.
  - destruct (d voiceIndicator); cbn; auto.
Qed.

(** X12: With a stream at hand [startVoiceRecording] returns normally,
    having emptied the buffer and taken a fresh recorder as the
    controller's.  When the recorder starts, the listening flag is up, the
    controls match it and the new recorder runs.  When [start()] throws
    (the stream has ended), the catch block shows the banner "Failed to
    start voice recording": the flag and the controls are as before and
    the new recorder does not run.  Either way the recorders that existed
    before are left as they were. *)
Theorem startVoiceRecording_starts (s : nat) (w : World) :
  stream (this w) = Some s ->
  let w' := snd (startVoiceRecording w) in
  let id := List.length (recorders w) in
  fst (startVoiceRecording w) = Normal tt
  /\ mediaRecorder (this w') = Some id
  /\ audioChunks (this w') = []
  /\ if startThrows (page w) id
     then isListening (this w') = isListening (this w)
          /\ recorders w' = (recorders w ++ [false])%list
          /\ dom w' voiceError
             = bannerWith "Failed to start voice recording" w
          /\ (forall k, k <> voiceError -> dom w' k = dom w k)
     else isListening (this w') = true
          /\ recorders w' = (recorders w ++ [true])%list
          /\ voiceUIInSync w'.
Proof.
  intros Hs. cbv zeta.
  destruct (startThrows (page w) (List.length (recorders w))) eqn:Hr.
  - destruct (startVoiceRecording_refused s w Hs Hr)
      as (H1 & H2 & H3 & H4 & H5).
    rewrite H1, H2. cbn [mediaRecorder audioChunks isListening
      set_mediaRecorder set_audioChunks].
    repeat split; trivial.
  - rewrite (startVoiceRecording_with_stream s w Hs Hr).
    cbn [fst snd this recorders].
    do 5 (split; [reflexivity|]).
    now apply voiceUI_inSync.
Qed.

Lemma startVoiceRecording_starts_witness :
  (stream (this recordingWorld) = Some 7
   /\ fst (startVoiceRecording recordingWorld) = Normal tt
   /\ mediaRecorder (this (snd (startVoiceRecording recordingWorld)))
      = Some 1
   /\ audioChunks (this (snd (startVoiceRecording recordingWorld))) = []
   /\ isListening (this (snd (startVoiceRecording recordingWorld))) = true
   /\ recorders (snd (startVoiceRecording recordingWorld)) = [true; true]
   /\ voiceUIInSync (snd (startVoiceRecording recordingWorld)))
  /\ (stream (this endedWorld) = Some 7
      /\ fst (startVoiceRecording endedWorld) = Normal tt
      /\ mediaRecorder (this (snd (startVoiceRecording endedWorld)))
         = Some 0
      /\ audioChunks (this (snd (startVoiceRecording endedWorld))) = []
      /\ isListening (this (snd (startVoiceRecording endedWorld))) = false
      /\ recorders (snd (startVoiceRecording endedWorld)) = [false]
      /\ option_map textContent
           (dom (snd (startVoiceRecording endedWorld)) voiceError)
         = Some "Failed to start voice recording").
Proof.
  split.
  - split; [reflexivity|].
    exact (startVoiceRecording_starts 7 recordingWorld eq_refl).
  - split; [reflexivity|].
    destruct (startVoiceRecording_starts 7 endedWorld eq_refl)
      as (H1 & H2 & H3 & H4 & H5 & H6 & _).
    repeat split; assumption.
Defined.

Lemma nth_setNth_same (l : list bool) (i : nat) (b : bool) :
  i < List.length l -> nth i (setNth i b l) false = b.
Proof.
  revert i; induction l as [|x l IH]; intros [|i] H; cbn in *;
    try lia; [reflexivity|apply IH; lia].
Qed.

Lemma nth_setNth_other (l : list bool) (i k : nat) (b : bool) :
  k <> i -> nth k (setNth i b l) false = nth k l false.
Proof.
  revert i k; induction l as [|x l IH]; intros [|i] [|k] H; cbn;
    try reflexivity; try congruence.
  apply IH. congruence.
Qed.

Lemma nth_true_lt (l : list bool) (i : nat) :
  nth i l false = true -> i < List.length l.
Proof.
  intros H. destruct (Nat.lt_ge_cases i (List.length l)) as [L|L]; trivial.
  rewrite nth_overflow in H by exact L. discriminate.
Qed.

Lemma stopVoiceRecording_active (id : nat) (w : World) :
  mediaRecorder (this w) = Some id ->
  isListening (this w) = true ->
  stopVoiceRecording w
  = (Normal tt,
     mkWorld (set_isListening false (this w)) (voiceUI false (dom w))
       (stopped id (recorders w))
       ((trace w ++ if nth id (recorders w) false
                    then [ERecorderStop id] else [])
          ++ [EConsole "Voice recording stopped"])
       (page w)).
Proof.
  intros Hr Hl. unfold stopVoiceRecording, recorderStop, updateVoiceUI,
    voiceUI, stopped. run.
  rewrite Hr, Hl. run.
  destruct (nth id (recorders w) false); run;
    [reflexivity|now rewrite app_nil_r].
Qed.

Lemma stopVoiceRecording_idle_run (w : World) :
  isListening (this w) = false \/ mediaRecorder (this w) = None ->
  stopVoiceRecording w = (Normal tt, w).
Proof.
  intros H. unfold stopVoiceRecording. run.
  destruct (mediaRecorder (this w)) as [id|]; [|reflexivity].
  destruct H as [H|H]; [now rewrite H|discriminate].
Qed.

Lemma nth_stopped_same (id : nat) (rs : list bool) :
  nth id (stopped id rs) false = false.
Proof.
  unfold stopped. destruct (nth id rs false) eqn:Hn; [|exact Hn].
  now apply nth_setNth_same, nth_true_lt.
Qed.

Lemma nth_stopped_other (id k : nat) (rs : list bool) :
  k <> id -> nth k (stopped id rs) false = nth k rs false.
Proof.
  intros Hk. unfold stopped.
  destruct (nth id rs false); [now apply nth_setNth_other|reflexivity].
Qed.

(** X13: [stopVoiceRecording] with the listening flag up and a recorder
    held returns normally: afterwards that recorder does not record, no
    other recorder has changed, the flag is down, the controls match it,
    and the buffer is as it was (it waits for the recorder's last chunk).
    The recorder is told to stop once if it was recording; if it had
    stopped already, [stop()] does nothing and the flag is lowered all the
    same. *)
Theorem stopVoiceRecording_stops (id : nat) (w : World) :
  mediaRecorder (this w) = Some id ->
  isListening (this w) = true ->
  let w' := snd (stopVoiceRecording w) in
  fst (stopVoiceRecording w) = Normal tt
  /\ isListening (this w') = false
  /\ nth id (recorders w') false = false
  /\ (forall k, k <> id ->
                nth k (recorders w') false = nth k (recorders w) false)
  /\ audioChunks (this w') = audioChunks (this w)
  /\ voiceUIInSync w'
  /\ filter isRecorderStop (trace w')
     = (filter isRecorderStop (trace w)
          ++ if nth id (recorders w) false
             then [ERecorderStop id] else [])%list.
Proof.
  intros Hr Hl. cbv zeta. rewrite (stopVoiceRecording_active id w Hr Hl).
  cbn [fst snd this recorders trace].
  split; [reflexivity|]. split; [reflexivity|].
  split; [apply nth_stopped_same|].
  split; [intros k Hk; now apply nth_stopped_other|].
  split; [reflexivity|]. split; [now apply voiceUI_inSync|].
  rewrite !filter_app. cbn [filter isRecorderStop]. rewrite app_nil_r.
  now destruct (nth id (recorders w) false).
Qed.

Lemma stopVoiceRecording_stops_witness :
  (mediaRecorder (this recordingWorld) = Some 0
   /\ isListening (this recordingWorld) = true
   /\ nth 0 (recorders recordingWorld) false = true
   /\ fst (stopVoiceRecording recordingWorld) = Normal tt
   /\ isListening (this (snd (stopVoiceRecording recordingWorld))) = false
   /\ nth 0 (recorders (snd (stopVoiceRecording recordingWorld))) false
      = false
   /\ audioChunks (this (snd (stopVoiceRecording recordingWorld)))
      = audioChunks (this recordingWorld)
   /\ voiceUIInSync (snd (stopVoiceRecording recordingWorld))
   /\ filter isRecorderStop
        (trace (snd (stopVoiceRecording recordingWorld)))
      = [ERecorderStop 0])
  /\ (mediaRecorder (this staleWorld) = Some 0
      /\ isListening (this staleWorld) = true
      /\ nth 0 (recorders staleWorld) false = false
      /\ fst (stopVoiceRecording staleWorld) = Normal tt
      /\ isListening (this (snd (stopVoiceRecording staleWorld))) = false
      /\ voiceUIInSync (snd (stopVoiceRecording staleWorld))
      /\ filter isRecorderStop
           (trace (snd (stopVoiceRecording staleWorld)))
         = []).
Proof.
  split.
  - do 3 (split; [reflexivity|]).
    destruct (stopVoiceRecording_stops 0 recordingWorld eq_refl eq_refl)
      as (H1 & H2 & H3 & _ & H5 & H6 & H7).
    repeat split; assumption.
  - do 3 (split; [reflexivity|]).
    destruct (stopVoiceRecording_stops 0 staleWorld eq_refl eq_refl)
      as (H1 & H2 & _ & _ & _ & H6 & H7).
    repeat split; assumption.
Defined.

(** X14: Starting does not stop what was running.  With a stream at hand, a
    start followed by a stop creates one fresh recorder and stops that
    one: the flag is down again, and every recorder that was running
    before the start is still running after the stop, out of the
    controller's reach. *)
Theorem restart_leaves_old_recorder_running (s : nat) (w : World) :
  stream (this w) = Some s ->
  let w1 := snd (startVoiceRecording w) in
  let w2 := snd (stopVoiceRecording w1) in
  fst (stopVoiceRecording w1) = Normal tt
  /\ isListening (this w2) = false
  /\ recorders w2 = (recorders w ++ [false])%list
  /\ forall k, nth k (recorders w) false = true ->
               nth k (recorders w2) false = true.
Proof.
  intros Hs. cbv zeta.
  assert (Hold : forall k, nth k (recorders w) false = true ->
                           nth k (recorders w ++ [false]) false = true).
  { intros k Hk. rewrite app_nth1 by now apply nth_true_lt. exact Hk. }
  destruct (startThrows (page w) (List.length (recorders w))) eqn:Hr.
  - destruct (startVoiceRecording_refused s w Hs Hr)
      as (_ & Ht & Hrs & _ & _).
    set (w1 := snd (startVoiceRecording w)) in *.
    assert (Hm : mediaRecorder (this w1) = Some (List.length (recorders w)))
      by now rewrite Ht.
    assert (Hl : isListening (this w1) = isListening (this w))
      by now rewrite Ht.
    destruct (isListening (this w)) eqn:Hlw.
    + rewrite (stopVoiceRecording_active _ w1 Hm Hl).
      cbn [fst snd this recorders isListening set_isListening].
      unfold stopped. rewrite Hrs, nth_snoc.
      do 3 (split; [reflexivity|]). exact Hold.
    + rewrite stopVoiceRecording_idle_run by now left.
      cbn [fst snd]. rewrite Hl, Hrs.
      do 3 (split; [reflexivity|]). exact Hold.
  - rewrite (startVoiceRecording_with_stream s w Hs Hr).
    cbn [snd].
    rewrite (stopVoiceRecording_active (List.length (recorders w)))
      by reflexivity.
    unfold stopped. cbn [recorders]. rewrite nth_snoc.
    cbn [fst snd this recorders].
    rewrite setNth_snoc.
    do 3 (split; [reflexivity|]). exact Hold.
Qed.

Lemma restart_leaves_old_recorder_running_witness :
  stream (this recordingWorld) = Some 7
  /\ nth 0 (recorders recordingWorld) false = true
  /\ fst (stopVoiceRecording (snd (startVoiceRecording recordingWorld)))
     = Normal tt
  /\ isListening
       (this (snd (stopVoiceRecording
                     (snd (startVoiceRecording recordingWorld))))) = false
  /\ recorders (snd (stopVoiceRecording
                       (snd (startVoiceRecording recordingWorld))))
     = [true; false]
  /\ forall k, nth k (recorders recordingWorld) false = true ->
               nth k (recorders
                        (snd (stopVoiceRecording
                                (snd (startVoiceRecording recordingWorld)))))
                 false = true.
Proof.
  split; [reflexivity|]. split; [reflexivity|].
  exact (restart_leaves_old_recorder_running 7 recordingWorld eq_refl).
Defined.

End StartStop.

Section VoiceUI.

Lemma keepsVoiceUI_refl (w : World) : keepsVoiceUI w w.
Proof. intros H. exact H. Qed.

Lemma keepsVoiceUI_trans (a b c : World) :
  keepsVoiceUI a b -> keepsVoiceUI b c -> keepsVoiceUI a c.
Proof. unfold keepsVoiceUI. auto. Qed.

Ltac keepsVoiceUI_leaf := intros ? H; exact H.

Lemma initializeAudio_keeps_voiceUI : keeps keepsVoiceUI initializeAudio.
Proof.
  unfold initializeAudio.
  keeps_all keepsVoiceUI_refl keepsVoiceUI_trans keepsVoiceUI_leaf.
Qed.

(** [startVoiceRecording] returns, or waits for ever on the permission
    prompt; it never throws. *)
Lemma startVoiceRecording_ends (w : World) :
  fst (startVoiceRecording w) = Normal tt
  \/ fst (startVoiceRecording w) = Suspended.
Proof.
  unfold startVoiceRecording.
  match goal with
  | |- context [tryCatch ?b ?h] => set (block := tryCatch b h)
  end.
  assert (Hb : forall w1, fst (block w1) = Normal tt).
  { intros [[l p r ch lang key st ctx ov] d rs t pg].
    unfold block, newMediaRecorder, recorderStart, updateVoiceUI, showError.
    run. cbn [stream set_audioChunks].
    destruct st; run; cbn [recorders].
    - destruct (nth _ _ _); run;
        [|destruct (startThrows pg _); run; [|reflexivity]];
        now destruct (d voiceError).
    - now destruct (d voiceError). }
  unfold bind, gets.
  destruct (stream (this w)); [left; apply Hb|].
  destruct (initializeAudio_run w) as [_ [E|E]];
    destruct (initializeAudio w) as [c w1]; cbn in E; subst c;
    [left; apply Hb|now right].
Qed.

Lemma startVoiceRecording_keeps_voiceUI (w : World) :
  voiceUIInSync w -> voiceUIInSync (snd (startVoiceRecording w)).
Proof.
  assert (Hb : forall w1 s, stream (this w1) = Some s ->
                            voiceUIInSync w1 ->
                            voiceUIInSync (snd (startVoiceRecording w1))).
  { intros w1 s Hs H1.
    destruct (startThrows (page w1) (List.length (recorders w1))) eqn:Hr.
    - destruct (startVoiceRecording_refused s w1 Hs Hr)
        as (_ & Ht & _ & _ & Hd).
      unfold voiceUIInSync in *.
      rewrite Ht, !Hd by discriminate. exact H1.
    - rewrite (startVoiceRecording_with_stream s w1 Hs Hr).
      now apply voiceUI_inSync. }
  intros H. destruct (stream (this w)) as [s|] eqn:Hs; [now apply (Hb w s)|].
  unfold startVoiceRecording. unfold bind at 1, gets at 1. rewrite Hs.
  unfold bind at 1.
  pose proof (initializeAudio_keeps_voiceUI w H) as H1.
  destruct (initializeAudio w) as [[[]|e|] w1]; cbn [snd] in *; trivial.
  destruct (stream (this w1)) as [s|] eqn:Hs1.
  - specialize (Hb w1 s Hs1 H1). unfold startVoiceRecording in Hb.
    unfold bind at 1, gets at 1 in Hb. rewrite Hs1 in Hb.
    exact Hb.
  - unfold newMediaRecorder, showError. run.
    cbn [stream set_audioChunks]. rewrite Hs1. run.
    destruct (dom w1 voiceError); exact H1.
Qed.

Lemma stopVoiceRecording_keeps_voiceUI (w : World) :
  voiceUIInSync w -> voiceUIInSync (snd (stopVoiceRecording w)).
Proof.
  intros H.
  destruct (mediaRecorder (this w)) as [id|] eqn:Hr;
    [destruct (isListening (this w)) eqn:Hl|].
  - rewrite (stopVoiceRecording_active id w Hr Hl).
    now apply voiceUI_inSync.
  - rewrite stopVoiceRecording_idle_run by now left. exact H.
  - rewrite stopVoiceRecording_idle_run by now right. exact H.
Qed.

(** X15: The recording controls follow the listening flag.  If the record
    button, the stop button and the recording indicator (those the page
    has) show the flag before, they still do after [startVoiceRecording],
    [stopVoiceRecording] and [toggleVoiceRecording], whether these
    succeed, fail or hang. *)
Theorem voice_controls_in_sync (w : World) :
  voiceUIInSync w ->
  voiceUIInSync (snd (startVoiceRecording w))
  /\ voiceUIInSync (snd (stopVoiceRecording w))
  /\ voiceUIInSync (snd (toggleVoiceRecording w)).
Proof.
  intros H. split; [|split].
  - now apply startVoiceRecording_keeps_voiceUI.
  - now apply stopVoiceRecording_keeps_voiceUI.
  - unfold toggleVoiceRecording, bind, gets.
    destruct (isListening (this w)).
    + now apply stopVoiceRecording_keeps_voiceUI.
    + now apply startVoiceRecording_keeps_voiceUI.
Qed.

Lemma voice_controls_in_sync_witness :
  voiceUIInSync readyWorld
  /\ voiceUIInSync (snd (startVoiceRecording readyWorld))
  /\ voiceUIInSync (snd (stopVoiceRecording readyWorld))
  /\ voiceUIInSync (snd (toggleVoiceRecording readyWorld)).
Proof.
  assert (H : voiceUIInSync readyWorld) by (repeat split).
  split; [exact H|].
  exact (voice_controls_in_sync readyWorld H).
Defined.

End VoiceUI.

Section Permission.

(** X16: [initializeAudio] never throws.  It asks for the microphone only when
    the page has an [AudioContext]; it stores the stream only when the
    request is granted; when the request is refused, and also when it was
    never made, it shows the banner "Microphone access denied...". *)
Theorem initializeAudio_outcomes (w : World) :
  let r := initializeAudio w in
  let denied :=
    bannerWith "Microphone access denied. Voice features will be limited."
      w in
  let asked := count isGetUserMedia (trace w) in
  if hasAudioContext (page w) then
    count isGetUserMedia (trace (snd r)) = S asked
    /\ match userMediaResult (page w) asked with
       | Resolved s =>
           fst r = Normal tt /\ stream (this (snd r)) = Some s
           /\ dom (snd r) voiceError = dom w voiceError
       | Rejected _ =>
           fst r = Normal tt /\ stream (this (snd r)) = stream (this w)
           /\ dom (snd r) voiceError = denied
       | NeverSettles =>
           fst r = Suspended /\ stream (this (snd r)) = stream (this w)
       end
  else
    fst r = Normal tt
    /\ count isGetUserMedia (trace (snd r)) = asked
    /\ stream (this (snd r)) = stream (this w)
    /\ dom (snd r) voiceError = denied.
Proof.
  cbv zeta. unfold initializeAudio, showError, bannerWith. run.
  destruct (hasAudioContext (page w)); run.
  - destruct (userMediaResult _ _); run.
    + cbn -[count]. rewrite !count_app. cbn. split; [lia|]. now repeat split.
    + destruct (dom w voiceError) eqn:Hd; cbn -[count];
        rewrite ?Hd, !count_app; cbn; (split; [lia|]); now repeat split.
    + cbn -[count]. rewrite !count_app. cbn. split; [lia|]. now repeat split.
  - destruct (dom w voiceError) eqn:Hd; cbn -[count];
      rewrite ?Hd, !count_app; cbn; repeat split; lia.
Qed.

(** X17: Without a stream and without a microphone to get one,
    [startVoiceRecording] still returns normally.  No recorder is made and
    the listening flag and the recorder reference are as before, but the
    buffer has been emptied all the same, and the banner ends up saying
    "Failed to start voice recording" (over the message of
    [initializeAudio]). *)
Theorem startVoiceRecording_without_microphone (w : World) :
  stream (this w) = None ->
  hasAudioContext (page w) = false
  \/ (exists e, userMediaResult (page w) (count isGetUserMedia (trace w))
                = Rejected e) ->
  let w' := snd (startVoiceRecording w) in
  fst (startVoiceRecording w) = Normal tt
  /\ isListening (this w') = isListening (this w)
  /\ mediaRecorder (this w') = mediaRecorder (this w)
  /\ recorders w' = recorders w
  /\ audioChunks (this w') = []
  /\ dom w' voiceError = bannerWith "Failed to start voice recording" w.
Proof.
  intros Hs Hm. cbv zeta.
  unfold startVoiceRecording, initializeAudio, newMediaRecorder, showError,
    bannerWith. run. rewrite Hs. run.
  destruct (hasAudioContext (page w)) eqn:Ha.
  - destruct Hm as [Hm|[e Hm]]; [discriminate|]. run. rewrite Hm. run.
    cbn [ElementId_eqb]. destruct (dom w voiceError) eqn:Hd; run;
      do 3 (cbn; rewrite ?Hs, ?Hd); repeat split; reflexivity.
  - run. destruct (dom w voiceError) eqn:Hd; run;
      do 3 (cbn; rewrite ?Hs, ?Hd); repeat split; reflexivity.
Qed.

Lemma startVoiceRecording_without_microphone_witness :
  stream (this offlineWorld) = None
  /\ fst (startVoiceRecording offlineWorld) = Normal tt
  /\ isListening (this (snd (startVoiceRecording offlineWorld))) = false
  /\ mediaRecorder (this (snd (startVoiceRecording offlineWorld))) = None
  /\ recorders (snd (startVoiceRecording offlineWorld)) = []
  /\ audioChunks (this (snd (startVoiceRecording offlineWorld))) = []
  /\ dom (snd (startVoiceRecording offlineWorld)) voiceError
     = bannerWith "Failed to start voice recording" offlineWorld.
Proof.
  split; [reflexivity|].
  apply (startVoiceRecording_without_microphone offlineWorld eq_refl).
  right. now exists (DOMException "NotAllowedError").
Defined.

End Permission.

Section VoiceToText.

Lemma sameOverrides_refl (w : World) : sameOverrides w w.
Proof. reflexivity. Qed.

Lemma sameOverrides_trans (a b c : World) :
  sameOverrides a b -> sameOverrides b c -> sameOverrides a c.
Proof. unfold sameOverrides. congruence. Qed.

Ltac sameOverrides_leaf := intros ?; reflexivity.

Lemma startVoiceRecording_keeps_overrides :
  keeps sameOverrides startVoiceRecording.
Proof.
  unfold startVoiceRecording, initializeAudio, newMediaRecorder,
    recorderStart.
  keeps_all sameOverrides_refl sameOverrides_trans sameOverrides_leaf.
Qed.

(** X18: [voiceToTextOnly] never reaches its own catch block, because
    [startVoiceRecording] catches what goes wrong itself.  So unless the
    permission prompt hangs, the override of [processVoiceInput] is
    installed, one level deeper than before, also when the recording
    could not start; and nothing is logged or shown beyond what
    [startVoiceRecording] did. *)
Theorem voiceToTextOnly_always_installs (w : World) :
  fst (startVoiceRecording w) <> Suspended ->
  let w1 := snd (startVoiceRecording w) in
  let w' := snd (voiceToTextOnly w) in
  fst (voiceToTextOnly w) = Normal tt
  /\ overrides (this w') = S (overrides (this w))
  /\ isListening (this w') = isListening (this w1)
  /\ trace w' = trace w1
  /\ dom w' = dom w1.
Proof.
  intros Hend. cbv zeta.
  pose proof (startVoiceRecording_keeps_overrides w) as Ho.
  unfold sameOverrides in Ho.
  unfold voiceToTextOnly, tryCatch, bind.
  destruct (startVoiceRecording_ends w) as [E|E]; [|congruence].
  destruct (startVoiceRecording w) as [c w1]. cbn [fst snd] in *. subst c.
  unfold modifyThis, modify. cbn. now rewrite Ho.
Qed.

Lemma voiceToTextOnly_always_installs_witness :
  fst (startVoiceRecording offlineWorld) <> Suspended
  /\ fst (voiceToTextOnly offlineWorld) = Normal tt
  /\ overrides (this (snd (voiceToTextOnly offlineWorld))) = 1
  /\ isListening (this (snd (voiceToTextOnly offlineWorld))) = false.
Proof.
  assert (H : fst (startVoiceRecording offlineWorld) <> Suspended)
    by discriminate.
  split; [exact H|].
  destruct (voiceToTextOnly_always_installs offlineWorld H)
    as (H1 & H2 & H3 & _).
  split; [exact H1|]. split; [exact H2|exact H3].
Defined.

End VoiceToText.

(** ** The transcription-only override *)

Section TranscribeOnly.

Lemma transcriptEntries_emit (e : Event) (w : World) :
  isHostAddMessage e = false ->
  transcriptEntries (setTrace (trace w ++ [e]) w) = transcriptEntries w.
Proof.
  intros H. unfold transcriptEntries. cbn [trace dom setTrace].
  now rewrite filter_snoc, H, app_nil_r.
Qed.

Lemma transcribing_refl (w : World) : transcribing w w.
Proof. split; [reflexivity|apply extendsBy_refl]. Qed.

Lemma transcribing_trans (a b c : World) :
  transcribing a b -> transcribing b c -> transcribing a c.
Proof.
  intros [H1 H2] [K1 K2]. split; [congruence|].
  eapply extendsBy_trans; eauto.
Qed.

Ltac transcribing_leaf :=
  intros ?; split;
  [ first [ reflexivity | apply transcriptEntries_emit; reflexivity ]
  | first [ apply extendsBy_emit; reflexivity
          | apply extendsBy_same; reflexivity ] ].

Lemma transcribeOnly_keeps_transcribing (audioBlob : Blob) :
  keeps transcribing (transcribeOnly audioBlob).
Proof.
  unfold transcribeOnly.
  keeps_all transcribing_refl transcribing_trans transcribing_leaf.
Qed.

(** The body of [transcribeOnly] before the override is put back. *)
Lemma transcribeOnly_run (audioBlob : Blob) (w : World) :
  exists c w1,
    transcribeOnly audioBlob w
    = match c with
      | Normal _ =>
          (Normal tt,
           setThis (set_overrides (pred (overrides (this w1))) (this w1)) w1)
      | Throw e => (Throw e, w1)
      | Suspended => (Suspended, w1)
      end
    /\ overrides (this w1) = overrides (this w)
    /\ endsHidden (c, w1).
Proof.
  unfold transcribeOnly. unfold bind at 1.
  match goal with
  | |- context [tryCatch ?b ?h] => set (inner := tryCatch b h)
  end.
  assert (Ho : keeps sameOverrides inner).
  { unfold inner.
    keeps_all sameOverrides_refl sameOverrides_trans
      ltac:(intros ?; reflexivity). }
  assert (Hh : endsHidden (inner w)).
  { unfold inner. apply guarded_endsHidden.
    repeat (apply bind_hides; intros ?).
    apply hideProcessingIndicator_hides. }
  specialize (Ho w). unfold sameOverrides in Ho.
  destruct (inner w) as [c w1]. exists c, w1. cbn [snd] in Ho.
  split; [now destruct c|]. split; [exact Ho|exact Hh].
Qed.

(** X19: A run of the transcription-only override never touches the
    transcript and talks to no model but the speech-to-text one.  It does
    not throw.  When it ends, the processing indicator is hidden and the
    override is taken off again (one level); while the transcription
    hangs, the override stays on. *)
Theorem transcribeOnly_frame (audioBlob : Blob) (w : World) :
  let r := transcribeOnly audioBlob w in
  transcriptEntries (snd r) = transcriptEntries w
  /\ (exists added,
        trace (snd r) = (trace w ++ added)%list
        /\ forallb transcribeEvent added = true)
  /\ match fst r with
     | Normal _ =>
         overrides (this (snd r)) = pred (overrides (this w))
         /\ indicatorHidden (snd r)
     | Throw _ => False
     | Suspended => overrides (this (snd r)) = overrides (this w)
     end.
Proof.
  cbv zeta.
  destruct (transcribeOnly_keeps_transcribing audioBlob w) as [H1 H2].
  split; [exact H1|]. split; [exact H2|].
  destruct (transcribeOnly_run audioBlob w) as (c & w1 & -> & Ho & Hh).
  unfold endsHidden in Hh. cbn [fst snd] in Hh.
  destruct c as [[]|e|]; cbn [fst snd this setThis overrides set_overrides];
    [split; [now rewrite Ho|exact Hh] | exact Hh | exact Ho].
Qed.

End TranscribeOnly.

Section TranscribeOnly2.

(** X20: Under the override an answered transcription goes to the text input
    and nowhere else; one request was made and the override is off again.
    A string transcription becomes the input's value and the input gets
    the focus, unless the string is empty: then the input is left alone.
    A transcription that cannot be converted to a string (the service
    sent an object with a "toString" key) makes the assignment throw: the
    input is left alone and, when the page has the input, the banner says
    "Failed to convert speech to text". *)
Theorem transcribeOnly_fills_input
    (audioBlob : Blob) (body v : JSValue) (r : Response) (w : World) :
  nextFetch w = Resolved r ->
  ok r = true ->
  jsonBody r = Some body ->
  (forall w0, extractTranscript body w0 = (Normal v, w0)) ->
  let w' := snd (transcribeOnly audioBlob w) in
  fst (transcribeOnly audioBlob w) = Normal tt
  /\ count isFetch (trace w') = S (count isFetch (trace w))
  /\ overrides (this w') = pred (overrides (this w))
  /\ (isString v = true ->
      dom w' chatInput
      = if truthy v
        then option_map (fun e => set_focused true (set_value v e))
               (dom w chatInput)
        else dom w chatInput)
  /\ (truthy v = true -> convertible v = false ->
      dom w' chatInput = dom w chatInput
      /\ (dom w chatInput <> None ->
          dom w' voiceError
          = bannerWith "Failed to convert speech to text" w)).
Proof.
  intros Hf Hok Hj Hx. cbv zeta.
  unfold transcribeOnly, showProcessingIndicator, hideProcessingIndicator,
    showError, bannerWith.
  run.
  rewrite (speechToText_answered audioBlob body r) by assumption.
  unfold tryCatch. rewrite Hx. run.
  destruct (truthy v) eqn:Ht; run; cbn [ElementId_eqb].
  2:{ cbn -[count]; rewrite count_app; cbn.
      repeat split; try lia; discriminate. }
  destruct (dom w chatInput) as [e|] eqn:He; run.
  2:{ cbn -[count]; rewrite ?count_app; cbn. rewrite ?He.
      repeat split; try lia; congruence. }
  destruct (convertible v) eqn:Hc; run; cbn [ElementId_eqb].
  - cbn -[count]; rewrite ?count_app; cbn. rewrite ?He.
    repeat split; try lia; discriminate.
  - assert (Hs : isString v = false)
      by (destruct v; try reflexivity; discriminate Hc).
    destruct (dom w voiceError) as [b|] eqn:Hb; run;
      cbn -[count]; rewrite ?count_app; cbn; rewrite ?He, ?Hb;
      repeat split; try lia; congruence.
Qed.

Lemma transcribeOnly_fills_input_witness :
  (let body := VObj [("text", VStr "I feel anxious")] in
   let r := mkResponse 200 (Some body) (Some []) in
   let w := servedWorld (VStr "I feel anxious") in
   nextFetch w = Resolved r
   /\ ok r = true
   /\ jsonBody r = Some body
   /\ (forall w0,
         extractTranscript body w0 = (Normal (VStr "I feel anxious"), w0))
   /\ fst (transcribeOnly [1; 2; 3] w) = Normal tt
   /\ count isFetch (trace (snd (transcribeOnly [1; 2; 3] w))) = 1
   /\ overrides (this (snd (transcribeOnly [1; 2; 3] w))) = 0
   /\ dom (snd (transcribeOnly [1; 2; 3] w)) chatInput
      = Some (set_focused true
                (set_value (VStr "I feel anxious") blankElement)))
  /\ (let v := VObj [("toString", VNum 0%float)] in
      let body := VObj [("text", v)] in
      let r := mkResponse 200 (Some body) (Some []) in
      let w := servedWorld v in
      nextFetch w = Resolved r
      /\ ok r = true
      /\ jsonBody r = Some body
      /\ (forall w0, extractTranscript body w0 = (Normal v, w0))
      /\ truthy v = true
      /\ convertible v = false
      /\ fst (transcribeOnly [1; 2; 3] w) = Normal tt
      /\ dom (snd (transcribeOnly [1; 2; 3] w)) chatInput = dom w chatInput
      /\ option_map textContent
           (dom (snd (transcribeOnly [1; 2; 3] w)) voiceError)
         = Some "Failed to convert speech to text").
Proof.
  cbv zeta. split.
  - assert (Hx : forall w0,
               extractTranscript (VObj [("text", VStr "I feel anxious")]) w0
               = (Normal (VStr "I feel anxious"), w0))
      by (intros w0; reflexivity).
    do 3 (split; [reflexivity|]). split; [exact Hx|].
    destruct (transcribeOnly_fills_input [1; 2; 3]
                (VObj [("text", VStr "I feel anxious")])
                (VStr "I feel anxious")
                (mkResponse 200
                   (Some (VObj [("text", VStr "I feel anxious")]))
                   (Some []))
                (servedWorld (VStr "I feel anxious"))
                eq_refl eq_refl eq_refl Hx)
      as (H1 & H2 & H3 & H4 & _).
    do 3 (split; [assumption|]). exact (H4 eq_refl).
  - assert (Hx : forall w0,
               extractTranscript
                 (VObj [("text", VObj [("toString", VNum 0%float)])]) w0
               = (Normal (VObj [("toString", VNum 0%float)]), w0))
      by (intros w0; reflexivity).
    do 3 (split; [reflexivity|]). split; [exact Hx|].
    do 2 (split; [reflexivity|]).
    destruct (transcribeOnly_fills_input [1; 2; 3]
                (VObj [("text", VObj [("toString", VNum 0%float)])])
                (VObj [("toString", VNum 0%float)])
                (mkResponse 200
                   (Some (VObj [("text", VObj [("toString", VNum 0%float)])]))
                   (Some []))
                (servedWorld (VObj [("toString", VNum 0%float)]))
                eq_refl eq_refl eq_refl Hx)
      as (H1 & _ & _ & _ & H5).
    destruct (H5 eq_refl eq_refl) as [H6 H7].
    split; [exact H1|]. split; [exact H6|].
    rewrite H7 by discriminate. reflexivity.
Defined.

End TranscribeOnly2.

(** ** What is sent for transcription *)

Section RecordedAudio.

Lemma grows_refl (w : World) : grows w w.
Proof. apply extendsBy_refl. Qed.

Lemma grows_trans (a b c : World) : grows a b -> grows b c -> grows a c.
Proof. apply extendsBy_trans. Qed.

Ltac grows_leaf :=
  intros ?;
  first [ apply extendsBy_emit; reflexivity
        | apply extendsBy_same; reflexivity ].

Lemma tryCatch_bind {A B} (m : M A) (k : A -> M B) (h : JSError -> M B)
    (w : World) :
  tryCatch (bind m k) h w
  = match m w with
    | (Normal a, w1) => tryCatch (k a) h w1
    | (Throw e, w1) => h e w1
    | (Suspended, w1) => (Suspended, w1)
    end.
Proof. unfold tryCatch, bind. now destruct (m w) as [[a|e|] w1]. Qed.

Lemma grows_after (e : Event) (w w1 w2 : World) (sent : list Event) :
  trace w1 = (trace w ++ e :: sent)%list -> grows w1 w2 ->
  exists rest, trace w2 = (trace w ++ e :: rest)%list.
Proof.
  intros E (added & Ea & _). exists (sent ++ added)%list.
  now rewrite Ea, E, <- app_assoc.
Qed.

Lemma fetch_run (req : Request) (w : World) :
  fetch req w
  = (match nextFetch w with
     | Resolved r => Normal r
     | Rejected e => Throw e
     | NeverSettles => Suspended
     end,
     setTrace (trace w ++ [EFetch req]) w).
Proof. unfold fetch, nextFetch. run. now destruct (fetchResult _ _). Qed.

(** The first thing [speechToText] does is send the audio. *)
Lemma speechToText_first (audioBlob : Blob) (w : World) :
  exists rest,
    trace (snd (speechToText audioBlob w))
    = (trace w ++ EFetch (sttRequest audioBlob w) :: rest)%list.
Proof.
  unfold speechToText. rewrite tryCatch_bind. unfold gets at 1.
  rewrite tryCatch_bind, fetch_run. fold (sttRequest audioBlob w).
  set (w1 := setTrace (trace w ++ [EFetch (sttRequest audioBlob w)]) w).
  assert (E1 : trace w1 = (trace w ++ [EFetch (sttRequest audioBlob w)])%list)
    by reflexivity.
  destruct (nextFetch w) as [r|e|].
  - eapply grows_after; [exact E1|].
    match goal with
    | |- grows _ (snd (tryCatch ?b ?h _)) =>
        assert (K : keeps grows (tryCatch b h))
          by (keeps_all grows_refl grows_trans grows_leaf)
    end.
    apply K.
  - eapply grows_after; [exact E1|].
    match goal with
    | |- grows _ (snd (?m _)) =>
        assert (K : keeps grows m)
          by (keeps_all grows_refl grows_trans grows_leaf)
    end.
    apply K.
  - exists []. exact E1.
Qed.

Lemma processVoiceInput_first (audioBlob : Blob) (w : World) :
  exists rest,
    trace (snd (processVoiceInput audioBlob w))
    = (trace w ++ EFetch (sttRequest audioBlob w) :: rest)%list.
Proof.
  unfold processVoiceInput. rewrite tryCatch_bind.
  unfold showProcessingIndicator at 1, withElement at 1, modify at 1.
  cbv beta iota. rewrite tryCatch_bind.
  match goal with
  | |- context [speechToText audioBlob ?w0] =>
      destruct (speechToText_first audioBlob w0) as (sent & E);
      destruct (speechToText audioBlob w0) as [[t|e|] w1]
  end; cbn [snd] in E.
  - eapply grows_after; [exact E|].
    match goal with
    | |- grows _ (snd (tryCatch ?b ?h _)) =>
        assert (K : keeps grows (tryCatch b h))
          by (keeps_all grows_refl grows_trans grows_leaf)
    end.
    apply K.
  - eapply grows_after; [exact E|].
    match goal with
    | |- grows _ (snd (?m _)) =>
        assert (K : keeps grows m)
          by (keeps_all grows_refl grows_trans grows_leaf)
    end.
    apply K.
  - exists sent. exact E.
Qed.

Lemma transcribeOnly_first (audioBlob : Blob) (w : World) :
  exists rest,
    trace (snd (transcribeOnly audioBlob w))
    = (trace w ++ EFetch (sttRequest audioBlob w) :: rest)%list.
Proof.
  assert (H : forall A (m : M A) (k : A -> M unit) e w0 sent,
             trace (snd (m w0)) = (trace w0 ++ e :: sent)%list ->
             (forall a, keeps grows (k a)) ->
             exists rest,
               trace (snd (bind m k w0)) = (trace w0 ++ e :: rest)%list).
  { intros A m k e w0 sent E Hk. unfold bind.
    destruct (m w0) as [[a|x|] w1]; cbn [snd] in *;
      [|now exists sent|now exists sent].
    eapply grows_after; [exact E|apply Hk]. }
  unfold transcribeOnly.
  match goal with
  | |- context [tryCatch ?b ?h] => set (inner := tryCatch b h)
  end.
  assert (F : exists sent,
             trace (snd (inner w))
             = (trace w ++ EFetch (sttRequest audioBlob w) :: sent)%list).
  { unfold inner. rewrite tryCatch_bind.
    unfold showProcessingIndicator at 1, withElement at 1, modify at 1.
    cbv beta iota. rewrite tryCatch_bind.
    match goal with
    | |- context [speechToText audioBlob ?w0] =>
        destruct (speechToText_first audioBlob w0) as (sent & E);
        destruct (speechToText audioBlob w0) as [[t|e|] w1]
    end; cbn [snd] in E.
    - eapply grows_after; [exact E|].
      match goal with
      | |- grows _ (snd (tryCatch ?b ?h _)) =>
          assert (K : keeps grows (tryCatch b h))
            by (keeps_all grows_refl grows_trans grows_leaf)
      end.
      apply K.
    - eapply grows_after; [exact E|].
      match goal with
      | |- grows _ (snd (?m _)) =>
          assert (K : keeps grows m)
            by (keeps_all grows_refl grows_trans grows_leaf)
      end.
      apply K.
    - exists sent. exact E. }
  destruct F as (sent & F).
  eapply H; [exact F|].
  intros a. keeps_all grows_refl grows_trans grows_leaf.
Qed.

Lemma concat_nonempty (chunks : list Blob) :
  List.concat (filter (fun data => 0 <? List.length data) chunks)
  = List.concat chunks.
Proof.
  induction chunks as [|data rest IH]; [reflexivity|].
  destruct data as [|x data]; simpl; [exact IH|].
  simpl in IH. now rewrite IH.
Qed.

Lemma stopVoiceRecording_sameAudio : keeps sameAudio stopVoiceRecording.
Proof.
  assert (Hr : forall w, sameAudio w w) by (intros w; now split).
  assert (Ht : forall a b c, sameAudio a b -> sameAudio b c -> sameAudio a c)
    by (intros a b c [H1 H2] [K1 K2]; split; congruence).
  unfold stopVoiceRecording, recorderStop.
  keeps_all Hr Ht ltac:(intros ?; split; reflexivity).
Qed.

Lemma deliverAll_sameKey (chunks : list Blob) (w : World) :
  hfApiKey (this (snd (deliverAll chunks w))) = hfApiKey (this w).
Proof.
  revert w. induction chunks as [|d l IH]; intros w; cbn [deliverAll].
  - reflexivity.
  - unfold ondataavailable, when, bind.
    destruct (0 <? List.length d); cbn [modifyThis modify ret fst snd];
      rewrite IH; reflexivity.
Qed.

(** X21: What goes to the speech-to-text model is what was recorded.  With a
    stream at hand: start, let the recorder deliver its chunks, stop; the
    first thing the recorder's [onstop] handler then does, with or
    without the transcription-only override, is to send the chunks
    delivered since the start, concatenated in order, as the form field
    "file" under the name "audio.wav". *)
Theorem onstop_sends_recording (s : nat) (chunks : list Blob) (w : World) :
  stream (this w) = Some s ->
  let w1 := snd (startVoiceRecording w) in
  let w2 := snd (deliverAll chunks w1) in
  let w3 := snd (stopVoiceRecording w2) in
  exists rest,
    trace (snd (onstop w3))
    = (trace w3
         ++ EFetch (mkRequest (hfBaseUrl ++ "/" ++ model_speechToText)
                      (bearer (hfApiKey (this w))) false
                      (FormFile "file" (List.concat chunks) "audio.wav"))
         :: rest)%list.
Proof.
  intros Hs. cbv zeta.
  set (w1 := snd (startVoiceRecording w)).
  assert (H1 : audioChunks (this w1) = []
               /\ hfApiKey (this w1) = hfApiKey (this w)).
  { unfold w1.
    destruct (startThrows (page w) (List.length (recorders w))) eqn:Hr.
    - destruct (startVoiceRecording_refused s w Hs Hr) as (_ & -> & _).
      now split.
    - rewrite (startVoiceRecording_with_stream s w Hs Hr). now split. }
  destruct H1 as [Hc1 Hk1].
  destruct (deliverAll_run chunks w1) as (w2 & E2 & Hc2).
  pose proof (deliverAll_sameKey chunks w1) as Hk2.
  rewrite E2 in *. cbn [snd] in *.
  destruct (stopVoiceRecording_sameAudio w2) as [Hc3 Hk3].
  set (w3 := snd (stopVoiceRecording w2)) in *.
  unfold onstop, bind, gets.
  rewrite Hc3, Hc2, Hc1. cbn [app]. rewrite concat_nonempty.
  destruct (overrides (this w3)).
  - destruct (processVoiceInput_first (List.concat chunks) w3) as (rest & E).
    exists rest. rewrite E. unfold sttRequest. now rewrite Hk3, Hk2, Hk1.
  - destruct (transcribeOnly_first (List.concat chunks) w3) as (rest & E).
    exists rest. rewrite E. unfold sttRequest. now rewrite Hk3, Hk2, Hk1.
Qed.

Lemma onstop_sends_recording_witness :
  stream (this readyWorld) = Some 7
  /\ exists rest,
       trace (snd (onstop
                     (snd (stopVoiceRecording
                             (snd (deliverAll [[1; 2]; []; [3]]
                                     (snd (startVoiceRecording
                                             readyWorld))))))))
       = (trace (snd (stopVoiceRecording
                        (snd (deliverAll [[1; 2]; []; [3]]
                                (snd (startVoiceRecording readyWorld))))))
            ++ EFetch (mkRequest (hfBaseUrl ++ "/" ++ model_speechToText)
                         None false (FormFile "file" [1; 2; 3] "audio.wav"))
            :: rest)%list.
Proof.
  split; [reflexivity|].
  exact (onstop_sends_recording 7 [[1; 2]; []; [3]] readyWorld eq_refl).
Defined.

End RecordedAudio.

(** ** One exchange *)

Section Exchange.

(** On a string message whose request settles: a reply of 20 units or
    more, one request, and nothing touched but the trace. *)
Lemma generateAIResponse_string_world (message : string) (w : World) :
  nextFetch w <> NeverSettles ->
  exists s t,
    generateAIResponse (VStr message) w = (Normal (VStr s), setTrace t w)
    /\ 20 <= String.length s
    /\ count isFetch t = S (count isFetch (trace w))
    /\ filter isHostAddMessage t = filter isHostAddMessage (trace w).
Proof.
  intros Hf. rewrite generateAIResponse_string_run. cbv zeta.
  assert (F : forall t0,
             count isFetch t0 = S (count isFetch (trace w)) ->
             filter isHostAddMessage t0 = filter isHostAddMessage (trace w) ->
             exists s t,
               getFallbackResponse (VStr message) (setTrace t0 w)
               = (Normal (VStr s), setTrace t w)
               /\ 20 <= String.length s
               /\ count isFetch t = S (count isFetch (trace w))
               /\ filter isHostAddMessage t
                  = filter isHostAddMessage (trace w)).
  { intros t0 Hc Hh.
    destruct (getFallbackResponse_string message (setTrace t0 w))
      as (s & Hin & E).
    exists s, (t0 ++ [ERandom])%list. split; [exact E|].
    split; [eapply fallbackTable_long, responses_in_table; eauto|].
    rewrite count_app, filter_snoc, Hc, Hh. cbn. rewrite app_nil_r.
    split; [lia|reflexivity]. }
  assert (C1 : count isFetch
                 (trace (afterGenerationRequest (VStr message) w))
               = S (count isFetch (trace w))).
  { unfold afterGenerationRequest. cbn [trace setTrace].
    rewrite count_app. cbn. lia. }
  assert (H1 : filter isHostAddMessage
                 (trace (afterGenerationRequest (VStr message) w))
               = filter isHostAddMessage (trace w)).
  { unfold afterGenerationRequest. cbn [trace setTrace].
    rewrite filter_snoc. cbn. now rewrite app_nil_r. }
  assert (Ff : exists s t,
             getFallbackResponse (VStr message)
               (setTrace
                  (trace (afterGenerationRequest (VStr message) w)
                     ++ [EConsole "AI response generation error:"])
                  (afterGenerationRequest (VStr message) w))
             = (Normal (VStr s), setTrace t w)
             /\ 20 <= String.length s
             /\ count isFetch t = S (count isFetch (trace w))
             /\ filter isHostAddMessage t
                = filter isHostAddMessage (trace w)).
  { apply (F (trace (afterGenerationRequest (VStr message) w)
                ++ [EConsole "AI response generation error:"])%list).
    - rewrite count_app, C1. cbn. lia.
    - rewrite filter_snoc, H1. cbn. now rewrite app_nil_r. }
  assert (Fs : exists s t,
             getFallbackResponse (VStr message)
               (afterGenerationRequest (VStr message) w)
             = (Normal (VStr s), setTrace t w)
             /\ 20 <= String.length s
             /\ count isFetch t = S (count isFetch (trace w))
             /\ filter isHostAddMessage t
                = filter isHostAddMessage (trace w)).
  { apply (F (trace (afterGenerationRequest (VStr message) w)) C1 H1). }
  destruct (nextFetch w) as [r|e|]; [|exact Ff|congruence].
  destruct (ok r); [|exact Ff].
  destruct (jsonBody r) as [result|]; [|exact Ff].
  destruct (fst (extractGenerated result _)) as [v|e|]; try exact Ff.
  destruct v; try exact Ff.
  destruct (_ <? 20) eqn:Hlen; [exact Fs|].
  eexists. exists (trace (afterGenerationRequest (VStr message) w)).
  split; [reflexivity|]. split; [|split; [exact C1|exact H1]].
  apply Nat.ltb_ge in Hlen. rewrite string_length_app.
  pose proof (punctuated_length (cleaned s)). lia.
Qed.

(** X22: A text message that is not blank gets exactly one exchange: on a
    page without an [addMessage] of its own, and when the request
    settles, the transcript gains the message as it was typed (not
    trimmed) as a user entry and then one bot entry of at least 20 units;
    one request was sent and the indicator is hidden. *)
Theorem sendTextMessage_exchange
    (message : string) (e : Element) (w : World) :
  isEmpty (trim message) = false ->
  hasAddMessage (page w) = false ->
  dom w chatMessages = Some e ->
  nextFetch w <> NeverSettles ->
  let w' := snd (sendTextMessage (VStr message) w) in
  exists reply,
    fst (sendTextMessage (VStr message) w) = Normal tt
    /\ option_map children (dom w' chatMessages)
       = Some (children e
                 ++ [mkChatNode "message user" (VStr message);
                     mkChatNode "message bot" (VStr reply)])%list
    /\ 20 <= String.length reply
    /\ count isFetch (trace w') = S (count isFetch (trace w))
    /\ indicatorHidden w'.
Proof.
  intros Hm Hh Hd Hf. cbv zeta.
  unfold sendTextMessage, callTrim, addMessageToChat, fallbackAddMessage,
    showProcessingIndicator, hideProcessingIndicator.
  run. rewrite Hm, Hh. run. rewrite Hd. run.
  match goal with
  | |- context [generateAIResponse (VStr message) ?w2] =>
      destruct (generateAIResponse_string_world message w2 Hf)
        as (s & t & E & Hlen & Hc & _)
  end.
  rewrite E. exists s. cbn [trace] in Hc. run. cbn [setTrace page].
  rewrite Hh. run. cbn [ElementId_eqb]. rewrite Hd. cbn [option_map]. run.
  cbn -[count]. unfold indicatorHidden. cbn -[count].
  rewrite ?Hd. cbn -[count].
  repeat split; trivial.
  - now rewrite <- app_assoc.
  - now destruct (dom w processingIndicator).
Qed.

Lemma sendTextMessage_exchange_witness :
  isEmpty (trim " I feel anxious ") = false
  /\ hasAddMessage (page offlineWorld) = false
  /\ dom offlineWorld chatMessages = Some blankElement
  /\ nextFetch offlineWorld <> NeverSettles
  /\ exists reply,
       fst (sendTextMessage (VStr " I feel anxious ") offlineWorld)
       = Normal tt
       /\ option_map children
            (dom (snd (sendTextMessage (VStr " I feel anxious ")
                         offlineWorld)) chatMessages)
          = Some [mkChatNode "message user" (VStr " I feel anxious ");
                  mkChatNode "message bot" (VStr reply)]
       /\ 20 <= String.length reply
       /\ count isFetch
            (trace (snd (sendTextMessage (VStr " I feel anxious ")
                           offlineWorld))) = 1
       /\ indicatorHidden
            (snd (sendTextMessage (VStr " I feel anxious ") offlineWorld)).
Proof.
  assert (H : nextFetch offlineWorld <> NeverSettles) by discriminate.
  do 3 (split; [reflexivity|]). split; [exact H|].
  exact (sendTextMessage_exchange " I feel anxious " blankElement
           offlineWorld eq_refl eq_refl eq_refl H).
Defined.

(** X23: When the page's own [addMessage] throws at the user message, the
    message never reaches the model: [sendTextMessage] returns having
    sent no request, with the banner "Failed to generate response" and
    the indicator hidden. *)
Theorem sendTextMessage_host_throws (message : string) (w : World) :
  isEmpty (trim message) = false ->
  hasAddMessage (page w) = true ->
  addMessageThrows (page w) (count isHostAddMessage (trace w)) = true ->
  let w' := snd (sendTextMessage (VStr message) w) in
  fst (sendTextMessage (VStr message) w) = Normal tt
  /\ count isFetch (trace w') = count isFetch (trace w)
  /\ filter isHostAddMessage (trace w')
     = (filter isHostAddMessage (trace w)
          ++ [EHostAddMessage (VStr message) "user"])%list
  /\ dom w' voiceError = bannerWith "Failed to generate response" w
  /\ indicatorHidden w'.
Proof.
  intros Hm Hh Ht. cbv zeta.
  unfold sendTextMessage, callTrim, addMessageToChat, showError,
    hideProcessingIndicator, bannerWith, indicatorHidden.
  run. rewrite Hm, Hh. run. rewrite Ht. run.
  destruct (dom w voiceError) eqn:Hd; run; cbn -[count];
    rewrite ?Hd, !count_app, !filter_app; cbn;
    rewrite ?app_nil_r;
    (repeat split; [lia|now destruct (dom w processingIndicator)]).
Qed.

Lemma sendTextMessage_host_throws_witness :
  isEmpty (trim "hello") = false
  /\ hasAddMessage (page hostileWorld) = true
  /\ addMessageThrows (page hostileWorld)
       (count isHostAddMessage (trace hostileWorld)) = true
  /\ fst (sendTextMessage (VStr "hello") hostileWorld) = Normal tt
  /\ count isFetch (trace (snd (sendTextMessage (VStr "hello") hostileWorld)))
     = 0
  /\ filter isHostAddMessage
       (trace (snd (sendTextMessage (VStr "hello") hostileWorld)))
     = [EHostAddMessage (VStr "hello") "user"]
  /\ dom (snd (sendTextMessage (VStr "hello") hostileWorld)) voiceError
     = bannerWith "Failed to generate response" hostileWorld
  /\ indicatorHidden (snd (sendTextMessage (VStr "hello") hostileWorld)).
Proof.
  do 3 (split; [reflexivity|]).
  exact (sendTextMessage_host_throws "hello" hostileWorld
           eq_refl eq_refl eq_refl).
Defined.

End Exchange.

(** ** No unhandled rejection *)

Section NeverThrows.

Lemma neverThrows_ret {A} (a : A) : neverThrows (ret a).
Proof. intros w e. discriminate. Qed.

Lemma neverThrows_gets {A} (f : World -> A) : neverThrows (gets f).
Proof. intros w e. discriminate. Qed.

Lemma neverThrows_modify (f : World -> World) : neverThrows (modify f).
Proof. intros w e. discriminate. Qed.

Lemma neverThrows_bind {A B} (m : M A) (k : A -> M B) :
  neverThrows m -> (forall a, neverThrows (k a)) -> neverThrows (bind m k).
Proof.
  intros Hm Hk w e. unfold bind. specialize (Hm w).
  destruct (m w) as [[a|x|] w1]; cbn [fst] in *.
  - apply Hk.
  - now destruct (Hm x).
  - discriminate.
Qed.

Lemma neverThrows_tryCatch {A} (m : M A) (h : JSError -> M A) :
  (forall e, neverThrows (h e)) -> neverThrows (tryCatch m h).
Proof.
  intros Hh w e. unfold tryCatch.
  destruct (m w) as [[a|x|] w1]; cbn [fst]; try discriminate.
  apply Hh.
Qed.

Ltac safe_step :=
  match goal with
  | |- neverThrows (tryCatch _ _) => apply neverThrows_tryCatch; intros ?
  | |- neverThrows (bind _ _) => apply neverThrows_bind; [|intros ?]
  | |- neverThrows (ret _) => apply neverThrows_ret
  | |- neverThrows (gets _) => apply neverThrows_gets
  | |- neverThrows (modify _) => apply neverThrows_modify
  | |- neverThrows (if ?b then _ else _) => destruct b
  | |- neverThrows (match ?x with _ => _ end) => destruct x
  end.

Ltac safe_all :=
  repeat first
    [ safe_step
    | progress unfold emit, console, modifyThis, withElement, when,
        showProcessingIndicator, hideProcessingIndicator, showError,
        updateVoiceUI, updatePlaybackUI, fallbackTextToSpeech ].

Lemma neverThrows_initializeAudio : neverThrows initializeAudio.
Proof. unfold initializeAudio. safe_all. Qed.

Lemma neverThrows_startVoiceRecording : neverThrows startVoiceRecording.
Proof.
  unfold startVoiceRecording. safe_all. apply neverThrows_initializeAudio.
Qed.

Lemma neverThrows_textToSpeech (text : JSValue) :
  neverThrows (textToSpeech text).
Proof. unfold textToSpeech. safe_all. Qed.

Lemma neverThrows_processVoiceInput (audioBlob : Blob) :
  neverThrows (processVoiceInput audioBlob).
Proof. unfold processVoiceInput. safe_all. Qed.

Lemma neverThrows_transcribeOnly (audioBlob : Blob) :
  neverThrows (transcribeOnly audioBlob).
Proof. unfold transcribeOnly. safe_all. Qed.

(** X24: No unhandled rejection.  [initializeAudio], [startVoiceRecording],
    [voiceToTextOnly], [playAudioBuffer], [textToSpeech], the recorder's
    [ondataavailable] and [onstop] handlers and the playback handlers
    never end by throwing, whatever the page, the network and the
    recorder do. *)
Theorem handlers_never_throw
    (audio : Blob) (text : JSValue) (w : World) (e : JSError) :
  fst (initializeAudio w) <> Throw e
  /\ fst (startVoiceRecording w) <> Throw e
  /\ fst (voiceToTextOnly w) <> Throw e
  /\ fst (playAudioBuffer audio w) <> Throw e
  /\ fst (textToSpeech text w) <> Throw e
  /\ fst (ondataavailable audio w) <> Throw e
  /\ fst (onstop w) <> Throw e
  /\ fst (playbackEnded w) <> Throw e
  /\ fst (utteranceStarted w) <> Throw e.
Proof.
  repeat split.
  - apply neverThrows_initializeAudio.
  - apply neverThrows_startVoiceRecording.
  - revert w e. change (neverThrows voiceToTextOnly).
    unfold voiceToTextOnly. safe_all.
  - revert w e. change (neverThrows (playAudioBuffer audio)).
    unfold playAudioBuffer. safe_all.
  - apply neverThrows_textToSpeech.
  - revert w e. change (neverThrows (ondataavailable audio)).
    unfold ondataavailable. safe_all.
  - revert w e. change (neverThrows onstop).
    unfold onstop. safe_all;
      [apply neverThrows_processVoiceInput|apply neverThrows_transcribeOnly].
  - revert w e. change (neverThrows playbackEnded).
    unfold playbackEnded. safe_all.
  - revert w e. change (neverThrows utteranceStarted).
    unfold utteranceStarted. safe_all.
Qed.

End NeverThrows.

(** ** Requests sent *)

Section Requests.

Lemma noFetch_refl (w : World) : noFetch w w.
Proof. reflexivity. Qed.

Lemma noFetch_trans (a b c : World) :
  noFetch a b -> noFetch b c -> noFetch a c.
Proof. unfold noFetch. congruence. Qed.

Ltac noFetch_leaf :=
  intros ?; unfold noFetch; cbn [trace setTrace setDom setThis setRecorders];
  rewrite ?count_app; cbn; lia.

(** A method of the shape [try { key; fetch; ... } catch { ... }] whose
    rest and whose catch block send nothing sends exactly one request,
    however it ends. *)
Lemma one_request {A} (f : World -> option string)
    (req : option string -> Request)
    (k : option string -> Response -> M A) (h : JSError -> M A) (w : World) :
  (forall key r, keeps noFetch (k key r)) ->
  (forall e, keeps noFetch (h e)) ->
  count isFetch
    (trace (snd (tryCatch (key <- gets f ;;
                           response <- fetch (req key) ;;
                           k key response) h w)))
  = S (count isFetch (trace w)).
Proof.
  intros Hk Hh. rewrite tryCatch_bind. unfold gets at 1.
  rewrite tryCatch_bind, fetch_run.
  set (w1 := setTrace (trace w ++ [EFetch (req (f w))]) w).
  assert (E : count isFetch (trace w1) = S (count isFetch (trace w))).
  { unfold w1. cbn [trace setTrace]. rewrite count_app. cbn. lia. }
  destruct (nextFetch w) as [r|e|].
  - rewrite <- E.
    assert (K : keeps noFetch (tryCatch (k (f w) r) h)).
    { apply (keeps_tryCatch _ noFetch_trans); [apply Hk|apply Hh]. }
    apply K.
  - rewrite <- E. apply Hh.
  - exact E.
Qed.

Lemma speechToText_one_request (audioBlob : Blob) (w : World) :
  count isFetch (trace (snd (speechToText audioBlob w)))
  = S (count isFetch (trace w)).
Proof.
  unfold speechToText. apply one_request.
  - intros key r. keeps_all noFetch_refl noFetch_trans noFetch_leaf.
  - intros e. keeps_all noFetch_refl noFetch_trans noFetch_leaf.
Qed.

(** [generateAIResponse] builds the prompt first: a message that cannot
    be converted to a string throws there, and the catch block sends
    nothing. *)
Lemma generateAIResponse_requests (message : JSValue) (w : World) :
  count isFetch (trace (snd (generateAIResponse message w)))
  = count isFetch (trace w) + if convertible message then 1 else 0.
Proof.
  unfold generateAIResponse, createMentalHealthPrompt, toStringOf.
  rewrite tryCatch_bind. unfold bind at 1.
  destruct (convertible message); cbn [ret throw].
  - rewrite Nat.add_1_r. apply one_request.
    + intros key r. keeps_all noFetch_refl noFetch_trans noFetch_leaf.
    + intros e. keeps_all noFetch_refl noFetch_trans noFetch_leaf.
  - rewrite Nat.add_0_r.
    assert (K : keeps noFetch
                  (console "AI response generation error:" ;;
                   getFallbackResponse message))
      by keeps_all noFetch_refl noFetch_trans noFetch_leaf.
    apply K.
Qed.

Lemma textToSpeech_one_request (text : JSValue) (w : World) :
  count isFetch (trace (snd (textToSpeech text w)))
  = S (count isFetch (trace w)).
Proof.
  unfold textToSpeech. apply one_request.
  - intros key r. keeps_all noFetch_refl noFetch_trans noFetch_leaf.
  - intros e. keeps_all noFetch_refl noFetch_trans noFetch_leaf.
Qed.

Lemma spends_keeps {A} (m : M A) : keeps noFetch m -> spends 0 m.
Proof. intros H w. specialize (H w). unfold noFetch in H. lia. Qed.

Lemma generateAIResponse_spends (message : JSValue) :
  spends 1 (generateAIResponse message).
Proof.
  intros w. rewrite generateAIResponse_requests.
  destruct (convertible message); lia.
Qed.

Lemma spends_exact {A} (m : M A) :
  (forall w, count isFetch (trace (snd (m w)))
             = S (count isFetch (trace w))) ->
  spends 1 m.
Proof. intros H w. rewrite H. lia. Qed.

Lemma spends_bind {A B} (a b : nat) (m : M A) (k : A -> M B) :
  spends a m -> (forall x, spends b (k x)) -> spends (a + b) (bind m k).
Proof.
  intros Hm Hk w. unfold bind. specialize (Hm w).
  destruct (m w) as [[x|e|] w1]; cbn [snd] in *; try lia.
  specialize (Hk x w1). lia.
Qed.

Lemma spends_tryCatch {A} (a b : nat) (m : M A) (h : JSError -> M A) :
  spends a m -> (forall e, spends b (h e)) -> spends (a + b) (tryCatch m h).
Proof.
  intros Hm Hh w. unfold tryCatch. specialize (Hm w).
  destruct (m w) as [[x|e|] w1]; cbn [snd] in *; try lia.
  specialize (Hh e w1). lia.
Qed.

Lemma spends_weaken {A} (n n' : nat) (m : M A) :
  n <= n' -> spends n m -> spends n' m.
Proof. intros Hn H w. specialize (H w). lia. Qed.

Lemma spends_when (n : nat) (b : bool) (m : M unit) :
  spends n m -> spends n (when b m).
Proof.
  intros H. destruct b; [exact H|]. intros w. cbn. lia.
Qed.

Ltac quiet := apply spends_keeps;
  keeps_all noFetch_refl noFetch_trans noFetch_leaf.

Lemma processVoiceInput_spends (audioBlob : Blob) :
  spends 3 (processVoiceInput audioBlob).
Proof.
  unfold processVoiceInput.
  apply (spends_tryCatch 3 0); [|intros e; quiet].
  apply (spends_bind 0 3); [quiet|intros _].
  apply (spends_bind 1 2);
    [apply spends_exact, speechToText_one_request|intros t].
  apply (spends_bind 2 0); [|intros _; quiet].
  apply spends_when.
  apply (spends_bind 0 2); [quiet|intros _].
  apply (spends_bind 0 2); [quiet|intros _].
  apply (spends_bind 1 1);
    [apply generateAIResponse_spends|intros reply].
  apply (spends_bind 0 1); [quiet|intros _].
  apply (spends_bind 0 1); [quiet|intros _].
  apply spends_exact, textToSpeech_one_request.
Qed.

Lemma sendTextMessage_spends (message : JSValue) :
  spends 1 (sendTextMessage message).
Proof.
  unfold sendTextMessage.
  apply (spends_bind 0 1); [quiet|intros trimmed].
  destruct (isEmpty trimmed);
    [apply (spends_weaken 0 1); [lia|quiet]|].
  apply (spends_tryCatch 1 0); [|intros e; quiet].
  apply (spends_bind 0 1); [quiet|intros _].
  apply (spends_bind 0 1); [quiet|intros _].
  apply (spends_bind 1 0);
    [apply generateAIResponse_spends|intros reply].
  apply (spends_bind 0 0); [quiet|intros _; quiet].
Qed.

(** X25: No retries.  [speechToText] and [textToSpeech] each send exactly
    one request, however they end: a failed call is never repeated.
    [generateAIResponse] sends exactly one as well, unless its message
    cannot be converted to a string: then building the prompt throws
    before the request and none is sent.  A run of the voice pipeline
    sends at least one and at most three requests; the text entry point
    sends at most one. *)
Theorem request_budget
    (audioBlob : Blob) (message : JSValue) (w : World) :
  let sent w' := count isFetch (trace w') - count isFetch (trace w) in
  sent (snd (speechToText audioBlob w)) = 1
  /\ sent (snd (generateAIResponse message w))
     = (if convertible message then 1 else 0)
  /\ sent (snd (textToSpeech message w)) = 1
  /\ 1 <= sent (snd (processVoiceInput audioBlob w)) <= 3
  /\ sent (snd (sendTextMessage message w)) <= 1.
Proof.
  cbv beta zeta.
  rewrite speechToText_one_request, generateAIResponse_requests,
    textToSpeech_one_request.
  destruct (processVoiceInput_spends audioBlob w) as [_ H3].
  destruct (sendTextMessage_spends message w) as [_ H1].
  destruct (processVoiceInput_first audioBlob w) as (rest & E).
  rewrite E, count_app. cbn [count filter isFetch List.length].
  rewrite E, count_app in H3. cbn [count filter isFetch List.length] in H3.
  repeat split; try lia.
Qed.

End Requests.

(** ** One spoken exchange *)

Section SpokenExchange.

(** [textToSpeech] once its request settles: it returns, the transcript
    and the processing indicator are not its business, and the first
    thing it did was to send the text. *)
Lemma textToSpeech_settled (text : JSValue) (w : World) :
  nextFetch w <> NeverSettles ->
  exists w4 rest,
    textToSpeech text w = (Normal tt, w4)
    /\ dom w4 chatMessages = dom w chatMessages
    /\ dom w4 processingIndicator = dom w processingIndicator
    /\ trace w4 = (trace w ++ EFetch (ttsRequest text w) :: rest)%list.
Proof.
  unfold nextFetch. intros Hf.
  unfold textToSpeech, playAudioBuffer, fallbackTextToSpeech,
    updatePlaybackUI, ttsRequest. run.
  destruct (fetchResult _ _) as [r|e|]; [| |congruence].
  - destruct (ok r); cbn [negb]; run.
    + destruct (rawBody r) as [audio|]; run.
      * destruct (audioContext (this w) || hasAudioContext (page w)); run;
          [destruct (decodable (page w) audio); run|];
          eexists; eexists; (split; [reflexivity|]);
          cbn [dom trace ElementId_eqb]; rewrite <- ?app_assoc;
          repeat split; reflexivity.
      * destruct (hasSpeechSynthesis (page w)) eqn:Hs;
          repeat (cbv beta iota; cbn [page this trace dom recorders];
                  rewrite ?Hs);
          eexists; eexists; (split; [reflexivity|]);
          cbn [dom trace ElementId_eqb]; rewrite <- ?app_assoc;
          repeat split; reflexivity.
    + destruct (hasSpeechSynthesis (page w)) eqn:Hs;
        repeat (cbv beta iota; cbn [page this trace dom recorders];
                rewrite ?Hs);
        eexists; eexists; (split; [reflexivity|]);
        cbn [dom trace ElementId_eqb]; rewrite <- ?app_assoc;
        repeat split; reflexivity.
  - destruct (hasSpeechSynthesis (page w)) eqn:Hs;
      repeat (cbv beta iota; cbn [page this trace dom recorders];
              rewrite ?Hs);
      eexists; eexists; (split; [reflexivity|]);
      cbn [dom trace ElementId_eqb]; rewrite <- ?app_assoc;
      repeat split; reflexivity.
Qed.

(** X26: What is shown is what is spoken.  When the speech service answers
    with a non-empty string and the later requests settle, a run of the
    pipeline (on a page without an [addMessage] of its own) adds the
    transcription as a user entry and one reply of at least 20 units as a
    bot entry, and the text it sends to the speech synthesis model is
    that very reply; three requests in all. *)
Theorem processVoiceInput_exchange
    (audioBlob : Blob) (transcript : string) (body : JSValue) (r : Response)
    (e : Element) (w : World) :
  nextFetch w = Resolved r ->
  ok r = true ->
  jsonBody r = Some body ->
  (forall w0, extractTranscript body w0 = (Normal (VStr transcript), w0)) ->
  transcript <> "" ->
  hasAddMessage (page w) = false ->
  dom w chatMessages = Some e ->
  (forall n, fetchResult (page w) n <> NeverSettles) ->
  let w' := snd (processVoiceInput audioBlob w) in
  exists reply,
    fst (processVoiceInput audioBlob w) = Normal tt
    /\ option_map children (dom w' chatMessages)
       = Some (children e
                 ++ [mkChatNode "message user" (VStr transcript);
                     mkChatNode "message bot" (VStr reply)])%list
    /\ 20 <= String.length reply
    /\ In (EFetch (ttsRequest (VStr reply) w)) (trace w')
    /\ indicatorHidden w'.
Proof.
  intros Hf Hok Hj Hx Ht Hh Hd Hall. cbv zeta.
  assert (Tt : truthy (VStr transcript) = true)
    by (destruct transcript; [congruence|reflexivity]).
  unfold processVoiceInput, addMessageToChat, fallbackAddMessage,
    showProcessingIndicator, hideProcessingIndicator.
  run.
  rewrite (speechToText_answered audioBlob body r) by assumption.
  unfold tryCatch. rewrite Hx, Tt. run. rewrite Hh. run.
  cbn [ElementId_eqb]. rewrite Hd. cbn [option_map]. run.
  match goal with
  | |- context [generateAIResponse (VStr transcript) ?w2] =>
      destruct (generateAIResponse_string_world transcript w2 (Hall _))
        as (s & t & E & Hlen & _ & _)
  end.
  rewrite E. exists s. run. cbn [setTrace page]. rewrite Hh. run.
  cbn [ElementId_eqb]. rewrite Hd. cbn [option_map]. run.
  match goal with
  | |- context [textToSpeech (VStr s) ?w3] =>
      destruct (textToSpeech_settled (VStr s) w3 (Hall _))
        as (w4 & rest & E4 & Hc & Hp & Htr)
  end.
  rewrite E4. cbn [fst snd dom ElementId_eqb trace].
  cbn [dom ElementId_eqb] in Hc, Hp. cbn [trace] in Htr.
  rewrite Hc, Hd, Htr. unfold indicatorHidden. cbn [dom ElementId_eqb].
  rewrite Hp.
  split; [reflexivity|]. split; [cbn; now rewrite <- app_assoc|].
  split; [exact Hlen|]. split.
  - apply in_or_app. right. left. reflexivity.
  - destruct (dom w processingIndicator); cbn; trivial.
Qed.

Lemma processVoiceInput_exchange_witness :
  let body := VObj [("text", VStr "I feel anxious")] in
  let r := mkResponse 200 (Some body) (Some []) in
  let w := servedWorld (VStr "I feel anxious") in
  nextFetch w = Resolved r
  /\ ok r = true
  /\ jsonBody r = Some body
  /\ (forall w0,
        extractTranscript body w0 = (Normal (VStr "I feel anxious"), w0))
  /\ "I feel anxious" <> ""
  /\ hasAddMessage (page w) = false
  /\ dom w chatMessages = Some blankElement
  /\ (forall n, fetchResult (page w) n <> NeverSettles)
  /\ exists reply,
       fst (processVoiceInput [1; 2; 3] w) = Normal tt
       /\ option_map children
            (dom (snd (processVoiceInput [1; 2; 3] w)) chatMessages)
          = Some [mkChatNode "message user" (VStr "I feel anxious");
                  mkChatNode "message bot" (VStr reply)]
       /\ 20 <= String.length reply
       /\ In (EFetch (ttsRequest (VStr reply) w))
            (trace (snd (processVoiceInput [1; 2; 3] w)))
       /\ indicatorHidden (snd (processVoiceInput [1; 2; 3] w)).
Proof.
  cbv zeta.
  assert (Hx : forall w0,
             extractTranscript (VObj [("text", VStr "I feel anxious")]) w0
             = (Normal (VStr "I feel anxious"), w0))
    by (intros w0; reflexivity).
  assert (Hn : "I feel anxious" <> "") by discriminate.
  assert (Hall : forall n,
             fetchResult (page (servedWorld (VStr "I feel anxious"))) n
             <> NeverSettles)
    by (intros [|[|n]]; discriminate).
  do 3 (split; [reflexivity|]). split; [exact Hx|]. split; [exact Hn|].
  do 2 (split; [reflexivity|]). split; [exact Hall|].
  exact (processVoiceInput_exchange [1; 2; 3] "I feel anxious"
           (VObj [("text", VStr "I feel anxious")])
           (mkResponse 200 (Some (VObj [("text", VStr "I feel anxious")])) (Some []))
           blankElement (servedWorld (VStr "I feel anxious"))
           eq_refl eq_refl eq_refl Hx Hn eq_refl eq_refl Hall).
Defined.

End SpokenExchange.

(** ** An echoed prompt *)

Section PromptEcho.

Lemma oneLine_app (a b : string) :
  oneLine (a ++ b) = oneLine a && oneLine b.
Proof.
  induction a as [|c a IH]; simpl; [reflexivity|].
  now rewrite IH, andb_assoc.
Qed.

(** X27: The echo filter works line by line and looks at the very start of a
    line only.  Of a prompt that comes back whole (with a one-line user
    message), only the first line goes: the "User:" and "Assistant:"
    lines of the template are indented, so they stay, message
    included. *)
Theorem prompt_echo_survives (message : string) :
  oneLine message = true ->
  removePromptRepetition (promptBefore ++ message ++ promptAfter)
  = (promptAfterFirstLine ++ message ++ promptAfter)%string.
Proof.
  intros Hm.
  set (nl := ascii_of_nat 10).
  assert (Hnl : isLineTerminator nl = true) by reflexivity.
  change (promptBefore ++ message ++ promptAfter)%string
    with ("You are an empathetic AI mental health support assistant specifically designed for students. " ++ String nl
            ("        You provide compassionate, understanding responses while encouraging professional help when needed." ++ String nl
               ("        " ++ String nl
                  (("        User: " ++ message) ++ String nl "        Assistant: "))))%string.
  rewrite (removePromptRepetition_line "You are an empathetic AI mental health support assistant specifically designed for students. ") by (trivial; reflexivity).
  rewrite (removePromptRepetition_line "        You provide compassionate, understanding responses while encouraging professional help when needed.") by (trivial; reflexivity).
  rewrite (removePromptRepetition_line "        ") by (trivial; reflexivity).
  rewrite (removePromptRepetition_line ("        User: " ++ message))
    by (trivial; rewrite oneLine_app, Hm; reflexivity).
  rewrite removePromptRepetition_last by reflexivity.
  reflexivity.
Qed.

Lemma prompt_echo_survives_witness :
  oneLine "I feel anxious" = true
  /\ removePromptRepetition
       (promptBefore ++ "I feel anxious" ++ promptAfter)
     = (promptAfterFirstLine ++ "I feel anxious" ++ promptAfter)%string
  /\ includes "User: I feel anxious"
       (cleaned (promptBefore ++ "I feel anxious" ++ promptAfter)) = true.
Proof.
  split; [reflexivity|]. split; [|reflexivity].
  exact (prompt_echo_survives "I feel anxious" eq_refl).
Defined.

End PromptEcho.

(** ** Reading the generated text *)

Section GeneratedText.

(** X28: Which text [generateAIResponse] reads out of a JSON result other than
    [null].  For a list whose first element is truthy: that element's
    [generated_text] if truthy, else its [text] if truthy, else the empty
    string.  For everything else, a list with a falsy first element
    included: the result's own [generated_text] if truthy, else the empty
    string; a top-level [text] is never read.  Nothing is thrown and
    nothing changes. *)
Theorem extractGenerated_policy (result : JSValue) (w : World) :
  result <> VNull -> result <> VUndefined ->
  let first := elem0 result in
  exists v,
    extractGenerated result w = (Normal v, w)
    /\ (isArray result && truthy first = true ->
        v = if truthy (fieldOf "generated_text" first)
            then fieldOf "generated_text" first
            else if truthy (fieldOf "text" first)
                 then fieldOf "text" first
                 else VStr "")
    /\ (isArray result && truthy first = false ->
        v = if truthy (fieldOf "generated_text" result)
            then fieldOf "generated_text" result
            else VStr "").
Proof.
  intros Hn Hu. cbv zeta. unfold extractGenerated, elem0, fieldOf. run.
  destruct result as [| | | | |items|fields]; try congruence; cbn.
  - eexists. split; [reflexivity|]. split; [discriminate|reflexivity].
  - eexists. split; [reflexivity|]. split; [discriminate|reflexivity].
  - eexists. split; [reflexivity|]. split; [discriminate|reflexivity].
  - destruct (truthy (hd VUndefined items)) eqn:T; cbn.
    + destruct (getProp (hd VUndefined items) "generated_text") as [g|] eqn:G;
        [|destruct (hd VUndefined items); discriminate].
      destruct (truthy g) eqn:Tg.
      * eexists. split; [reflexivity|]. split; [reflexivity|discriminate].
      * destruct (getProp (hd VUndefined items) "text") as [x|] eqn:X;
          [|destruct (hd VUndefined items); discriminate].
        eexists. split; [reflexivity|]. split; [|discriminate].
        intros _. unfold orElse. now destruct (truthy x).
    + eexists. split; [reflexivity|]. split; [discriminate|reflexivity].
  - destruct (truthy (lookupField "generated_text" fields));
      eexists; (split; [reflexivity|]); split; try discriminate; reflexivity.
Qed.

Lemma extractGenerated_policy_witness :
  let result :=
    VArr [VObj [("generated_text", VStr ""); ("text", VStr "I am here.")]] in
  result <> VNull /\ result <> VUndefined
  /\ exists v,
       extractGenerated result offlineWorld = (Normal v, offlineWorld)
       /\ (isArray result && truthy (elem0 result) = true ->
           v = VStr "I am here.")
       /\ (isArray result && truthy (elem0 result) = false ->
           v = VStr "").
Proof.
  cbv zeta. split; [discriminate|]. split; [discriminate|].
  exact (extractGenerated_policy
           (VArr [VObj [("generated_text", VStr "");
                        ("text", VStr "I am here.")]])
           offlineWorld ltac:(discriminate) ltac:(discriminate)).
Defined.

End GeneratedText.
